(** * The libev backend of Polyphony: a shallow embedding

    This development models [ext/polyphony/backend_libev.c].  The backend
    turns blocking POSIX calls into await-on-readiness loops that run inside a
    fiber.  The embedding follows one fiber through one backend:

    - the kernel is an oracle: the list [kernel] holds the answers that the
      system calls to come will receive, in order;
    - what happens while the fiber is switched out (watcher callbacks invoked
      by the event loop, other fibers scheduling this one, time passing, the
      scheduler switching back) is the list [sched];
    - C locals are passed explicitly, a pointer into a buffer is the list of
      bytes from the pointer on, structs whose address is handed to libev live
      in the world and are named by their address;
    - [longjmp]-style raising ([rb_syserr_fail], [rb_raise], the [goto error]
      paths) is the [Raised] outcome; a call that never comes back (nobody
      ever resumes the fiber, the kernel never answers, a loop spins) is
      [Hang].

    C integers are mathematical integers here: lengths and counts are taken to
    stay in the range of their C types.  Garbage-collector guards, taint,
    encodings and the O_NONBLOCK bookkeeping of [io_verify_blocking_mode] have
    no counterpart. *)

From Stdlib Require Import ZArith List Bool Lia String.
From Stdlib.Strings Require Import Byte.
Import ListNotations.
Local Open Scope Z_scope.
Set Warnings "-register-all".

(** ** errno values ([<errno.h>], Linux) *)

Definition EINTR : Z := 4.
Definition EAGAIN : Z := 11.
Definition EWOULDBLOCK : Z := 11.
Definition EPIPE : Z := 32.
Definition EINPROGRESS : Z := 115.

(** ** libev event masks ([ev.h]) *)

Definition EV_READ : Z := 1.
Definition EV_WRITE : Z := 2.

(** ** Values of the host language *)

Inductive VALUE : Type :=
| Qnil
| Qfalse
| Qtrue
| Fixnum (n : Z)
| Symbol (name : string)
| RString (bytes : list byte)
| RArray (elts : list VALUE)
| RClass (name : string)
| RException (id : nat) (ctor : VALUE)
    (* an exception object: [id] is its identity, [ctor] what it was built from *)
| RProc (call : Z -> list byte)
    (* a callable that maps a chunk length to a framing string *)
| RFile (fd : Z) (tied_write_fd : option Z)
    (* a T_FILE object; a duplex pipe has a tied write io *)
| RObject (ivar_io : VALUE)
    (* any other object; [ivar_io] is its @io instance variable *)
| RFiber (id : nat).

Definition is_nil (v : VALUE) : bool :=
  match v with Qnil => true | _ => false end.

Definition RTEST (v : VALUE) : bool :=
  match v with Qnil | Qfalse => false | _ => true end.

Definition cTimeoutException : VALUE := RClass "Polyphony::TimeoutException".

(** Modelled from the spec: [TEST_EXCEPTION] is a macro of polyphony.h, which
    is not part of the sources at hand.  A resume value is exception-like when
    it is an exception object. *)
Definition TEST_EXCEPTION (v : VALUE) : bool :=
  match v with RException _ _ => true | _ => false end.

(** [a == b] on two VALUEs, for objects that carry an identity. *)
Definition same_object (a b : VALUE) : bool :=
  match a, b with
  | RException i _, RException j _ => Nat.eqb i j
  | RFiber i, RFiber j => Nat.eqb i j
  | _, _ => false
  end.

(** What a raise carries. *)
Inductive exn : Type :=
| SystemCallError (errno : Z)      (* rb_syserr_fail(e, strerror(e)) *)
| RuntimeError (msg : string)      (* rb_raise(rb_eRuntimeError, msg) *)
| TypeError                        (* a conversion of the C API refused its argument *)
| RangeError                       (* NUM2INT out of the range of int *)
| ArgumentError                    (* rb_scan_args refused the argument count *)
| Reraised (v : VALUE).            (* RAISE_EXCEPTION(v): the object v itself is raised *)

(** ** Watchers *)

(** [struct libev_io]: the ev_io part is its address, fd and event mask. *)
Record libev_io : Type := mk_libev_io {
  io_addr : nat;
  io_fd : Z;
  io_events : Z;
  io_fiber : VALUE
}.

(** [struct libev_rw_ctx] *)
Record libev_rw_ctx : Type := mk_rw_ctx {
  ref_count : Z;
  ctx_fiber : VALUE
}.

(** What the event loop knows of an active watcher: which callback to invoke
    and the data the callback reaches through the watcher pointer. *)
Inductive ev_watcher : Type :=
| EvIo (fd events : Z) (fiber : VALUE)          (* Backend_io_callback *)
| EvRwIo (fd events : Z) (ctx : nat)            (* Backend_rw_io_callback; ctx is a pointer *)
| EvTimer (after : Z) (fiber : VALUE)           (* Backend_timer_callback *)
| EvTimeout (after : Z) (fiber resume_value : VALUE). (* Backend_timeout_callback *)

(** What happens while the fiber is switched out. *)
Inductive sevent : Type :=
| Fire (watcher : nat)     (* the event loop invokes the callback of this active watcher *)
| Schedule (v : VALUE)     (* something else schedules this fiber with resume value v *)
| Elapse (d : Z)           (* time passes *)
| Run.                     (* the scheduler reaches the head of the run queue *)

(** The answer of the kernel to one system call. *)
Inductive kanswer : Type :=
| KOk (n : Z)              (* success; n bounds the bytes moved (or is the return value) *)
| KErr (errno : Z).        (* failure with this errno *)

(** ** The world *)

Record World : Type := mkWorld {
  kernel : list kanswer;
  sched : list sevent;
  errno : Z;
  inbuf : Z -> list byte;          (* per fd: bytes waiting to be read *)
  outbuf : Z -> list byte;         (* per fd: every byte written so far *)
  pipes : list (Z * Z);            (* (write end, read end) of the open pipes *)
  next_fd : Z;
  closed : list Z;
  clock : Z;                       (* current_time(), in clock ticks *)
  op_count : Z;                    (* backend->base.op_count *)
  runqueue : list (VALUE * VALUE); (* backend->base.runqueue: (fiber, resume value) *)
  ev_loop : list (nat * ev_watcher); (* backend->ev_loop: the active watchers by address *)
  rw_ctxs : nat -> libev_rw_ctx;   (* the libev_rw_ctx structs, by address *)
  cur_fiber : VALUE;               (* rb_fiber_current() *)
  next_addr : nat;                 (* where the next watcher struct is placed *)
  next_obj : nat                   (* identity of the next object allocated *)
}.

Definition set_kernel (k : list kanswer) (w : World) : World :=
  mkWorld k (sched w) (errno w) (inbuf w) (outbuf w) (pipes w) (next_fd w)
    (closed w) (clock w) (op_count w) (runqueue w) (ev_loop w) (rw_ctxs w)
    (cur_fiber w) (next_addr w) (next_obj w).
Definition set_sched (s : list sevent) (w : World) : World :=
  mkWorld (kernel w) s (errno w) (inbuf w) (outbuf w) (pipes w) (next_fd w)
    (closed w) (clock w) (op_count w) (runqueue w) (ev_loop w) (rw_ctxs w)
    (cur_fiber w) (next_addr w) (next_obj w).
Definition set_errno (e : Z) (w : World) : World :=
  mkWorld (kernel w) (sched w) e (inbuf w) (outbuf w) (pipes w) (next_fd w)
    (closed w) (clock w) (op_count w) (runqueue w) (ev_loop w) (rw_ctxs w)
    (cur_fiber w) (next_addr w) (next_obj w).
Definition set_inbuf (f : Z -> list byte) (w : World) : World :=
  mkWorld (kernel w) (sched w) (errno w) f (outbuf w) (pipes w) (next_fd w)
    (closed w) (clock w) (op_count w) (runqueue w) (ev_loop w) (rw_ctxs w)
    (cur_fiber w) (next_addr w) (next_obj w).
Definition set_outbuf (f : Z -> list byte) (w : World) : World :=
  mkWorld (kernel w) (sched w) (errno w) (inbuf w) f (pipes w) (next_fd w)
    (closed w) (clock w) (op_count w) (runqueue w) (ev_loop w) (rw_ctxs w)
    (cur_fiber w) (next_addr w) (next_obj w).
Definition set_pipes (p : list (Z * Z)) (w : World) : World :=
  mkWorld (kernel w) (sched w) (errno w) (inbuf w) (outbuf w) p (next_fd w)
    (closed w) (clock w) (op_count w) (runqueue w) (ev_loop w) (rw_ctxs w)
    (cur_fiber w) (next_addr w) (next_obj w).
Definition set_next_fd (n : Z) (w : World) : World :=
  mkWorld (kernel w) (sched w) (errno w) (inbuf w) (outbuf w) (pipes w) n
    (closed w) (clock w) (op_count w) (runqueue w) (ev_loop w) (rw_ctxs w)
    (cur_fiber w) (next_addr w) (next_obj w).
Definition set_closed (c : list Z) (w : World) : World :=
  mkWorld (kernel w) (sched w) (errno w) (inbuf w) (outbuf w) (pipes w) (next_fd w)
    c (clock w) (op_count w) (runqueue w) (ev_loop w) (rw_ctxs w)
    (cur_fiber w) (next_addr w) (next_obj w).
Definition set_clock (t : Z) (w : World) : World :=
  mkWorld (kernel w) (sched w) (errno w) (inbuf w) (outbuf w) (pipes w) (next_fd w)
    (closed w) t (op_count w) (runqueue w) (ev_loop w) (rw_ctxs w)
    (cur_fiber w) (next_addr w) (next_obj w).
Definition set_op_count (n : Z) (w : World) : World :=
  mkWorld (kernel w) (sched w) (errno w) (inbuf w) (outbuf w) (pipes w) (next_fd w)
    (closed w) (clock w) n (runqueue w) (ev_loop w) (rw_ctxs w)
    (cur_fiber w) (next_addr w) (next_obj w).
Definition set_runqueue (q : list (VALUE * VALUE)) (w : World) : World :=
  mkWorld (kernel w) (sched w) (errno w) (inbuf w) (outbuf w) (pipes w) (next_fd w)
    (closed w) (clock w) (op_count w) q (ev_loop w) (rw_ctxs w)
    (cur_fiber w) (next_addr w) (next_obj w).
Definition set_ev_loop (l : list (nat * ev_watcher)) (w : World) : World :=
  mkWorld (kernel w) (sched w) (errno w) (inbuf w) (outbuf w) (pipes w) (next_fd w)
    (closed w) (clock w) (op_count w) (runqueue w) l (rw_ctxs w)
    (cur_fiber w) (next_addr w) (next_obj w).
Definition set_rw_ctxs (c : nat -> libev_rw_ctx) (w : World) : World :=
  mkWorld (kernel w) (sched w) (errno w) (inbuf w) (outbuf w) (pipes w) (next_fd w)
    (closed w) (clock w) (op_count w) (runqueue w) (ev_loop w) c
    (cur_fiber w) (next_addr w) (next_obj w).
Definition set_next_addr (n : nat) (w : World) : World :=
  mkWorld (kernel w) (sched w) (errno w) (inbuf w) (outbuf w) (pipes w) (next_fd w)
    (closed w) (clock w) (op_count w) (runqueue w) (ev_loop w) (rw_ctxs w)
    (cur_fiber w) n (next_obj w).
Definition set_next_obj (n : nat) (w : World) : World :=
  mkWorld (kernel w) (sched w) (errno w) (inbuf w) (outbuf w) (pipes w) (next_fd w)
    (closed w) (clock w) (op_count w) (runqueue w) (ev_loop w) (rw_ctxs w)
    (cur_fiber w) (next_addr w) n.

(** Point update of a per-fd or per-address table. *)
Definition upd {K A : Type} (eqb : K -> K -> bool) (f : K -> A) (k : K) (a : A) : K -> A :=
  fun k' => if eqb k k' then a else f k'.

(** ** Outcomes and the monad of backend code *)

Inductive result (A : Type) : Type :=
| Done (a : A) (w : World)       (* the call returned a *)
| Raised (e : exn) (w : World)   (* the call raised *)
| Hang (w : World).              (* the call never comes back *)
Arguments Done {A} a w.
Arguments Raised {A} e w.
Arguments Hang {A} w.

Definition M (A : Type) : Type := World -> result A.

Definition ret {A : Type} (a : A) : M A := fun w => Done a w.

Definition bind {A B : Type} (m : M A) (k : A -> M B) : M B :=
  fun w =>
    match m w with
    | Done a w' => k a w'
    | Raised e w' => Raised e w'
    | Hang w' => Hang w'
    end.

Definition raise {A : Type} (e : exn) : M A := fun w => Raised e w.
Definition hang {A : Type} : M A := fun w => Hang w.
Definition get {A : Type} (f : World -> A) : M A := fun w => Done (f w) w.
Definition modify (f : World -> World) : M unit := fun w => Done tt (f w).

Declare Scope backend_scope.
Delimit Scope backend_scope with backend.
Notation "x <- m ;; k" := (bind m (fun x => k))
  (at level 61, m at next level, right associativity) : backend_scope.
Notation "' pat <- m ;; k" := (bind m (fun x => match x with pat => k end))
  (at level 61, pat pattern, m at next level, right associativity) : backend_scope.
Notation "m ;;; k" := (bind m (fun _ => k))
  (at level 61, right associativity) : backend_scope.
Local Open Scope backend_scope.

(** Every loop below makes at least one system call per round, so a loop can
    run for at most as many rounds as the kernel has answers left. *)
Definition with_kernel_fuel {A : Type} (loop : nat -> M A) : M A :=
  fun w => loop (S (List.length (kernel w))) w.

(** ** The C API of the host, as far as the backend uses it *)

Definition rb_ivar_get_io (obj : VALUE) : VALUE :=
  match obj with RObject underlying => underlying | _ => Qnil end.

Definition rb_io_get_write_io (io : VALUE) : VALUE :=
  match io with RFile _ (Some wfd) => RFile wfd None | _ => io end.

(** [GetOpenFile(io, fptr)]; the result stands for [fptr->fd]. *)
Definition GetOpenFile (io : VALUE) : M Z :=
  match io with RFile fd _ => ret fd | _ => raise TypeError end.

Definition StringValuePtr (str : VALUE) : M (list byte) :=
  match str with RString bytes => ret bytes | _ => raise TypeError end.

Definition RSTRING_LEN (str : VALUE) : Z :=
  match str with RString bytes => Z.of_nat (List.length bytes) | _ => 0 end.

Definition INT_MIN : Z := - 2 ^ 31.
Definition INT_MAX : Z := 2 ^ 31 - 1.

Definition NUM2INT (v : VALUE) : M Z :=
  match v with
  | Fixnum n => if (INT_MIN <=? n) && (n <=? INT_MAX) then ret n else raise RangeError
  | _ => raise TypeError
  end.

Definition INT2NUM (n : Z) : VALUE := Fixnum n.

Definition rb_fiber_current : M VALUE := get cur_fiber.

Definition rb_syserr_fail {A : Type} (e : Z) : M A := raise (SystemCallError e).

(** Modelled from the spec: [RAISE_EXCEPTION] is a macro of polyphony.h, not
    part of the sources at hand; the exception-typed resume value is re-raised
    at the suspension point. *)
Definition RAISE_EXCEPTION {A : Type} (v : VALUE) : M A := raise (Reraised v).

(** Modelled from the spec: [RAISE_IF_EXCEPTION], same header. *)
Definition RAISE_IF_EXCEPTION (v : VALUE) : M unit :=
  if TEST_EXCEPTION v then RAISE_EXCEPTION v else ret tt.

(** A local struct whose address escapes gets an address of its own. *)
Definition alloca (size : nat) : M nat :=
  fun w => Done (next_addr w) (set_next_addr (next_addr w + size)%nat w).

(** A new object gets an identity of its own. *)
Definition new_object_id : M nat :=
  fun w => Done (next_obj w) (set_next_obj (S (next_obj w)) w).

(** ** System calls *)

Definition bytes_len (l : list byte) : Z := Z.of_nat (List.length l).

(** A [size_t] parameter receives the C integer converted modulo 2^64. *)
Definition to_size_t (n : Z) : Z := n mod 2 ^ 64.

Definition pipe_read_end (fd : Z) (ps : list (Z * Z)) : option Z :=
  match find (fun p => fst p =? fd) ps with
  | Some p => Some (snd p)
  | None => None
  end.

(** Bytes written to [fd] are appended to what [fd] received; if [fd] is the
    write end of a pipe they become readable at the read end. *)
Definition deliver (fd : Z) (data : list byte) (w : World) : World :=
  let w1 := set_outbuf (upd Z.eqb (outbuf w) fd (outbuf w fd ++ data)) w in
  match pipe_read_end fd (pipes w1) with
  | Some r => set_inbuf (upd Z.eqb (inbuf w1) r (inbuf w1 r ++ data)) w1
  | None => w1
  end.

Definition consume (fd : Z) (n : nat) (w : World) : World :=
  set_inbuf (upd Z.eqb (inbuf w) fd (skipn n (inbuf w fd))) w.

(** [write(fd, buf, count)]: the kernel takes at most [count] bytes. *)
Definition sys_write (fd : Z) (buf : list byte) (count : Z) : M Z :=
  fun w =>
    match kernel w with
    | [] => Hang w
    | KErr e :: k => Done (-1) (set_errno e (set_kernel k w))
    | KOk a :: k =>
        let n := Z.max 0 (Z.min a (to_size_t count)) in
        let data := firstn (Z.to_nat n) buf in
        Done (bytes_len data) (deliver fd data (set_kernel k w))
    end.

(** [send(fd, buf, count, flags)] *)
Definition sys_send (fd : Z) (buf : list byte) (count : Z) (flags : Z) : M Z :=
  sys_write fd buf count.

(** [read(fd, buf, count)]: the bytes stored at [buf] come with the count. *)
Definition sys_read (fd : Z) (count : Z) : M (Z * list byte) :=
  fun w =>
    match kernel w with
    | [] => Hang w
    | KErr e :: k => Done (-1, []) (set_errno e (set_kernel k w))
    | KOk a :: k =>
        let n := Z.max 0 (Z.min a (to_size_t count)) in
        let data := firstn (Z.to_nat n) (inbuf w fd) in
        Done (bytes_len data, data)
             (consume fd (List.length data) (set_kernel k w))
    end.

(** [splice(src, 0, dest, 0, maxlen, 0)] *)
Definition sys_splice (src dest : Z) (maxlen : Z) : M Z :=
  fun w =>
    match kernel w with
    | [] => Hang w
    | KErr e :: k => Done (-1) (set_errno e (set_kernel k w))
    | KOk a :: k =>
        let n := Z.max 0 (Z.min a (to_size_t maxlen)) in
        let data := firstn (Z.to_nat n) (inbuf w src) in
        Done (bytes_len data)
             (deliver dest data (consume src (List.length data) (set_kernel k w)))
    end.

(** [connect(fd, addr, len)] *)
Definition sys_connect (fd : Z) : M Z :=
  fun w =>
    match kernel w with
    | [] => Hang w
    | KErr e :: k => Done (-1) (set_errno e (set_kernel k w))
    | KOk _ :: k => Done 0 (set_kernel k w)
    end.

(** [pipe(pipefd)]: the new descriptors are [(read end, write end)]; a new
    pipe is empty. *)
Definition sys_pipe : M (Z * (Z * Z)) :=
  fun w =>
    match kernel w with
    | [] => Hang w
    | KErr e :: k => Done (-1, (-1, -1)) (set_errno e (set_kernel k w))
    | KOk _ :: k =>
        let r := next_fd w in
        let wr := next_fd w + 1 in
        let w1 := set_next_fd (next_fd w + 2)
                    (set_pipes ((wr, r) :: pipes w) (set_kernel k w)) in
        Done (0, (r, wr)) (set_inbuf (upd Z.eqb (inbuf w1) r []) w1)
    end.

(** [close(fd)]; the backend never looks at what it returns. *)
Definition sys_close (fd : Z) : M unit :=
  modify (fun w => set_closed (fd :: closed w) w).

Definition get_errno : M Z := get errno.

(** ** Scheduler *)

(** Modelled from the spec: [Fiber_make_runnable] ends in the run queue of
    backend_common, which is not part of the sources at hand.  Scheduling is
    idempotent: a fiber already queued has its resume value updated in place,
    otherwise it is appended. *)
Fixpoint runqueue_schedule (q : list (VALUE * VALUE)) (fiber value : VALUE)
  : list (VALUE * VALUE) :=
  match q with
  | [] => [(fiber, value)]
  | (f, v) :: q' =>
      if same_object f fiber then (f, value) :: q'
      else (f, v) :: runqueue_schedule q' fiber value
  end.

Definition Fiber_make_runnable (fiber value : VALUE) (w : World) : World :=
  set_runqueue (runqueue_schedule (runqueue w) fiber value) w.

Definition is_runnable (fiber : VALUE) (w : World) : bool :=
  existsb (fun e => same_object (fst e) fiber) (runqueue w).

Definition ev_lookup (a : nat) (l : list (nat * ev_watcher)) : option ev_watcher :=
  match find (fun e => Nat.eqb (fst e) a) l with
  | Some e => Some (snd e)
  | None => None
  end.

Definition ev_remove (a : nat) (l : list (nat * ev_watcher)) : list (nat * ev_watcher) :=
  filter (fun e => negb (Nat.eqb (fst e) a)) l.

(** [ev_io_start], [ev_timer_start]: starting an active watcher does nothing. *)
Definition ev_start (a : nat) (ew : ev_watcher) : M unit :=
  modify (fun w =>
    match ev_lookup a (ev_loop w) with
    | Some _ => w
    | None => set_ev_loop (ev_loop w ++ [(a, ew)]) w
    end).

(** [ev_io_stop], [ev_timer_stop] *)
Definition ev_stop (a : nat) : M unit :=
  modify (fun w => set_ev_loop (ev_remove a (ev_loop w)) w).

Definition Backend_io_callback (fiber : VALUE) (w : World) : World :=
  Fiber_make_runnable fiber Qnil w.

Definition Backend_rw_io_callback (ctx : nat) (w : World) : World :=
  let c := rw_ctxs w ctx in
  let ref_count := ref_count c in
  let w := set_rw_ctxs (upd Nat.eqb (rw_ctxs w) ctx
                          (mk_rw_ctx (ref_count - 1) (ctx_fiber c))) w in
  if ref_count =? 0 then Fiber_make_runnable (ctx_fiber c) Qnil w else w.

Definition Backend_timer_callback (fiber : VALUE) (w : World) : World :=
  Fiber_make_runnable fiber Qnil w.

Definition Backend_timeout_callback (fiber resume_value : VALUE) (w : World) : World :=
  Fiber_make_runnable fiber resume_value w.

(** The event loop invokes the callback of an active watcher.  An io watcher
    stays active until it is stopped; a timer without repeat is stopped by
    libev before its callback runs. *)
Definition ev_invoke (a : nat) (w : World) : World :=
  match ev_lookup a (ev_loop w) with
  | None => w
  | Some (EvIo _ _ fiber) => Backend_io_callback fiber w
  | Some (EvRwIo _ _ ctx) => Backend_rw_io_callback ctx w
  | Some (EvTimer _ fiber) =>
      Backend_timer_callback fiber (set_ev_loop (ev_remove a (ev_loop w)) w)
  | Some (EvTimeout _ fiber resume_value) =>
      Backend_timeout_callback fiber resume_value
        (set_ev_loop (ev_remove a (ev_loop w)) w)
  end.

(** Modelled from the spec: [backend_base_switch_fiber] belongs to
    backend_common, not part of the sources at hand.  Seen from the fiber that
    switches away: events go by until the scheduler pops this fiber from the
    run queue, and the resume value queued with it is what the switch returns.
    A fiber that is never popped stays suspended. *)
Fixpoint switch_fiber_loop (evs : list sevent) (w : World) : result VALUE :=
  match evs with
  | [] => Hang (set_sched [] w)
  | Fire a :: evs' => switch_fiber_loop evs' (ev_invoke a w)
  | Schedule v :: evs' => switch_fiber_loop evs' (Fiber_make_runnable (cur_fiber w) v w)
  | Elapse d :: evs' => switch_fiber_loop evs' (set_clock (clock w + Z.max 0 d) w)
  | Run :: evs' =>
      match runqueue w with
      | (f, v) :: q =>
          if same_object f (cur_fiber w)
          then Done v (set_sched evs' (set_runqueue q w))
          else switch_fiber_loop evs' (set_runqueue q w)
      | [] => switch_fiber_loop evs' w
      end
  end.

Definition switch_fiber : M VALUE := fun w => switch_fiber_loop (sched w) w.

(** Modelled from the spec: [backend_await] (backend_common) is switch_fiber
    without self-scheduling. *)
Definition backend_await : M VALUE := switch_fiber.

(** Modelled from the spec: [backend_snooze] (backend_common) schedules the
    current fiber at the back, then switches. *)
Definition backend_snooze : M VALUE :=
  cur <- rb_fiber_current ;;
  modify (Fiber_make_runnable cur Qnil) ;;;
  switch_fiber.

(** ** Waiting for one fd *)

Definition libev_wait_fd_with_watcher (fd : Z) (watcher : libev_io) (events : Z)
  : M (VALUE * libev_io) :=
  watcher <- (if is_nil (io_fiber watcher)
              then cur <- rb_fiber_current ;;
                   ret (mk_libev_io (io_addr watcher) fd events cur)
              else ret watcher) ;;
  ev_start (io_addr watcher)
           (EvIo (io_fd watcher) (io_events watcher) (io_fiber watcher)) ;;;
  switchpoint_result <- backend_await ;;
  ev_stop (io_addr watcher) ;;;
  ret (switchpoint_result, watcher).

(** [struct libev_io watcher; ... watcher.fiber = Qnil;] *)
Definition new_libev_io : M libev_io :=
  a <- alloca 1 ;;
  ret (mk_libev_io a (-1) 0 Qnil).

Definition incr_op_count : M unit :=
  modify (fun w => set_op_count (op_count w + 1) w).

(** [e != EWOULDBLOCK && e != EAGAIN] *)
Definition not_would_block (e : Z) : bool :=
  negb (e =? EWOULDBLOCK) && negb (e =? EAGAIN).

(** [libev_wait_fd]: a wait with a watcher of its own. *)
Definition libev_wait_fd (fd events : Z) (raise_exception : bool) : M VALUE :=
  watcher <- new_libev_io ;;
  '(switchpoint_result, _) <- libev_wait_fd_with_watcher fd watcher events ;;
  (if raise_exception then RAISE_IF_EXCEPTION switchpoint_result else ret tt) ;;;
  ret switchpoint_result.

(** ** Backend_wait_io *)

Definition Backend_wait_io (io write : VALUE) : M VALUE :=
  let events := if RTEST write then EV_WRITE else EV_READ in
  let underlying_io := rb_ivar_get_io io in
  let io := if is_nil underlying_io then io else underlying_io in
  fd <- GetOpenFile io ;;
  incr_op_count ;;;
  libev_wait_fd fd events true.

(** ** Backend_write *)

Fixpoint write_loop (fuel : nat) (fd : Z) (watcher : libev_io)
         (buf : list byte) (left : Z) : M libev_io :=
  match fuel with
  | O => hang
  | S fuel' =>
      if 0 <? left then
        incr_op_count ;;;
        n <- sys_write fd buf left ;;
        if n <? 0 then
          e <- get_errno ;;
          if not_would_block e then rb_syserr_fail e
          else
            '(switchpoint_result, watcher) <-
               libev_wait_fd_with_watcher fd watcher EV_WRITE ;;
            if TEST_EXCEPTION switchpoint_result
            then RAISE_EXCEPTION switchpoint_result
            else write_loop fuel' fd watcher buf left
        else write_loop fuel' fd watcher (skipn (Z.to_nat n) buf) (left - n)
      else ret watcher
  end.

Definition snooze_unless_waited (fiber : VALUE) : M unit :=
  if is_nil fiber then
    switchpoint_result <- backend_snooze ;;
    if TEST_EXCEPTION switchpoint_result
    then RAISE_EXCEPTION switchpoint_result
    else ret tt
  else ret tt.

Definition Backend_write (io str : VALUE) : M VALUE :=
  buf <- StringValuePtr str ;;
  let len := RSTRING_LEN str in
  let left := len in
  let underlying_io := rb_ivar_get_io io in
  let io := if is_nil underlying_io then io else underlying_io in
  let io := rb_io_get_write_io io in
  fd <- GetOpenFile io ;;
  watcher <- new_libev_io ;;
  watcher <- with_kernel_fuel (fun fuel => write_loop fuel fd watcher buf left) ;;
  snooze_unless_waited (io_fiber watcher) ;;;
  ret (INT2NUM len).



(** ** Backend_read, Backend_recv *)

(** The buffer [str] is filled in place.  The embedding keeps [stored], the
    bytes of the string object from its start up to the end of what the reads
    have stored: the [buf_pos] bytes kept from the buffer handed in, then the
    data.  Where the C code moves [buf] or regrows the string, [stored] does
    not change; the capacity managed by [io_setstrbuf], [rb_str_resize] and
    [rb_str_modify_expand] has no counterpart. *)
Fixpoint read_loop (fuel : nat) (fd : Z) (watcher : libev_io)
         (dynamic_len read_to_eof : bool)
         (stored : list byte) (len total : Z) : M (list byte * Z) :=
  match fuel with
  | O => hang
  | S fuel' =>
      incr_op_count ;;;
      '(n, data) <- sys_read fd (len - total) ;;
      if n <? 0 then
        e <- get_errno ;;
        if not_would_block e then rb_syserr_fail e
        else
          '(switchpoint_result, watcher) <-
             libev_wait_fd_with_watcher fd watcher EV_READ ;;
          if TEST_EXCEPTION switchpoint_result
          then RAISE_EXCEPTION switchpoint_result
          else read_loop fuel' fd watcher dynamic_len read_to_eof stored len total
      else
        let stored := stored ++ data in
        switchpoint_result <- backend_snooze ;;
        if TEST_EXCEPTION switchpoint_result
        then RAISE_EXCEPTION switchpoint_result
        else if n =? 0 then ret (stored, total)              (* EOF *)
        else
          let total := total + n in
          if negb read_to_eof then ret (stored, total)
          else if total =? len then
            if negb dynamic_len then ret (stored, total)
            else read_loop fuel' fd watcher dynamic_len read_to_eof
                           stored (len + len) total
          else read_loop fuel' fd watcher dynamic_len read_to_eof stored len total
  end.

(** The write position: [pos] clamped into the buffer handed in, 0 without one. *)
Definition read_buf_pos (str : VALUE) (pos : Z) : Z :=
  if is_nil str then 0
  else
    let current_len := RSTRING_LEN str in
    if (pos <? 0) || (current_len <? pos) then current_len else pos.

Definition Backend_read (io str length to_eof pos : VALUE) : M VALUE :=
  let dynamic_len := is_nil length in
  len <- (if dynamic_len then ret 4096 else NUM2INT length) ;;
  buf_pos <- NUM2INT pos ;;
  let buf_pos := read_buf_pos str buf_pos in
  (* io_setstrbuf(&str, buf_pos + len) *)
  contents <- (if is_nil str then ret [] else StringValuePtr str) ;;
  let stored := firstn (Z.to_nat buf_pos) contents in
  let read_to_eof := RTEST to_eof in
  let underlying_io := rb_ivar_get_io io in
  let io := if is_nil underlying_io then io else underlying_io in
  fd <- GetOpenFile io ;;
  watcher <- new_libev_io ;;
  '(stored, total) <-
     with_kernel_fuel (fun fuel =>
       read_loop fuel fd watcher dynamic_len read_to_eof stored len 0) ;;
  (* io_set_read_length(str, buf_pos + total, shrinkable) *)
  let str := RString (firstn (Z.to_nat (buf_pos + total)) stored) in
  if total =? 0 then ret Qnil else ret str.

Definition Backend_recv (io str length pos : VALUE) : M VALUE :=
  Backend_read io str length Qnil pos.

(** ** Backend_read_loop, Backend_feed_loop *)

(** Modelled from the spec: [READ_LOOP_PREPARE_STR], [READ_LOOP_YIELD_STR]
    and [READ_LOOP_PASS_STR_TO_RECEIVER] are macros of backend_common.h, not
    part of the sources at hand.  The bytes of one read are handed on as a
    string: to the block of the call, or to [method] of [receiver]. *)
Definition READ_LOOP_PREPARE_STR (len : Z) : M unit :=
  if len <? 0 then raise ArgumentError else ret tt.   (* no string of negative size *)

Definition READ_LOOP_YIELD_STR (block : VALUE -> M VALUE) (data : list byte) : M unit :=
  block (RString data) ;;; ret tt.

Definition READ_LOOP_PASS_STR_TO_RECEIVER
           (rb_funcall : VALUE -> string -> VALUE -> M VALUE)
           (receiver : VALUE) (method_id : string) (data : list byte) : M unit :=
  rb_funcall receiver method_id (RString data) ;;; ret tt.

Definition SYM2ID (sym : VALUE) : M string :=
  match sym with Symbol name => ret name | _ => raise TypeError end.

(** The block of the call and the method of the receiver run in the fiber,
    as computations of the same kind as the backend's; they use up answers of
    the oracles and add none. *)
Fixpoint read_loop_rounds (fuel : nat) (block : VALUE -> M VALUE)
         (fd : Z) (watcher : libev_io) (len : Z) : M unit :=
  match fuel with
  | O => hang
  | S fuel' =>
      incr_op_count ;;;
      '(n, data) <- sys_read fd len ;;
      if n <? 0 then
        e <- get_errno ;;
        if not_would_block e then rb_syserr_fail e
        else
          '(switchpoint_result, watcher) <-
             libev_wait_fd_with_watcher fd watcher EV_READ ;;
          if TEST_EXCEPTION switchpoint_result
          then RAISE_EXCEPTION switchpoint_result
          else read_loop_rounds fuel' block fd watcher len
      else
        switchpoint_result <- backend_snooze ;;
        if TEST_EXCEPTION switchpoint_result
        then RAISE_EXCEPTION switchpoint_result
        else if n =? 0 then ret tt                            (* EOF *)
        else
          READ_LOOP_YIELD_STR block data ;;;
          read_loop_rounds fuel' block fd watcher len
  end.

Definition Backend_read_loop (block : VALUE -> M VALUE) (io maxlen : VALUE) : M VALUE :=
  len <- NUM2INT maxlen ;;
  let underlying_io := rb_ivar_get_io io in
  READ_LOOP_PREPARE_STR len ;;;
  let io := if is_nil underlying_io then io else underlying_io in
  fd <- GetOpenFile io ;;
  watcher <- new_libev_io ;;
  with_kernel_fuel (fun fuel => read_loop_rounds fuel block fd watcher len) ;;;
  ret io.

Fixpoint feed_loop_rounds (fuel : nat)
         (rb_funcall : VALUE -> string -> VALUE -> M VALUE)
         (receiver : VALUE) (method_id : string)
         (fd : Z) (watcher : libev_io) (len : Z) : M unit :=
  match fuel with
  | O => hang
  | S fuel' =>
      incr_op_count ;;;
      '(n, data) <- sys_read fd len ;;
      if n <? 0 then
        e <- get_errno ;;
        if not_would_block e then rb_syserr_fail e
        else
          '(switchpoint_result, watcher) <-
             libev_wait_fd_with_watcher fd watcher EV_READ ;;
          if TEST_EXCEPTION switchpoint_result
          then RAISE_EXCEPTION switchpoint_result
          else feed_loop_rounds fuel' rb_funcall receiver method_id fd watcher len
      else
        switchpoint_result <- backend_snooze ;;
        if TEST_EXCEPTION switchpoint_result
        then RAISE_EXCEPTION switchpoint_result
        else if n =? 0 then ret tt                            (* EOF *)
        else
          READ_LOOP_PASS_STR_TO_RECEIVER rb_funcall receiver method_id data ;;;
          feed_loop_rounds fuel' rb_funcall receiver method_id fd watcher len
  end.

Definition Backend_feed_loop (rb_funcall : VALUE -> string -> VALUE -> M VALUE)
           (io receiver method : VALUE) : M VALUE :=
  let len := 8192 in
  let underlying_io := rb_ivar_get_io io in
  method_id <- SYM2ID method ;;
  READ_LOOP_PREPARE_STR len ;;;
  let io := if is_nil underlying_io then io else underlying_io in
  fd <- GetOpenFile io ;;
  watcher <- new_libev_io ;;
  with_kernel_fuel (fun fuel =>
    feed_loop_rounds fuel rb_funcall receiver method_id fd watcher len) ;;;
  ret io.

(** ** Backend_writev *)

(** [writev(fd, iov, iovcnt)]: the kernel takes bytes from the vectors in
    order. *)
Definition sys_writev (fd : Z) (iov : list (list byte)) : M Z :=
  fun w =>
    match kernel w with
    | [] => Hang w
    | KErr e :: k => Done (-1) (set_errno e (set_kernel k w))
    | KOk a :: k =>
        let data := firstn (Z.to_nat (Z.max 0 a)) (List.concat iov) in
        Done (bytes_len data) (deliver fd data (set_kernel k w))
    end.

(** [for (i < argc) { iov[i].iov_base = StringValuePtr(str); ... }] *)
Fixpoint iov_of_argv (argv : list VALUE) : M (list (list byte)) :=
  match argv with
  | [] => ret []
  | str :: argv' =>
      base <- StringValuePtr str ;;
      iov <- iov_of_argv argv' ;;
      ret (base :: iov)
  end.

(** The inner [while (n > 0)]: [iov_ptr] and [iov_count] are the list of the
    vectors still to go.  The kernel never reports more bytes than the
    vectors hold, so the list does not run out while [n > 0]. *)
Fixpoint iov_advance (iov : list (list byte)) (n : Z) : list (list byte) :=
  match iov with
  | [] => []
  | v :: iov' =>
      if 0 <? n then
        if n <? bytes_len v then skipn (Z.to_nat n) v :: iov'
        else iov_advance iov' (n - bytes_len v)
      else iov
  end.

Fixpoint writev_loop (fuel : nat) (fd : Z) (watcher : libev_io)
         (iov : list (list byte)) (total_length total_written : Z)
  : M (libev_io * Z) :=
  match fuel with
  | O => hang
  | S fuel' =>
      incr_op_count ;;;
      n <- sys_writev fd iov ;;
      if n <? 0 then
        e <- get_errno ;;
        if not_would_block e then rb_syserr_fail e      (* after free(iov) *)
        else
          '(switchpoint_result, watcher) <-
             libev_wait_fd_with_watcher fd watcher EV_WRITE ;;
          if TEST_EXCEPTION switchpoint_result
          then RAISE_EXCEPTION switchpoint_result
          else writev_loop fuel' fd watcher iov total_length total_written
      else
        let total_written := total_written + n in
        if total_written =? total_length then ret (watcher, total_written)
        else writev_loop fuel' fd watcher (iov_advance iov n)
                         total_length total_written
  end.

Definition Backend_writev (io : VALUE) (argv : list VALUE) : M VALUE :=
  let underlying_io := rb_ivar_get_io io in
  let io := if is_nil underlying_io then io else underlying_io in
  let io := rb_io_get_write_io io in
  fd <- GetOpenFile io ;;
  watcher <- new_libev_io ;;
  iov <- iov_of_argv argv ;;
  let total_length := bytes_len (List.concat iov) in
  '(watcher, total_written) <-
     with_kernel_fuel (fun fuel => writev_loop fuel fd watcher iov total_length 0) ;;
  snooze_unless_waited (io_fiber watcher) ;;;
  ret (INT2NUM total_written).

(** [Backend_write_m(argc, argv, self)]: [argv] is the io, then the strings. *)
Definition Backend_write_m (argv : list VALUE) : M VALUE :=
  match argv with
  | [] | [_] =>
      raise (RuntimeError "(wrong number of arguments (expected 2 or more))")
  | [io; str] => Backend_write io str
  | io :: strs => Backend_writev io strs
  end.

(** ** Backend_accept, Backend_accept_loop *)

(** [accept(fd, &addr, &len)]: a new descriptor for the connection. *)
Definition sys_accept (fd : Z) : M Z :=
  fun w =>
    match kernel w with
    | [] => Hang w
    | KErr e :: k => Done (-1) (set_errno e (set_kernel k w))
    | KOk _ :: k =>
        Done (next_fd w) (set_next_fd (next_fd w + 1) (set_kernel k w))
    end.

(** [rb_obj_alloc(socket_class); MakeOpenFile(socket, fp); fp->fd = fd; ...]:
    the new socket is a T_FILE object around the descriptor. *)
Definition new_socket (socket_class : VALUE) (fd : Z) : VALUE := RFile fd None.

Fixpoint accept_rounds (fuel : nat) (fd : Z) (watcher : libev_io)
         (socket_class : VALUE) : M VALUE :=
  match fuel with
  | O => hang
  | S fuel' =>
      incr_op_count ;;;
      new_fd <- sys_accept fd ;;
      if new_fd <? 0 then
        e <- get_errno ;;
        if not_would_block e then rb_syserr_fail e
        else
          '(switchpoint_result, watcher) <-
             libev_wait_fd_with_watcher fd watcher EV_READ ;;
          if TEST_EXCEPTION switchpoint_result
          then RAISE_EXCEPTION switchpoint_result
          else accept_rounds fuel' fd watcher socket_class
      else
        switchpoint_result <- backend_snooze ;;
        if TEST_EXCEPTION switchpoint_result
        then sys_close new_fd ;;; RAISE_EXCEPTION switchpoint_result
        else ret (new_socket socket_class new_fd)
  end.

Definition Backend_accept (server_socket socket_class : VALUE) : M VALUE :=
  let underlying_sock := rb_ivar_get_io server_socket in
  let server_socket :=
    if is_nil underlying_sock then server_socket else underlying_sock in
  fd <- GetOpenFile server_socket ;;
  watcher <- new_libev_io ;;
  with_kernel_fuel (fun fuel => accept_rounds fuel fd watcher socket_class).

(** The [while (1)] of Backend_accept_loop has no exit but a raise. *)
Fixpoint accept_loop_rounds (fuel : nat) (block : VALUE -> M VALUE)
         (fd : Z) (watcher : libev_io) (socket_class : VALUE) : M VALUE :=
  match fuel with
  | O => hang
  | S fuel' =>
      incr_op_count ;;;
      new_fd <- sys_accept fd ;;
      if new_fd <? 0 then
        e <- get_errno ;;
        if not_would_block e then rb_syserr_fail e
        else
          '(switchpoint_result, watcher) <-
             libev_wait_fd_with_watcher fd watcher EV_READ ;;
          if TEST_EXCEPTION switchpoint_result
          then RAISE_EXCEPTION switchpoint_result
          else accept_loop_rounds fuel' block fd watcher socket_class
      else
        switchpoint_result <- backend_snooze ;;
        if TEST_EXCEPTION switchpoint_result
        then sys_close new_fd ;;; RAISE_EXCEPTION switchpoint_result
        else
          block (new_socket socket_class new_fd) ;;;           (* rb_yield(socket) *)
          accept_loop_rounds fuel' block fd watcher socket_class
  end.

Definition Backend_accept_loop (block : VALUE -> M VALUE)
           (server_socket socket_class : VALUE) : M VALUE :=
  let underlying_sock := rb_ivar_get_io server_socket in
  let server_socket :=
    if is_nil underlying_sock then server_socket else underlying_sock in
  fd <- GetOpenFile server_socket ;;
  watcher <- new_libev_io ;;
  with_kernel_fuel (fun fuel =>
    accept_loop_rounds fuel block fd watcher socket_class).

(** ** Backend_send *)

Fixpoint send_loop (fuel : nat) (fd : Z) (watcher : libev_io)
         (buf : list byte) (left flags_int : Z) : M libev_io :=
  match fuel with
  | O => hang
  | S fuel' =>
      if 0 <? left then
        incr_op_count ;;;
        n <- sys_send fd buf left flags_int ;;
        if n <? 0 then
          e <- get_errno ;;
          if not_would_block e then rb_syserr_fail e
          else
            '(switchpoint_result, watcher) <-
               libev_wait_fd_with_watcher fd watcher EV_WRITE ;;
            if TEST_EXCEPTION switchpoint_result
            then RAISE_EXCEPTION switchpoint_result
            else send_loop fuel' fd watcher buf left flags_int
        else send_loop fuel' fd watcher (skipn (Z.to_nat n) buf) (left - n) flags_int
      else ret watcher
  end.

Definition Backend_send (io str flags : VALUE) : M VALUE :=
  buf <- StringValuePtr str ;;
  let len := RSTRING_LEN str in
  let left := len in
  flags_int <- NUM2INT flags ;;
  let underlying_io := rb_ivar_get_io io in
  let io := if is_nil underlying_io then io else underlying_io in
  let io := rb_io_get_write_io io in
  fd <- GetOpenFile io ;;
  watcher <- new_libev_io ;;
  watcher <- with_kernel_fuel (fun fuel =>
               send_loop fuel fd watcher buf left flags_int) ;;
  snooze_unless_waited (io_fiber watcher) ;;;
  ret (INT2NUM len).

(** ** Backend_connect *)

Definition Backend_connect (sock host port : VALUE) : M VALUE :=
  _ <- StringValuePtr host ;;                      (* StringValueCStr(host) *)
  let underlying_sock := rb_ivar_get_io sock in
  let sock := if is_nil underlying_sock then sock else underlying_sock in
  fd <- GetOpenFile sock ;;
  watcher <- new_libev_io ;;
  _ <- NUM2INT port ;;                             (* htons(NUM2INT(port)) *)
  incr_op_count ;;;
  result <- sys_connect fd ;;
  (if result <? 0 then
     e <- get_errno ;;
     if negb (e =? EINPROGRESS) then rb_syserr_fail e
     else
       '(switchpoint_result, watcher) <-
          libev_wait_fd_with_watcher fd watcher EV_WRITE ;;
       if TEST_EXCEPTION switchpoint_result
       then RAISE_EXCEPTION switchpoint_result
       else ret tt
   else
     switchpoint_result <- backend_snooze ;;
     if TEST_EXCEPTION switchpoint_result
     then RAISE_EXCEPTION switchpoint_result
     else ret tt) ;;;
  ret sock.

(** ** Waiting for two fds: the RW watcher *)

(** [struct libev_rw_io] at address [a]: the ev_io of [r] is watcher [a], the
    ev_io of [w] is watcher [a + 1], and [ctx] is [rw_ctxs a].  Both
    [r.ctx] and [w.ctx] point to that one [ctx]. *)
Definition rw_r (a : nat) : nat := a.
Definition rw_w (a : nat) : nat := (a + 1)%nat.

Definition set_rw_ctx (a : nat) (c : libev_rw_ctx) : M unit :=
  modify (fun w => set_rw_ctxs (upd Nat.eqb (rw_ctxs w) a c) w).

Definition get_rw_ctx (a : nat) : M libev_rw_ctx :=
  get (fun w => rw_ctxs w a).

Definition libev_wait_rw_fd_with_watcher (r_fd w_fd : Z) (watcher : nat) : M VALUE :=
  ctx <- get_rw_ctx watcher ;;
  cur <- rb_fiber_current ;;
  let fiber := if is_nil (ctx_fiber ctx) then cur else ctx_fiber ctx in
  set_rw_ctx watcher (mk_rw_ctx 0 fiber) ;;;
  (if negb (r_fd =? -1) then
     ev_start (rw_r watcher) (EvRwIo r_fd EV_READ watcher) ;;;
     ctx <- get_rw_ctx watcher ;;
     set_rw_ctx watcher (mk_rw_ctx (ref_count ctx + 1) (ctx_fiber ctx))
   else ret tt) ;;;
  (if negb (w_fd =? -1) then
     ev_start (rw_w watcher) (EvRwIo w_fd EV_WRITE watcher) ;;;
     ctx <- get_rw_ctx watcher ;;
     set_rw_ctx watcher (mk_rw_ctx (ref_count ctx + 1) (ctx_fiber ctx))
   else ret tt) ;;;
  switchpoint_result <- backend_await ;;
  (if negb (r_fd =? -1) then ev_stop (rw_r watcher) else ret tt) ;;;
  (if negb (w_fd =? -1) then ev_stop (rw_w watcher) else ret tt) ;;;
  ret switchpoint_result.

(** [struct libev_rw_io watcher; ... watcher.ctx.fiber = Qnil;] *)
Definition new_libev_rw_io : M nat :=
  a <- alloca 2 ;;
  ctx <- get_rw_ctx a ;;
  set_rw_ctx a (mk_rw_ctx (ref_count ctx) Qnil) ;;;
  ret a.

(** ** Backend_splice, Backend_splice_to_eof (POLYPHONY_LINUX) *)

Fixpoint splice_loop (fuel : nat) (src_fd dest_fd : Z) (maxlen : VALUE)
         (watcher : nat) : M Z :=
  match fuel with
  | O => hang
  | S fuel' =>
      incr_op_count ;;;
      maxlen_int <- NUM2INT maxlen ;;
      len <- sys_splice src_fd dest_fd maxlen_int ;;
      if len <? 0 then
        e <- get_errno ;;
        if not_would_block e then rb_syserr_fail e
        else
          switchpoint_result <-
            libev_wait_rw_fd_with_watcher src_fd dest_fd watcher ;;
          if TEST_EXCEPTION switchpoint_result
          then RAISE_EXCEPTION switchpoint_result
          else splice_loop fuel' src_fd dest_fd maxlen watcher
      else ret len
  end.

Definition Backend_splice (src dest maxlen : VALUE) : M VALUE :=
  let underlying_io := rb_ivar_get_io src in
  let src := if is_nil underlying_io then src else underlying_io in
  src_fd <- GetOpenFile src ;;
  let underlying_io := rb_ivar_get_io dest in
  let dest := if is_nil underlying_io then dest else underlying_io in
  let dest := rb_io_get_write_io dest in
  dest_fd <- GetOpenFile dest ;;
  watcher <- new_libev_rw_io ;;
  len <- with_kernel_fuel (fun fuel =>
           splice_loop fuel src_fd dest_fd maxlen watcher) ;;
  ctx <- get_rw_ctx watcher ;;
  snooze_unless_waited (ctx_fiber ctx) ;;;
  ret (INT2NUM len).

Fixpoint splice_to_eof_loop (fuel : nat) (src_fd dest_fd : Z) (maxlen : VALUE)
         (watcher : nat) (total : Z) : M Z :=
  match fuel with
  | O => hang
  | S fuel' =>
      incr_op_count ;;;
      maxlen_int <- NUM2INT maxlen ;;
      len <- sys_splice src_fd dest_fd maxlen_int ;;
      if len <? 0 then
        e <- get_errno ;;
        if not_would_block e then rb_syserr_fail e
        else
          switchpoint_result <-
            libev_wait_rw_fd_with_watcher src_fd dest_fd watcher ;;
          if TEST_EXCEPTION switchpoint_result
          then RAISE_EXCEPTION switchpoint_result
          else splice_to_eof_loop fuel' src_fd dest_fd maxlen watcher total
      else if len =? 0 then ret total
      else splice_to_eof_loop fuel' src_fd dest_fd maxlen watcher (total + len)
  end.

Definition Backend_splice_to_eof (src dest maxlen : VALUE) : M VALUE :=
  let underlying_io := rb_ivar_get_io src in
  let src := if is_nil underlying_io then src else underlying_io in
  src_fd <- GetOpenFile src ;;
  let underlying_io := rb_ivar_get_io dest in
  let dest := if is_nil underlying_io then dest else underlying_io in
  let dest := rb_io_get_write_io dest in
  dest_fd <- GetOpenFile dest ;;
  watcher <- new_libev_rw_io ;;
  total <- with_kernel_fuel (fun fuel =>
             splice_to_eof_loop fuel src_fd dest_fd maxlen watcher 0) ;;
  ctx <- get_rw_ctx watcher ;;
  snooze_unless_waited (ctx_fiber ctx) ;;;
  ret (INT2NUM total).

(** ** Backend_splice_chunks (POLYPHONY_LINUX) *)

(** Where the C code leaves the straight path: [goto error] and
    [goto syscallerror]. *)
Inductive ctl (A : Type) : Type :=
| Next (a : A)
| GotoError (result : VALUE)
| GotoSyscallerror (err : Z).
Arguments Next {A} a.
Arguments GotoError {A} result.
Arguments GotoSyscallerror {A} err.

Definition bindc {A B : Type} (m : M (ctl A)) (k : A -> M (ctl B)) : M (ctl B) :=
  x <- m ;;
  match x with
  | Next a => k a
  | GotoError r => ret (GotoError r)
  | GotoSyscallerror e => ret (GotoSyscallerror e)
  end.

Notation "x <-- m ;; k" := (bindc m (fun x => k))
  (at level 61, m at next level, right associativity) : backend_scope.
Notation "' pat <-- m ;; k" := (bindc m (fun x => match x with pat => k end))
  (at level 61, pat pattern, m at next level, right associativity) : backend_scope.

(** [if (err == -1) goto error; else if (err) goto syscallerror;] where
    [err] is the variable tested and [outer_err] the one that the label
    [syscallerror] reads. *)
Definition check_err (err outer_err : Z) (result : VALUE) : M (ctl unit) :=
  if err =? -1 then ret (GotoError result)
  else if negb (err =? 0) then ret (GotoSyscallerror outer_err)
  else ret (Next tt).

Definition RSTRING_PTR (str : VALUE) : list byte :=
  match str with RString bytes => bytes | _ => [] end.

(** The out-parameter [*result] is passed in and handed back. *)
Fixpoint splice_chunks_write_loop (fuel : nat) (fd : Z) (buf : list byte) (left : Z)
         (watcher : nat) (result : VALUE) : M (Z * VALUE) :=
  match fuel with
  | O => hang
  | S fuel' =>
      if 0 <? left then
        incr_op_count ;;;
        n <- sys_write fd buf left ;;
        if n <? 0 then
          err <- get_errno ;;
          if not_would_block err then ret (err, result)
          else
            result <- libev_wait_rw_fd_with_watcher (-1) fd watcher ;;
            if TEST_EXCEPTION result then ret (-1, result)
            else splice_chunks_write_loop fuel' fd buf left watcher result
        else splice_chunks_write_loop fuel' fd (skipn (Z.to_nat n) buf) (left - n)
                                      watcher result
      else ret (0, result)
  end.

Definition splice_chunks_write (fd : Z) (str : VALUE) (watcher : nat) (result : VALUE)
  : M (Z * VALUE) :=
  let buf := RSTRING_PTR str in
  let len := RSTRING_LEN str in
  let left := len in
  with_kernel_fuel (fun fuel =>
    splice_chunks_write_loop fuel fd buf left watcher result).

(** The out-parameters [*result] and [*chunk_len] are passed in and handed
    back with the return value: [(return value, result, chunk_len)]. *)
Fixpoint splice_chunks_splice_loop (fuel : nat) (src_fd dest_fd maxlen : Z)
         (watcher : nat) (result : VALUE) : M (Z * VALUE * Z) :=
  match fuel with
  | O => hang
  | S fuel' =>
      chunk_len <- sys_splice src_fd dest_fd maxlen ;;
      if 0 <=? chunk_len then ret (0, result, chunk_len)
      else
        err <- get_errno ;;
        if not_would_block err then ret (err, result, chunk_len)
        else
          result <- libev_wait_rw_fd_with_watcher src_fd dest_fd watcher ;;
          if TEST_EXCEPTION result then ret (-1, result, chunk_len)
          else splice_chunks_splice_loop fuel' src_fd dest_fd maxlen watcher result
  end.

Definition splice_chunks_splice (src_fd dest_fd maxlen : Z) (watcher : nat)
           (result : VALUE) : M (Z * VALUE * Z) :=
  incr_op_count ;;;
  with_kernel_fuel (fun fuel =>
    splice_chunks_splice_loop fuel src_fd dest_fd maxlen watcher result).

(** [(TYPE(f) == T_STRING) ? f : rb_funcall(f, ID_call, 1, chunk_len_value)] *)
Definition framing_str (f chunk_len_value : VALUE) : M VALUE :=
  match f with
  | RString _ => ret f
  | RProc call =>
      match chunk_len_value with
      | Fixnum n => ret (RString (call n))
      | _ => raise TypeError
      end
  | _ => raise TypeError       (* no method `call' *)
  end.

(** [while (left > 0) { ... splice(pipefd[0] -> dest, left) ... left -= len; }];
    the loop assigns the outer [err]. *)
Fixpoint drain_loop (fuel : nat) (pipe_r dest_fd : Z) (watcher : nat)
         (left err : Z) (result : VALUE) : M (ctl (Z * VALUE)) :=
  match fuel with
  | O => hang
  | S fuel' =>
      if 0 <? left then
        '(err, result, len) <-
           splice_chunks_splice pipe_r dest_fd left watcher result ;;
        _ <-- check_err err err result ;;
        drain_loop fuel' pipe_r dest_fd watcher (left - len) err result
      else ret (Next (err, result))
  end.

Fixpoint chunks_loop (fuel : nat) (src_fd dest_fd pipe_r pipe_w maxlen : Z)
         (watcher : nat) (chunk_prefix chunk_postfix : VALUE)
         (total err : Z) (result : VALUE) : M (ctl (Z * Z * VALUE)) :=
  match fuel with
  | O => hang
  | S fuel' =>
      '(err, result, chunk_len) <-
         splice_chunks_splice src_fd pipe_w maxlen watcher result ;;
      _ <-- check_err err err result ;;
      if chunk_len =? 0 then ret (Next (total, err, result))
      else
        let total := total + chunk_len in
        let chunk_len_value := INT2NUM chunk_len in
        result <--
          (if negb (is_nil chunk_prefix) then
             str <- framing_str chunk_prefix chunk_len_value ;;
             '(err', result) <- splice_chunks_write dest_fd str watcher result ;;
             _ <-- check_err err' err result ;;     (* [int err] shadows err *)
             ret (Next result)
           else ret (Next result)) ;;
        let left := chunk_len in
        '(err, result) <--
          with_kernel_fuel (fun fuel =>
            drain_loop fuel pipe_r dest_fd watcher left err result) ;;
        result <--
          (if negb (is_nil chunk_postfix) then
             str <- framing_str chunk_postfix chunk_len_value ;;
             '(err', result) <- splice_chunks_write dest_fd str watcher result ;;
             _ <-- check_err err' err result ;;     (* [int err] shadows err *)
             ret (Next result)
           else ret (Next result)) ;;
        chunks_loop fuel' src_fd dest_fd pipe_r pipe_w maxlen watcher
                    chunk_prefix chunk_postfix total err result
  end.

(** From [pipe(pipefd)] to the last statement before the pipe is closed. *)
Definition splice_chunks_body (src_fd dest_fd maxlen : Z) (watcher : nat)
           (prefix postfix chunk_prefix chunk_postfix : VALUE)
           (pipefd : Z * Z) : M (ctl Z) :=
  let total := 0 in
  let err := 0 in
  let result := Qnil in
  '(err, result) <--
    (if negb (is_nil prefix) then
       '(err, result) <- splice_chunks_write dest_fd prefix watcher result ;;
       _ <-- check_err err err result ;;
       ret (Next (err, result))
     else ret (Next (err, result))) ;;
  '(total, err, result) <--
    with_kernel_fuel (fun fuel =>
      chunks_loop fuel src_fd dest_fd (fst pipefd) (snd pipefd) maxlen watcher
                  chunk_prefix chunk_postfix total err result) ;;
  result <--
    (if negb (is_nil postfix) then
       '(err', result) <- splice_chunks_write dest_fd postfix watcher result ;;
       _ <-- check_err err' err result ;;           (* [int err] shadows err *)
       ret (Next result)
     else ret (Next result)) ;;
  ctx <- get_rw_ctx watcher ;;
  if is_nil (ctx_fiber ctx) then
    result <- backend_snooze ;;
    if TEST_EXCEPTION result then ret (GotoError result) else ret (Next total)
  else ret (Next total).

Definition close_pipe (pipefd : Z * Z) : M unit :=
  (if negb (fst pipefd =? -1) then sys_close (fst pipefd) else ret tt) ;;;
  (if negb (snd pipefd =? -1) then sys_close (snd pipefd) else ret tt).

Definition Backend_splice_chunks
           (src dest prefix postfix chunk_prefix chunk_postfix chunk_size : VALUE)
  : M VALUE :=
  let underlying_io := rb_ivar_get_io src in
  let src := if is_nil underlying_io then src else underlying_io in
  src_fd <- GetOpenFile src ;;
  let underlying_io := rb_ivar_get_io dest in
  let dest := if is_nil underlying_io then dest else underlying_io in
  let dest := rb_io_get_write_io dest in
  dest_fd <- GetOpenFile dest ;;
  watcher <- new_libev_rw_io ;;
  maxlen <- NUM2INT chunk_size ;;
  '(ret_pipe, pipefd) <- sys_pipe ;;
  exit <- (if ret_pipe =? -1 then
             err <- get_errno ;;
             ret (GotoSyscallerror err)
           else
             (* fcntl(pipefd[0], F_SETFL, O_NONBLOCK); fcntl(pipefd[1], ...) *)
             splice_chunks_body src_fd dest_fd maxlen watcher
                                prefix postfix chunk_prefix chunk_postfix pipefd) ;;
  match exit with
  | Next total =>
      close_pipe pipefd ;;;
      ret (INT2NUM total)
  | GotoSyscallerror err =>
      close_pipe pipefd ;;;
      rb_syserr_fail err
  | GotoError result =>
      close_pipe pipefd ;;;
      RAISE_EXCEPTION result
  end.

(** ** Backend_splice, Backend_splice_to_eof without splice(2) *)

(** The variants compiled where POLYPHONY_LINUX is not defined: the bytes go
    through a buffer of [maxlen] bytes, with one [libev_io] watcher for the
    waits on the source and on the destination. *)
Module Portable.

(** [rb_str_new(0, len)]: the buffer; a negative size is refused. *)
Definition rb_str_new (len : Z) : M unit :=
  if len <? 0 then raise ArgumentError else ret tt.

(** The first [while (1)]: one successful read. *)
Fixpoint splice_read_loop (fuel : nat) (src_fd : Z) (watcher : libev_io) (len : Z)
  : M (libev_io * (Z * list byte)) :=
  match fuel with
  | O => hang
  | S fuel' =>
      incr_op_count ;;;
      '(n, data) <- sys_read src_fd len ;;
      if n <? 0 then
        e <- get_errno ;;
        if not_would_block e then rb_syserr_fail e
        else
          '(switchpoint_result, watcher) <-
             libev_wait_fd_with_watcher src_fd watcher EV_READ ;;
          if TEST_EXCEPTION switchpoint_result
          then RAISE_EXCEPTION switchpoint_result
          else splice_read_loop fuel' src_fd watcher len
      else ret (watcher, (n, data))
  end.

(** [while (left > 0)]: what was read is written out. *)
Fixpoint splice_write_loop (fuel : nat) (dest_fd : Z) (watcher : libev_io)
         (buf : list byte) (left : Z) : M libev_io :=
  match fuel with
  | O => hang
  | S fuel' =>
      if 0 <? left then
        incr_op_count ;;;
        n <- sys_write dest_fd buf left ;;
        if n <? 0 then
          e <- get_errno ;;
          if not_would_block e then rb_syserr_fail e
          else
            '(switchpoint_result, watcher) <-
               libev_wait_fd_with_watcher dest_fd watcher EV_WRITE ;;
            if TEST_EXCEPTION switchpoint_result
            then RAISE_EXCEPTION switchpoint_result
            else splice_write_loop fuel' dest_fd watcher buf left
        else splice_write_loop fuel' dest_fd watcher (skipn (Z.to_nat n) buf) (left - n)
      else ret watcher
  end.

Definition Backend_splice (src dest maxlen : VALUE) : M VALUE :=
  len <- NUM2INT maxlen ;;
  rb_str_new len ;;;
  let underlying_io := rb_ivar_get_io src in
  let src := if is_nil underlying_io then src else underlying_io in
  src_fd <- GetOpenFile src ;;
  let underlying_io := rb_ivar_get_io dest in
  let dest := if is_nil underlying_io then dest else underlying_io in
  let dest := rb_io_get_write_io dest in
  dest_fd <- GetOpenFile dest ;;
  watcher <- new_libev_io ;;
  '(watcher, (n, buf)) <-
     with_kernel_fuel (fun fuel => splice_read_loop fuel src_fd watcher len) ;;
  let total := n in
  let left := n in
  watcher <- with_kernel_fuel (fun fuel =>
               splice_write_loop fuel dest_fd watcher buf left) ;;
  snooze_unless_waited (io_fiber watcher) ;;;
  ret (INT2NUM total).

(** The outer [while (1)]: a read, then the writes of what was read; a read
    of nothing is [goto done]. *)
Fixpoint splice_to_eof_loop (fuel : nat) (src_fd dest_fd : Z) (watcher : libev_io)
         (len total : Z) : M (libev_io * Z) :=
  match fuel with
  | O => hang
  | S fuel' =>
      '(watcher, (n, buf)) <-
         with_kernel_fuel (fun fuel => splice_read_loop fuel src_fd watcher len) ;;
      if n =? 0 then ret (watcher, total)
      else
        let total := total + n in
        let left := n in
        watcher <- with_kernel_fuel (fun fuel =>
                     splice_write_loop fuel dest_fd watcher buf left) ;;
        splice_to_eof_loop fuel' src_fd dest_fd watcher len total
  end.

Definition Backend_splice_to_eof (src dest maxlen : VALUE) : M VALUE :=
  len <- NUM2INT maxlen ;;
  rb_str_new len ;;;
  let underlying_io := rb_ivar_get_io src in
  let src := if is_nil underlying_io then src else underlying_io in
  src_fd <- GetOpenFile src ;;
  let underlying_io := rb_ivar_get_io dest in
  let dest := if is_nil underlying_io then dest else underlying_io in
  let dest := rb_io_get_write_io dest in
  dest_fd <- GetOpenFile dest ;;
  watcher <- new_libev_io ;;
  '(watcher, total) <-
     with_kernel_fuel (fun fuel =>
       splice_to_eof_loop fuel src_fd dest_fd watcher len 0) ;;
  snooze_unless_waited (io_fiber watcher) ;;;
  ret (INT2NUM total).

End Portable.

(** ** Timers: Backend_sleep, Backend_timer_loop *)

(** Time is counted in clock ticks; the rounding of [double] arithmetic has
    no counterpart. *)
Definition NUM2DBL (v : VALUE) : M Z :=
  match v with Fixnum n => ret n | _ => raise TypeError end.

Definition current_time : M Z := get clock.

Definition Backend_sleep (duration : VALUE) : M VALUE :=
  watcher <- alloca 1 ;;
  fiber <- rb_fiber_current ;;
  after <- NUM2DBL duration ;;
  ev_start watcher (EvTimer after fiber) ;;;
  incr_op_count ;;;
  switchpoint_result <- backend_await ;;
  ev_stop watcher ;;;
  RAISE_IF_EXCEPTION switchpoint_result ;;;
  ret switchpoint_result.

(** [do { next_time += interval_d; } while (next_time <= now);] *)
Fixpoint advance_next_time (fuel : nat) (interval_d now next_time : Z) : option Z :=
  match fuel with
  | O => None
  | S fuel' =>
      let next_time := next_time + interval_d in
      if next_time <=? now
      then advance_next_time fuel' interval_d now next_time
      else Some next_time
  end.

(** With a positive interval the do-while takes at most [now - next_time + 1]
    rounds; with any other interval it either stops after one round or spins
    for ever. *)
Definition advance_fuel (now next_time : Z) : nat :=
  S (Z.to_nat (now - next_time)).

(** One round of the [while (1)] of Backend_timer_loop; [yield] is the block
    of the caller.  The round hands [next_time] to the next one. *)
Definition timer_loop_iteration (yield : M VALUE) (watcher : nat) (fiber : VALUE)
           (interval_d next_time : Z) : M Z :=
  now <- current_time ;;
  next_time <- (if next_time =? 0
                then t <- current_time ;; ret (t + interval_d)
                else ret next_time) ;;
  let sleep_duration := next_time - now in
  let sleep_duration := if sleep_duration <? 0 then 0 else sleep_duration in
  ev_start watcher (EvTimer sleep_duration fiber) ;;;
  incr_op_count ;;;
  switchpoint_result <- backend_await ;;
  ev_stop watcher ;;;
  RAISE_IF_EXCEPTION switchpoint_result ;;;
  _ <- yield ;;                                          (* rb_yield(Qnil) *)
  match advance_next_time (advance_fuel now next_time) interval_d now next_time with
  | Some next_time => ret next_time
  | None => hang
  end.

Fixpoint timer_loop (fuel : nat) (yield : M VALUE) (watcher : nat) (fiber : VALUE)
         (interval_d next_time : Z) : M Empty_set :=
  match fuel with
  | O => hang
  | S fuel' =>
      next_time <- timer_loop_iteration yield watcher fiber interval_d next_time ;;
      timer_loop fuel' yield watcher fiber interval_d next_time
  end.

(** Every round awaits, so the loop can run for at most as many rounds as
    there are events to come.  The function is [noreturn]. *)
Definition Backend_timer_loop (interval : VALUE) (yield : M VALUE) : M Empty_set :=
  interval_d <- NUM2DBL interval ;;
  watcher <- alloca 1 ;;
  fiber <- rb_fiber_current ;;
  fun w => timer_loop (S (List.length (sched w))) yield watcher fiber interval_d 0 w.

(** ** Backend_timeout *)

(** [rb_ensure(b_proc, ..., e_proc, ...)]: [e_proc] runs whether [b_proc]
    returns or raises. *)
Definition rb_ensure {A : Type} (b_proc : M A) (e_proc : M unit) : M A :=
  fun w =>
    match b_proc w with
    | Done a w' =>
        match e_proc w' with
        | Done _ w'' => Done a w''
        | Raised e w'' => Raised e w''
        | Hang w'' => Hang w''
        end
    | Raised e w' =>
        match e_proc w' with
        | Done _ w'' => Raised e w''
        | Raised e' w'' => Raised e' w''
        | Hang w'' => Hang w''
        end
    | Hang w' => Hang w'
    end.

(** Modelled from the spec: [Backend_timeout_ensure_safe] belongs to
    backend_common, not part of the sources at hand.  It runs the protected
    block and hands back the result of the block: the value it returned or
    the exception object it raised.  Raises that carry no object of this
    embedding can not be the sentinel and keep propagating. *)
Definition Backend_timeout_ensure_safe (block : M VALUE) : M VALUE :=
  fun w =>
    match block w with
    | Raised (Reraised v) w' => Done v w'
    | r => r
    end.

Definition Backend_timeout_ensure (watcher : nat) : M unit :=
  ev_stop watcher.

(** Modelled from the spec: [backend_timeout_exception] belongs to
    backend_common, not part of the sources at hand.  It builds a fresh
    exception from the constructor given to timeout. *)
Definition backend_timeout_exception (exception : VALUE) : M VALUE :=
  id <- new_object_id ;;
  ret (RException id exception).

(** [rb_scan_args(argc, argv, "21", &duration, &exception, &move_on_value)] *)
Definition scan_args_21 (argv : list VALUE) : M (VALUE * VALUE * VALUE) :=
  match argv with
  | [duration; exception] => ret (duration, exception, Qnil)
  | [duration; exception; move_on_value] => ret (duration, exception, move_on_value)
  | _ => raise ArgumentError
  end.

Definition Backend_timeout (argv : list VALUE) (block : M VALUE) : M VALUE :=
  '(duration, exception, move_on_value) <- scan_args_21 argv ;;
  id <- new_object_id ;;
  let timeout := RException id cTimeoutException in
  watcher <- alloca 1 ;;
  fiber <- rb_fiber_current ;;
  let resume_value := timeout in
  after <- NUM2DBL duration ;;
  ev_start watcher (EvTimeout after fiber resume_value) ;;;
  incr_op_count ;;;
  result <- rb_ensure (Backend_timeout_ensure_safe block)
                      (Backend_timeout_ensure watcher) ;;
  if same_object result timeout then
    if is_nil exception then ret move_on_value
    else
      e <- backend_timeout_exception exception ;;
      RAISE_EXCEPTION e
  else
    RAISE_IF_EXCEPTION result ;;;
    ret result.

(** ** Backend_chain *)

Definition SYM_send : VALUE := Symbol "send".
Definition SYM_splice : VALUE := Symbol "splice".
Definition SYM_write : VALUE := Symbol "write".

(** [a == b] for two symbols. *)
Definition same_symbol (a b : VALUE) : bool :=
  match a, b with
  | Symbol x, Symbol y => String.eqb x y
  | _, _ => false
  end.

Definition RARRAY_LEN (ary : VALUE) : Z :=
  match ary with RArray l => Z.of_nat (List.length l) | _ => 0 end.

Definition RARRAY_AREF (ary : VALUE) (i : nat) : VALUE :=
  match ary with RArray l => nth i l Qnil | _ => Qnil end.

Definition invalid_op_msg : string := "Invalid op specified or bad op arity".

Definition chain_op (op : VALUE) : M VALUE :=
  let op_type := RARRAY_AREF op 0 in
  let op_len := RARRAY_LEN op in
  if same_symbol op_type SYM_write && (op_len =? 3) then
    Backend_write (RARRAY_AREF op 1) (RARRAY_AREF op 2)
  else if same_symbol op_type SYM_send && (op_len =? 4) then
    Backend_send (RARRAY_AREF op 1) (RARRAY_AREF op 2) (RARRAY_AREF op 3)
  else if same_symbol op_type SYM_splice && (op_len =? 4) then
    Backend_splice (RARRAY_AREF op 1) (RARRAY_AREF op 2) (RARRAY_AREF op 3)
  else raise (RuntimeError invalid_op_msg).

(** [for (int i = 0; i < argc; i++) { ... result = ...; }] *)
Fixpoint chain_loop (argv : list VALUE) (result : VALUE) : M VALUE :=
  match argv with
  | [] => ret result
  | op :: rest =>
      result <- chain_op op ;;
      chain_loop rest result
  end.

Definition Backend_chain (argv : list VALUE) : M VALUE :=
  let result := Qnil in
  if (Z.of_nat (List.length argv) =? 0) then ret result
  else chain_loop argv result.

(** * Vocabulary of the statements *)

(** ** Postconditions of calls that return *)

Definition returns {A : Type} (m : M A) (w : World) (Q : A -> World -> Prop) : Prop :=
  forall a w', m w = Done a w' -> Q a w'.

Definition world_of {A : Type} (r : result A) : World :=
  match r with Done _ w | Raised _ w | Hang w => w end.

(** The part of the world that belongs to the kernel and to the allocator. *)
Definition same_os (w w' : World) : Prop :=
  kernel w' = kernel w /\ errno w' = errno w /\
  inbuf w' = inbuf w /\ outbuf w' = outbuf w /\ pipes w' = pipes w /\
  next_fd w' = next_fd w /\ closed w' = closed w /\
  op_count w' = op_count w /\ cur_fiber w' = cur_fiber w /\
  next_addr w' = next_addr w /\ next_obj w' = next_obj w.

(** An initial world: nothing pending, nothing active. *)
Definition world0 : World :=
  mkWorld [] [] 0 (fun _ => []) (fun _ => []) [] 3 [] 0 0 [] []
          (fun _ => mk_rw_ctx 0 Qnil) (RFiber 0) 0 0.

Definition bytes_of (s : string) : list byte := list_byte_of_string s.

(** ** Which descriptor a call works on *)

Definition underlying_of (io : VALUE) : VALUE :=
  if is_nil (rb_ivar_get_io io) then io else rb_ivar_get_io io.

Definition fd_for_reading (io : VALUE) : option Z :=
  match underlying_of io with RFile fd _ => Some fd | _ => None end.

Definition fd_for_writing (io : VALUE) : option Z :=
  match rb_io_get_write_io (underlying_of io) with
  | RFile fd _ => Some fd
  | _ => None
  end.

(** A sequence of short writes: how many bytes the kernel takes each time. *)
Definition short_writes (caps : list Z) : list kanswer := map KOk caps.

Definition total_of (caps : list Z) : Z := fold_right Z.add 0 caps.

(** The fiber can be resumed by the next [Run]: it is a fiber and nothing
    else is queued in front of it. *)
Definition resumable (w : World) : Prop :=
  runqueue w = [] /\ exists i, cur_fiber w = RFiber i.

(** ** Example runs *)

Definition hello : list byte := bytes_of "hello".

(** fd 6 is written to: the kernel takes two bytes, then would block, then
    takes the rest; the watcher fires and the fiber is resumed. *)
Definition write_run : World :=
  set_sched [Fire 0%nat; Run] (set_kernel [KOk 2; KErr EAGAIN; KOk 7] world0).

(** Two short writes and the snooze that follows a write without a wait. *)
Definition short_write_run : World :=
  set_sched [Run] (set_kernel (short_writes [2; 3]) world0).

(** ** Well-typed arguments *)

Definition is_int (v : VALUE) : Prop :=
  exists n, v = Fixnum n /\ INT_MIN <= n <= INT_MAX.

Definition is_string (v : VALUE) : Prop := exists s, v = RString s.

Definition nil_or (P : VALUE -> Prop) (v : VALUE) : Prop := v = Qnil \/ P v.

(** ** Outcomes of a failing system call *)

(** The call raises [SystemCallError] for [e]; the kernel is not asked again
    and the fiber is not switched out on the way. *)
Definition surfaces (r : result VALUE) (e : Z) (w : World) (k : list kanswer) : Prop :=
  exists w', r = Raised (SystemCallError e) w' /\
             kernel w' = k /\ sched w' = sched w /\ ev_loop w' = ev_loop w /\
             op_count w' = op_count w + 1.

(** The call does not come back: the fiber stays suspended in its await, with
    an io watcher for [events] on [fd] active in the event loop. *)
Definition suspended_on (r : result VALUE) (fd events : Z) (w : World) : Prop :=
  exists w', r = Hang w' /\
             ev_lookup (next_addr w) (ev_loop w') = Some (EvIo fd events (cur_fiber w)).

(** The same for the two watchers of the RW primitive. *)
Definition suspended_on_rw (r : result VALUE) (r_fd w_fd : Z) (w : World) : Prop :=
  exists w', r = Hang w' /\
             ev_lookup (rw_r (next_addr w)) (ev_loop w')
               = Some (EvRwIo r_fd EV_READ (next_addr w)) /\
             ev_lookup (rw_w (next_addr w)) (ev_loop w')
               = Some (EvRwIo w_fd EV_WRITE (next_addr w)).

(** No watcher is active at an address that is still to be handed out. *)
Definition fresh_addrs (w : World) : Prop :=
  forall a, (next_addr w <= a)%nat -> ev_lookup a (ev_loop w) = None.

(** ** The RW watcher while the fiber waits *)

Definition is_fire (ev : sevent) : bool :=
  match ev with Fire _ => true | _ => false end.

(** How many watcher callbacks a sequence of events invokes. *)
Definition count_fires (evs : list sevent) : nat :=
  List.length (filter is_fire evs).

(** The events concern the two watchers of the RW struct at [a] and the
    scheduler only. *)
Definition rw_events_only (a : nat) (evs : list sevent) : Prop :=
  Forall (fun ev => ev = Run \/ ev = Fire (rw_r a) \/ ev = Fire (rw_w a)) evs.

(** fd 5 has input, fd 6 is a sink: splice would block once, one of the two
    watchers fires, the scheduler runs. *)
Definition splice_run (fired : nat) : World :=
  set_inbuf (upd Z.eqb (fun _ => []) 5 hello)
    (set_sched [Fire fired; Run] (set_kernel [KErr EAGAIN; KOk 7] world0)).

(** The first system call fails with [e]; nothing else is going to happen. *)
Definition failing_run (e : Z) : World := set_kernel [KErr e] world0.

(** The first system call fails with [e]; the kernel would serve a retry. *)
Definition retry_run (e : Z) : World :=
  set_inbuf (upd Z.eqb (fun _ => []) 5 hello)
    (set_sched [Run] (set_kernel [KErr e; KOk 7] world0)).

(** ** What a read call is asked and what the kernel gives it *)

(** The first answer of the kernel that is not a failure. *)
Fixpoint first_success (k : list kanswer) : option Z :=
  match k with
  | [] => None
  | KOk a :: _ => Some a
  | KErr _ :: k' => first_success k'
  end.

(** The number of bytes that the first successful [read(fd, buf, count)]
    returns. *)
Definition first_read_count (w : World) (fd count : Z) : option Z :=
  match first_success (kernel w) with
  | Some a =>
      Some (bytes_len (firstn (Z.to_nat (Z.max 0 (Z.min a (to_size_t count))))
                              (inbuf w fd)))
  | None => None
  end.

Definition requested_len (length : VALUE) : Z :=
  match length with Fixnum n => n | _ => 4096 end.

(** The bytes of the buffer handed in that lie before the write position. *)
Definition kept_prefix (str : VALUE) (pos : Z) : list byte :=
  firstn (Z.to_nat (read_buf_pos str pos)) (RSTRING_PTR str).

Definition nonneg_length (length : VALUE) : Prop :=
  length = Qnil \/ exists n, length = Fixnum n /\ 0 <= n.

(** fd 5 delivers "de" after one would-block round. *)
Definition read_run : World :=
  set_inbuf (upd Z.eqb (fun _ => []) 5 (bytes_of "de"))
    (set_sched [Fire 0%nat; Run; Run] (set_kernel [KErr EAGAIN; KOk 7] world0)).

(** fd 5 is at end of file. *)
Definition eof_run : World :=
  set_sched [Run] (set_kernel [KOk 7] world0).

(** ** A single-shot read, in the words of the claim about recv *)

(** Wait until one read system call succeeds, yield once, and hand back what
    that one call stored. *)
Fixpoint single_shot_loop (fuel : nat) (fd : Z) (watcher : libev_io)
         (stored : list byte) (len : Z) : M (list byte * Z) :=
  match fuel with
  | O => hang
  | S fuel' =>
      incr_op_count ;;;
      '(n, data) <- sys_read fd len ;;
      if n <? 0 then
        e <- get_errno ;;
        if not_would_block e then rb_syserr_fail e
        else
          '(switchpoint_result, watcher) <-
             libev_wait_fd_with_watcher fd watcher EV_READ ;;
          if TEST_EXCEPTION switchpoint_result
          then RAISE_EXCEPTION switchpoint_result
          else single_shot_loop fuel' fd watcher stored len
      else
        switchpoint_result <- backend_snooze ;;
        if TEST_EXCEPTION switchpoint_result
        then RAISE_EXCEPTION switchpoint_result
        else ret (stored ++ data, n)
  end.

Definition single_shot_read (io str length pos : VALUE) : M VALUE :=
  len <- (if is_nil length then ret 4096 else NUM2INT length) ;;
  buf_pos <- NUM2INT pos ;;
  let buf_pos := read_buf_pos str buf_pos in
  contents <- (if is_nil str then ret [] else StringValuePtr str) ;;
  fd <- GetOpenFile (underlying_of io) ;;
  watcher <- new_libev_io ;;
  '(stored, n) <-
     with_kernel_fuel (fun fuel =>
       single_shot_loop fuel fd watcher (firstn (Z.to_nat buf_pos) contents) len) ;;
  if n =? 0 then ret Qnil
  else ret (RString (firstn (Z.to_nat (buf_pos + n)) stored)).

(** ** The timeout frame *)

(** The world in which the protected block starts: the sentinel is allocated,
    the watcher struct placed, the timer started, the operation counted. *)
Definition armed (after : Z) (w : World) : World :=
  let sentinel := RException (next_obj w) cTimeoutException in
  let w1 := set_next_addr (next_addr w + 1) (set_next_obj (S (next_obj w)) w) in
  let w2 := match ev_lookup (next_addr w) (ev_loop w1) with
            | Some _ => w1
            | None => set_ev_loop (ev_loop w1 ++
                        [(next_addr w, EvTimeout after (cur_fiber w) sentinel)]) w1
            end in
  set_op_count (op_count w2 + 1) w2.

(** The world once the timer of the frame is stopped. *)
Definition disarmed (a : nat) (w : World) : World :=
  set_ev_loop (ev_remove a (ev_loop w)) w.

(** The result of the block: the value it returned or the exception object
    it raised. *)
Definition block_result (block : M VALUE) (w : World) (r : VALUE) (w' : World) : Prop :=
  block w = Done r w' \/ block w = Raised (Reraised r) w'.

(** What rb_scan_args makes of the arguments of timeout. *)
Definition timeout_args (argv : list VALUE) (after : Z) (exception move_on_value : VALUE)
  : Prop :=
  argv = [Fixnum after; exception; move_on_value] \/
  (argv = [Fixnum after; exception] /\ move_on_value = Qnil).

(** The timer of the frame fires after 5 ticks while the block sleeps. *)
Definition timeout_run : World :=
  set_sched [Elapse 5; Fire 0%nat; Run] world0.

(** ** The timer loop *)

(** The deadline that a round works with: set on the first round, inherited
    afterwards. *)
Definition round_deadline (interval_d next_time now : Z) : Z :=
  if next_time =? 0 then now + interval_d else next_time.

(** At time 100 a loop with interval 10 starts; the sleep takes 10 ticks, the
    block of the caller 40. *)
Definition timer_run : World :=
  set_next_addr 1
    (set_clock 100
       (set_sched [Elapse 10; Fire 0%nat; Run; Elapse 40; Fire 1%nat; Run] world0)).

(** ** Chains of operations *)

(** The call that a well-formed op of a chain stands for: [[:write, io, str]],
    [[:send, io, str, flags]] or [[:splice, src, dest, maxlen]].  Any other op,
    of unknown kind or of the wrong arity for its kind, stands for none. *)
Definition op_call (op : VALUE) : option (M VALUE) :=
  match op with
  | RArray [Symbol name; io; str] =>
      if String.eqb name "write" then Some (Backend_write io str) else None
  | RArray [Symbol name; a; b; c] =>
      if String.eqb name "send" then Some (Backend_send a b c)
      else if String.eqb name "splice" then Some (Backend_splice a b c)
      else None
  | _ => None
  end.

(** The ops are well formed and their calls, made one after the other, all
    return; [w'] is the world after the last one and [r'] its result (the
    result [r] before the first, when there is none). *)
Inductive runs_in_order : list VALUE -> VALUE -> World -> VALUE -> World -> Prop :=
| runs_none : forall r w, runs_in_order [] r w r w
| runs_next : forall op ops call r w v w1 r' w',
    op_call op = Some call ->
    call w = Done v w1 ->
    runs_in_order ops v w1 r' w' ->
    runs_in_order (op :: ops) r w r' w'.

(** Two bytes are written to fd 6, then two more are sent. *)
Definition chain_run : World :=
  set_sched [Run; Run] (set_kernel [KOk 2; KOk 5] world0).

Definition write_op : VALUE :=
  RArray [SYM_write; RFile 6 None; RString (bytes_of "ab")].

Definition send_op : VALUE :=
  RArray [SYM_send; RFile 6 None; RString (bytes_of "cd"); Fixnum 0].

(** A send op that lacks its flags. *)
Definition short_send_op : VALUE :=
  RArray [SYM_send; RFile 6 None; RString (bytes_of "cd")].

(** ** The chunked splice *)

(** Postcondition of a step that stays on the straight path. *)
Definition returns_next {A : Type} (m : M (ctl A)) (w : World)
           (Q : A -> World -> Prop) : Prop :=
  returns m w (fun r w' => forall a, r = Next a -> Q a w').

(** What a framing argument contributes for a chunk of [n] bytes: nothing when
    nil, itself when a string, its value at [n] when callable. *)
Definition framing_bytes (f : VALUE) (n : Z) : list byte :=
  match f with
  | RString s => s
  | RProc call => call n
  | _ => []
  end.

(** One chunk on the wire. *)
Definition framed (chunk_prefix chunk_postfix : VALUE) (chunk : list byte) : list byte :=
  framing_bytes chunk_prefix (bytes_len chunk) ++ chunk ++
  framing_bytes chunk_postfix (bytes_len chunk).

(** A system call that fails sets errno to a value other than 0. *)
Definition errnos_nonzero (k : list kanswer) : Prop :=
  Forall (fun answer => answer <> KErr 0) k.

(** The three byte sequences that the chunked splice works on: what is left
    to read from the source, what sits in the pipe, and what the destination
    has received; the table of pipes is [ps], and the kernel reports its
    failures with an errno. *)
Definition chunk_state (src_fd pipe_r dest_fd : Z) (ps : list (Z * Z)) (w : World)
           (source piped received : list byte) : Prop :=
  errnos_nonzero (kernel w) /\
  pipes w = ps /\ inbuf w src_fd = source /\ inbuf w pipe_r = piped /\
  outbuf w dest_fd = received.

(** The descriptors of the call are open descriptors, so that the pipe made
    by the call is new; if the destination is the write end of a pipe, that
    pipe leads neither back to the source nor to a descriptor still to be
    made. *)
Definition splice_fds_ok (src_fd dest_fd : Z) (w : World) : Prop :=
  src_fd < next_fd w /\ dest_fd < next_fd w /\
  forall r, pipe_read_end dest_fd (pipes w) = Some r -> r <> src_fd /\ r < next_fd w.

(** fd 5 holds "hello", fd 6 is a sink; chunks of at most 3 bytes, the pipe
    drained in two steps the first time. *)
Definition chunks_run : World :=
  set_next_fd 7
    (set_inbuf (upd Z.eqb (fun _ => []) 5 hello)
       (set_sched [Run]
          (set_kernel [KOk 0; KOk 10; KOk 7; KOk 7; KOk 2; KOk 1; KOk 7; KOk 7;
                       KOk 7; KOk 7; KOk 7; KOk 7; KOk 7] world0))).

(** The same call when the write of the first chunk prefix fails with EPIPE. *)
Definition chunks_epipe_run : World :=
  set_next_fd 7
    (set_inbuf (upd Z.eqb (fun _ => []) 5 hello)
       (set_kernel [KOk 0; KOk 10; KOk 7; KErr EPIPE] world0)).

(** The callable chunk prefix of the example: the chunk length as a digit. *)
Definition len_digit (n : Z) : list byte :=
  if n =? 3 then bytes_of "3:" else if n =? 2 then bytes_of "2:" else bytes_of "?:".

(** * Further vocabulary *)

(** A length as the callers pass it. *)
Definition is_len (v : VALUE) : Prop :=
  exists n, v = Fixnum n /\ 0 <= n <= INT_MAX.

(** ** Outcomes of a failing system call, for a call of any type *)

(** The call raises [SystemCallError] for [e]; the kernel is not asked again
    and the fiber is not switched out on the way. *)
Definition raises_errno {A : Type} (r : result A) (e : Z) (w : World) (k : list kanswer)
  : Prop :=
  exists w', r = Raised (SystemCallError e) w' /\
             kernel w' = k /\ sched w' = sched w /\ ev_loop w' = ev_loop w /\
             op_count w' = op_count w + 1.

(** What an operation waits for when the kernel says would-block. *)
Inductive waits_on : Type :=
| OnFd (fd events : Z)        (* one io watcher *)
| OnBoth (r_fd w_fd : Z).     (* the two watchers of the RW primitive *)

(** The call does not come back: the fiber stays suspended in its await, with
    the watchers for [on] active in the event loop on behalf of the fiber. *)
Definition suspended {A : Type} (r : result A) (on : waits_on) (w : World) : Prop :=
  exists w', r = Hang w' /\
    match on with
    | OnFd fd events =>
        exists a, ev_lookup a (ev_loop w') = Some (EvIo fd events (cur_fiber w))
    | OnBoth r_fd w_fd =>
        exists a,
          ev_lookup (rw_r a) (ev_loop w') = Some (EvRwIo r_fd EV_READ a) /\
          ev_lookup (rw_w a) (ev_loop w') = Some (EvRwIo w_fd EV_WRITE a) /\
          ctx_fiber (rw_ctxs w' a) = cur_fiber w
    end.

(** ** The I/O operations *)

(** Every I/O operation of the backend but connect, called on an open file
    with arguments of the types it expects, and what it waits on.  A write of
    the empty string makes no system call and is left out. *)
Inductive io_operation : M VALUE -> waits_on -> Prop :=
| op_read io fd str length to_eof pos :
    fd_for_reading io = Some fd ->
    nil_or is_string str -> nil_or is_len length -> is_int pos ->
    io_operation (Backend_read io str length to_eof pos) (OnFd fd EV_READ)
| op_recv io fd str length pos :
    fd_for_reading io = Some fd ->
    nil_or is_string str -> nil_or is_len length -> is_int pos ->
    io_operation (Backend_recv io str length pos) (OnFd fd EV_READ)
| op_read_loop block io fd maxlen :
    fd_for_reading io = Some fd -> is_len maxlen ->
    io_operation (Backend_read_loop block io maxlen) (OnFd fd EV_READ)
| op_feed_loop rb_funcall io fd receiver name :
    fd_for_reading io = Some fd ->
    io_operation (Backend_feed_loop rb_funcall io receiver (Symbol name))
                 (OnFd fd EV_READ)
| op_write io fd s :
    fd_for_writing io = Some fd -> s <> [] ->
    io_operation (Backend_write io (RString s)) (OnFd fd EV_WRITE)
| op_writev io fd strs :
    fd_for_writing io = Some fd -> Forall is_string strs ->
    io_operation (Backend_writev io strs) (OnFd fd EV_WRITE)
| op_send io fd s flags :
    fd_for_writing io = Some fd -> s <> [] -> is_int flags ->
    io_operation (Backend_send io (RString s) flags) (OnFd fd EV_WRITE)
| op_accept server_socket fd socket_class :
    fd_for_reading server_socket = Some fd ->
    io_operation (Backend_accept server_socket socket_class) (OnFd fd EV_READ)
| op_accept_loop block server_socket fd socket_class :
    fd_for_reading server_socket = Some fd ->
    io_operation (Backend_accept_loop block server_socket socket_class)
                 (OnFd fd EV_READ)
| op_splice src dest src_fd dest_fd maxlen :
    fd_for_reading src = Some src_fd -> fd_for_writing dest = Some dest_fd ->
    src_fd <> -1 -> dest_fd <> -1 -> is_int maxlen ->
    io_operation (Backend_splice src dest maxlen) (OnBoth src_fd dest_fd)
| op_splice_to_eof src dest src_fd dest_fd maxlen :
    fd_for_reading src = Some src_fd -> fd_for_writing dest = Some dest_fd ->
    src_fd <> -1 -> dest_fd <> -1 -> is_int maxlen ->
    io_operation (Backend_splice_to_eof src dest maxlen) (OnBoth src_fd dest_fd).

(** A round of a loop waits on its descriptors with the watcher it has at
    hand. *)
Inductive round_wait : Type :=
| WaitFd (fd events : Z) (watcher : libev_io)
| WaitBoth (r_fd w_fd : Z) (watcher : nat).

Definition what (rw : round_wait) : waits_on :=
  match rw with
  | WaitFd fd events _ => OnFd fd events
  | WaitBoth r_fd w_fd _ => OnBoth r_fd w_fd
  end.

(** Any round of the loop of an operation that makes a system call, whatever
    the loop has done before. *)
Inductive io_round : forall A : Type, M A -> round_wait -> Prop :=
| round_read fuel fd watcher dynamic_len read_to_eof stored len total :
    io_round _ (read_loop (S fuel) fd watcher dynamic_len read_to_eof stored len total)
             (WaitFd fd EV_READ watcher)
| round_read_loop fuel block fd watcher len :
    io_round _ (read_loop_rounds (S fuel) block fd watcher len)
             (WaitFd fd EV_READ watcher)
| round_feed_loop fuel rb_funcall receiver method_id fd watcher len :
    io_round _ (feed_loop_rounds (S fuel) rb_funcall receiver method_id fd watcher len)
             (WaitFd fd EV_READ watcher)
| round_write fuel fd watcher buf left :
    0 < left ->
    io_round _ (write_loop (S fuel) fd watcher buf left) (WaitFd fd EV_WRITE watcher)
| round_writev fuel fd watcher iov total_length total_written :
    io_round _ (writev_loop (S fuel) fd watcher iov total_length total_written)
             (WaitFd fd EV_WRITE watcher)
| round_send fuel fd watcher buf left flags_int :
    0 < left ->
    io_round _ (send_loop (S fuel) fd watcher buf left flags_int)
             (WaitFd fd EV_WRITE watcher)
| round_accept fuel fd watcher socket_class :
    io_round _ (accept_rounds (S fuel) fd watcher socket_class)
             (WaitFd fd EV_READ watcher)
| round_accept_loop fuel block fd watcher socket_class :
    io_round _ (accept_loop_rounds (S fuel) block fd watcher socket_class)
             (WaitFd fd EV_READ watcher)
| round_splice fuel src_fd dest_fd maxlen watcher :
    is_int maxlen ->
    io_round _ (splice_loop (S fuel) src_fd dest_fd maxlen watcher)
             (WaitBoth src_fd dest_fd watcher)
| round_splice_to_eof fuel src_fd dest_fd maxlen watcher total :
    is_int maxlen ->
    io_round _ (splice_to_eof_loop (S fuel) src_fd dest_fd maxlen watcher total)
             (WaitBoth src_fd dest_fd watcher).
Arguments io_round {A} _ _.

(** The watcher at hand can be started: it is not active, and it is either
    still to be set up or was set up for the same wait by an earlier round. *)
Definition can_wait (rw : round_wait) (w : World) : Prop :=
  match rw with
  | WaitFd fd events watcher =>
      ev_lookup (io_addr watcher) (ev_loop w) = None /\
      (io_fiber watcher = Qnil \/
       (io_fd watcher = fd /\ io_events watcher = events /\
        io_fiber watcher = cur_fiber w))
  | WaitBoth r_fd w_fd a =>
      r_fd <> -1 /\ w_fd <> -1 /\
      ev_lookup (rw_r a) (ev_loop w) = None /\
      ev_lookup (rw_w a) (ev_loop w) = None /\
      (ctx_fiber (rw_ctxs w a) = Qnil \/ ctx_fiber (rw_ctxs w a) = cur_fiber w)
  end.

(** ** Example runs of the further operations *)

(** fd 6 is written to with two vectors: the kernel takes three bytes, then
    would block, then takes the rest. *)
Definition writev_run : World :=
  set_sched [Fire 0%nat; Run] (set_kernel [KOk 3; KErr EAGAIN; KOk 100] world0).

(** The message of [Backend_write_m] for a call without a string. *)
Definition write_m_arity_msg : string :=
  "(wrong number of arguments (expected 2 or more))".

(** ** Moving bytes between descriptors *)

(** From [w] to [w'], [data] has left the input of [src_fd] and arrived, in
    order, at [dest_fd]. *)
Definition transferred (src_fd dest_fd : Z) (data : list byte) (w w' : World) : Prop :=
  inbuf w src_fd = data ++ inbuf w' src_fd /\
  outbuf w' dest_fd = outbuf w dest_fd ++ data /\
  pipes w' = pipes w.

(** The destination is not the write end of a pipe that leads back to the
    source. *)
Definition no_loop_back (src_fd dest_fd : Z) (w : World) : Prop :=
  pipe_read_end dest_fd (pipes w) <> Some src_fd.

(** fd 5 holds "hello", fd 6 is a sink; the kernel moves two bytes, would
    block, moves the rest and then reports the end of the input. *)
Definition splice_to_eof_run : World :=
  set_inbuf (upd Z.eqb (fun _ => []) 5 hello)
    (set_sched [Fire 0%nat; Fire 1%nat; Fire 0%nat; Run]
       (set_kernel [KOk 2; KErr EAGAIN; KOk 7; KOk 7] world0)).

(** fd 5 holds "hello", fd 6 is a sink; the splice would block once and the
    watchers fire until the fiber is woken. *)
Definition splice_wait_run : World :=
  set_inbuf (upd Z.eqb (fun _ => []) 5 hello)
    (set_sched [Fire 0%nat; Fire 1%nat; Fire 0%nat; Run]
       (set_kernel [KErr EAGAIN; KOk 7] world0)).

(** ** What a call keeps *)

(** From a world that [R] relates to [w0], the call [m] comes back, by
    returning or by raising, only in worlds that [R] relates to [w0], and it
    raises only what [E] allows. *)
Definition keeps {A : Type} (R : World -> World -> Prop) (E : exn -> Prop) (m : M A)
  : Prop :=
  forall w0 w, R w0 w ->
    match m w with
    | Done _ w' => R w0 w'
    | Raised e w' => E e /\ R w0 w'
    | Hang _ => True
    end.

(** The call came back in [w']: it returned or it raised. *)
Definition came_back {A : Type} (r : result A) (w' : World) : Prop :=
  (exists a, r = Done a w') \/ (exists e, r = Raised e w').

(** No descriptor was made and none was closed. *)
Definition same_fds (w w' : World) : Prop :=
  next_fd w' = next_fd w /\ closed w' = closed w.

(** Every descriptor made between [w] and [w'] has been closed. *)
Definition new_fds_closed (w w' : World) : Prop :=
  forall fd, next_fd w <= fd < next_fd w' -> In fd (closed w').

(** A relation on worlds that switching fibers can not break: it looks at
    the part of the world that the scheduler leaves alone. *)
Definition os_relation (R : World -> World -> Prop) : Prop :=
  forall w0 w w', R w0 w -> same_os w w' -> R w0 w'.


(** The call came back in [w'] the regular way: it returned, it raised
    [SystemCallError], or it re-raised the exception it was resumed with. *)
Definition left_regularly {A : Type} (r : result A) (w' : World) : Prop :=
  (exists v, r = Done v w') \/
  (exists e, r = Raised (SystemCallError e) w') \/
  (exists x, r = Raised (Reraised x) w').

(** A connection is waiting: accept succeeds and the fiber is resumed
    normally after its snooze. *)
Definition accept_run : World :=
  set_sched [Run] (set_kernel [KOk 0] world0).

(** The same, but the fiber is resumed with an exception. *)
Definition accept_interrupted_run : World :=
  set_sched [Schedule (RException 1 Qnil); Run] (set_kernel [KOk 0] world0).

(** ** Loops that hand on what they read *)

(** The block appends the string it is given to what [log] has received and
    leaves the input of [fd] alone, as long as [log] does not lead back to
    [fd]. *)
Definition feeds (log fd : Z) (block : VALUE -> M VALUE) : Prop :=
  forall data w v w',
    data <> [] ->
    no_loop_back fd log w ->
    block (RString data) w = Done v w' ->
    outbuf w' log = outbuf w log ++ data /\
    inbuf w' fd = inbuf w fd /\
    no_loop_back fd log w'.

(** A block that records the strings it is given at descriptor 9. *)
Definition record_block (v : VALUE) : M VALUE :=
  fun w =>
    Done Qnil (set_outbuf (upd Z.eqb (outbuf w) 9 (outbuf w 9 ++ RSTRING_PTR v)) w).

(** fd 5 holds "hello": the kernel hands out two bytes, would block, hands
    out the rest and reports the end of the input. *)
Definition read_loop_run : World :=
  set_inbuf (upd Z.eqb (fun _ => []) 5 hello)
    (set_sched [Run; Fire 0%nat; Run; Run; Run]
       (set_kernel [KOk 2; KErr EAGAIN; KOk 7; KOk 7] world0)).

(** The same for an echo: what is read from fd 5 is written to fd 6, where
    the kernel takes one byte at first. *)
Definition echo_run : World :=
  set_inbuf (upd Z.eqb (fun _ => []) 5 hello)
    (set_sched [Run; Run; Run; Run; Run; Run]
       (set_kernel [KOk 2; KOk 1; KOk 7; KOk 7; KOk 7; KOk 7] world0)).

(** The input of [fd] and the table of pipes are as in [w0], unless [dfd]
    leads back to [fd]. *)
Definition source_kept (fd dfd : Z) (w0 w : World) : Prop :=
  pipes w = pipes w0 /\ (no_loop_back fd dfd w0 -> inbuf w fd = inbuf w0 fd).

(** ** Chains of writes and sends *)

(** An op of a chain that transmits [s] on [io]: a write, or a send with
    flags. *)
Definition transmit_op (io : VALUE) (item : list byte * option VALUE) : VALUE :=
  match item with
  | (s, None) => RArray [SYM_write; io; RString s]
  | (s, Some flags) => RArray [SYM_send; io; RString s; flags]
  end.

(** fd 6 takes two bytes, then everything. *)
Definition transmit_run : World :=
  set_sched [Run; Run; Run] (set_kernel [KOk 2; KOk 7; KOk 7; KOk 7] world0).

(** fd 5 holds "hello", fd 6 is a sink: the read would block once, the
    kernel then hands out four bytes and takes them in two writes. *)
Definition portable_splice_run : World :=
  set_inbuf (upd Z.eqb (fun _ => []) 5 hello)
    (set_sched [Fire 0%nat; Run]
       (set_kernel [KErr EAGAIN; KOk 7; KOk 1; KOk 7] world0)).

(** The same up to the end of the input. *)
Definition portable_splice_to_eof_run : World :=
  set_inbuf (upd Z.eqb (fun _ => []) 5 hello)
    (set_sched [Fire 0%nat; Run]
       (set_kernel [KErr EAGAIN; KOk 7; KOk 1; KOk 7; KOk 7; KOk 7; KOk 7] world0)).

(** fd 5 holds "hello" and fd 6 is busy: the read would block once and the
    fiber is woken by the watcher; then four bytes are read, and the write
    would block. *)
Definition portable_busy_run : World :=
  set_inbuf (upd Z.eqb (fun _ => []) 5 hello)
    (set_sched [Fire 0%nat; Run]
       (set_kernel [KErr EAGAIN; KOk 7; KErr EAGAIN; KOk 7] world0)).

(** ** Watchers that a call leaves behind *)

(** Every watcher that is active in [w'] was active, at the same address and
    with the same settings, in [w]. *)
Definition no_new_watchers (w w' : World) : Prop :=
  forall a x, ev_lookup a (ev_loop w') = Some x -> ev_lookup a (ev_loop w) = Some x.

(** The operations that take no block, with any arguments. *)
Inductive blocking_operation : M VALUE -> Prop :=
| bop_read io str length to_eof pos :
    blocking_operation (Backend_read io str length to_eof pos)
| bop_recv io str length pos : blocking_operation (Backend_recv io str length pos)
| bop_write io str : blocking_operation (Backend_write io str)
| bop_writev io argv : blocking_operation (Backend_writev io argv)
| bop_write_m argv : blocking_operation (Backend_write_m argv)
| bop_send io str flags : blocking_operation (Backend_send io str flags)
| bop_accept server_socket socket_class :
    blocking_operation (Backend_accept server_socket socket_class)
| bop_connect sock host port : blocking_operation (Backend_connect sock host port)
| bop_splice src dest maxlen : blocking_operation (Backend_splice src dest maxlen)
| bop_splice_to_eof src dest maxlen :
    blocking_operation (Backend_splice_to_eof src dest maxlen)
| bop_portable_splice src dest maxlen :
    blocking_operation (Portable.Backend_splice src dest maxlen)
| bop_portable_splice_to_eof src dest maxlen :
    blocking_operation (Portable.Backend_splice_to_eof src dest maxlen)
| bop_splice_chunks src dest prefix postfix chunk_prefix chunk_postfix chunk_size :
    blocking_operation
      (Backend_splice_chunks src dest prefix postfix chunk_prefix chunk_postfix
                             chunk_size)
| bop_wait_io io write : blocking_operation (Backend_wait_io io write)
| bop_sleep duration : blocking_operation (Backend_sleep duration)
| bop_chain argv : blocking_operation (Backend_chain argv).

(** Three watchers are active when the call starts; a timer fires and two
    io watchers wake other fibers while this one waits to write. *)
Definition crowded_run : World :=
  set_ev_loop [(7%nat, EvTimer 3 (RFiber 1)); (8%nat, EvIo 4 EV_READ (RFiber 2));
               (9%nat, EvIo 6 EV_WRITE (RFiber 3))]
    (set_next_addr 10
       (set_sched [Fire 7%nat; Fire 8%nat; Fire 10%nat; Run; Run; Run; Run]
          (set_kernel [KErr EAGAIN; KOk 7] world0))).

(** The same but for the watchers at the addresses [own], which the call
    under way has started and still has to stop. *)
Definition no_new_watchers_but (own : list nat) (w w' : World) : Prop :=
  forall a x, ~ In a own ->
    ev_lookup a (ev_loop w') = Some x -> ev_lookup a (ev_loop w) = Some x.

(** A step of a call that has the watchers [own] running hands on with the
    watchers [own'] running; it raises only when none is. *)
Definition hands_on {A : Type} (own own' : list nat) (m : M A) : Prop :=
  forall w0 w, no_new_watchers_but own w0 w ->
    match m w with
    | Done _ w' => no_new_watchers_but own' w0 w'
    | Raised _ w' => no_new_watchers_but [] w0 w'
    | Hang _ => True
    end.

(** The call made no system call between [w] and [w']: what the kernel has
    in store, errno, the descriptors and what went through them are the
    same. *)
Definition no_system_call (w w' : World) : Prop :=
  kernel w' = kernel w /\ errno w' = errno w /\
  inbuf w' = inbuf w /\ outbuf w' = outbuf w /\ pipes w' = pipes w /\
  next_fd w' = next_fd w /\ closed w' = closed w.

(** The same, and nothing was counted either. *)
Definition waited (w0 w : World) : Prop :=
  no_system_call w0 w /\ op_count w = op_count w0.

(** The calls that only wait. *)
Inductive plain_wait : M VALUE -> Prop :=
| pw_wait_io io write : plain_wait (Backend_wait_io io write)
| pw_sleep duration : plain_wait (Backend_sleep duration).

(** The fiber sleeps; the timer fires while another watcher is active, and
    the fiber is resumed. *)
Definition sleep_run : World :=
  set_ev_loop [(8%nat, EvIo 4 EV_READ (RFiber 2))]
    (set_next_addr 10
       (set_sched [Fire 10%nat; Run]
          (set_kernel [KOk 5] (set_op_count 3 world0)))).
(** * Reasoning about backend code *)

(** ** Postconditions of calls that return *)

Lemma bind_Done {A B : Type} (m : M A) (k : A -> M B) w b w' :
  bind m k w = Done b w' ->
  exists a w1, m w = Done a w1 /\ k a w1 = Done b w'.
Proof.
  unfold bind. destruct (m w) as [a w1|e w1|w1]; try discriminate.
  intros H. exists a, w1. split; [reflexivity | exact H].
Qed.

Lemma returns_bind {A B : Type} (m : M A) (k : A -> M B) w Q :
  returns m w (fun a w1 => returns (k a) w1 Q) ->
  returns (bind m k) w Q.
Proof.
  intros Hm b w' Hb. apply bind_Done in Hb as (a & w1 & Ha & Hk).
  exact (Hm a w1 Ha b w' Hk).
Qed.

Lemma returns_ret {A : Type} (a : A) w (Q : A -> World -> Prop) :
  Q a w -> returns (ret a) w Q.
Proof. intros HQ b w' H. inversion H; subst. exact HQ. Qed.

Lemma returns_raise {A : Type} (e : exn) w (Q : A -> World -> Prop) :
  returns (raise e) w Q.
Proof. intros b w' H. discriminate H. Qed.

Lemma returns_hang {A : Type} w (Q : A -> World -> Prop) :
  returns hang w Q.
Proof. intros b w' H. discriminate H. Qed.

Lemma returns_get {A : Type} (f : World -> A) w (Q : A -> World -> Prop) :
  Q (f w) w -> returns (get f) w Q.
Proof. intros HQ b w' H. inversion H; subst. exact HQ. Qed.

Lemma returns_modify (f : World -> World) w (Q : unit -> World -> Prop) :
  Q tt (f w) -> returns (modify f) w Q.
Proof. intros HQ b w' H. inversion H; subst. exact HQ. Qed.

Lemma returns_weaken {A : Type} (m : M A) w (P Q : A -> World -> Prop) :
  returns m w P -> (forall a w', P a w' -> Q a w') -> returns m w Q.
Proof. intros HP HPQ a w' H. apply HPQ, HP, H. Qed.

(** ** What switching fibers leaves alone *)

Lemma same_os_refl w : same_os w w.
Proof. unfold same_os. repeat split. Qed.

Lemma same_os_trans w1 w2 w3 : same_os w1 w2 -> same_os w2 w3 -> same_os w1 w3.
Proof.
  unfold same_os. intros H1 H2.
  decompose [and] H1. decompose [and] H2.
  repeat split; congruence.
Qed.

Lemma Fiber_make_runnable_same_os f v w : same_os w (Fiber_make_runnable f v w).
Proof. unfold same_os. repeat split. Qed.

Lemma Backend_rw_io_callback_same_os c w : same_os w (Backend_rw_io_callback c w).
Proof.
  unfold Backend_rw_io_callback.
  destruct (ref_count (rw_ctxs w c) =? 0); unfold same_os; repeat split.
Qed.

Lemma ev_invoke_same_os a w : same_os w (ev_invoke a w).
Proof.
  unfold ev_invoke. destruct (ev_lookup a (ev_loop w)) as [[ | | | ]|].
  - apply Fiber_make_runnable_same_os.
  - apply Backend_rw_io_callback_same_os.
  - unfold same_os; repeat split.
  - unfold same_os; repeat split.
  - apply same_os_refl.
Qed.

Lemma switch_fiber_loop_same_os evs : forall w,
  same_os w (world_of (switch_fiber_loop evs w)).
Proof.
  induction evs as [|ev evs IH]; intros w; simpl.
  - unfold same_os; repeat split.
  - destruct ev as [a|v|d|].
    + eapply same_os_trans; [apply ev_invoke_same_os | apply IH].
    + eapply same_os_trans; [apply Fiber_make_runnable_same_os | apply IH].
    + eapply same_os_trans; [ | apply IH]. unfold same_os; repeat split.
    + destruct (runqueue w) as [|[f v] q].
      * apply IH.
      * destruct (same_object f (cur_fiber w)).
        -- unfold same_os; repeat split.
        -- eapply same_os_trans; [ | apply IH]. unfold same_os; repeat split.
Qed.

Lemma switch_fiber_same_os w : same_os w (world_of (switch_fiber w)).
Proof. apply switch_fiber_loop_same_os. Qed.

Lemma returns_await w (Q : VALUE -> World -> Prop) :
  (forall v w', same_os w w' -> Q v w') -> returns backend_await w Q.
Proof.
  intros HQ v w' H. apply HQ.
  pose proof (switch_fiber_same_os w) as Hs.
  unfold backend_await in H. rewrite H in Hs. exact Hs.
Qed.

Lemma returns_snooze w (Q : VALUE -> World -> Prop) :
  (forall v w', same_os w w' -> Q v w') -> returns backend_snooze w Q.
Proof.
  intros HQ v w' H. apply HQ. unfold backend_snooze in H.
  apply bind_Done in H as (cur & w1 & H1 & H).
  inversion H1; subst; clear H1.
  apply bind_Done in H as (u & w2 & H2 & H).
  inversion H2; subst; clear H2.
  pose proof (switch_fiber_same_os (Fiber_make_runnable (cur_fiber w1) Qnil w1)) as Hs.
  rewrite H in Hs. simpl in Hs.
  eapply same_os_trans; [apply Fiber_make_runnable_same_os | exact Hs].
Qed.

Lemma returns_libev_wait_fd_with_watcher fd watcher events w
      (Q : VALUE * libev_io -> World -> Prop) :
  (forall v wt w', same_os w w' -> Q (v, wt) w') ->
  returns (libev_wait_fd_with_watcher fd watcher events) w Q.
Proof.
  intros HQ. unfold libev_wait_fd_with_watcher.
  apply returns_bind.
  assert (Hstart : forall wt w1, same_os w w1 ->
    returns (ev_start (io_addr wt) (EvIo (io_fd wt) (io_events wt) (io_fiber wt));;;
             switchpoint_result <- backend_await;;
             ev_stop (io_addr wt);;; ret (switchpoint_result, wt)) w1 Q).
  { intros wt w1 Hw1. apply returns_bind, returns_modify.
    apply returns_bind, returns_await. intros v w2 Hw2.
    apply returns_bind, returns_modify, returns_ret. apply HQ.
    eapply same_os_trans; [exact Hw1|].
    eapply same_os_trans; [|eapply same_os_trans; [exact Hw2|]].
    - destruct (ev_lookup (io_addr wt) (ev_loop w1)); unfold same_os; repeat split.
    - unfold same_os; repeat split. }
  destruct (is_nil (io_fiber watcher)).
  - apply returns_bind, returns_get, returns_ret. apply Hstart, same_os_refl.
  - apply returns_ret. apply Hstart, same_os_refl.
Qed.

Lemma returns_snooze_unless_waited fiber w (Q : unit -> World -> Prop) :
  (forall w', same_os w w' -> Q tt w') ->
  returns (snooze_unless_waited fiber) w Q.
Proof.
  intros HQ. unfold snooze_unless_waited. destruct (is_nil fiber).
  - apply returns_bind, returns_snooze. intros v w' Hw'.
    destruct (TEST_EXCEPTION v).
    + apply returns_raise.
    + apply returns_ret, HQ, Hw'.
  - apply returns_ret, HQ, same_os_refl.
Qed.

(** ** System calls *)

Lemma bytes_len_nonneg l : 0 <= bytes_len l.
Proof. unfold bytes_len. lia. Qed.

Lemma bytes_len_app l1 l2 : bytes_len (l1 ++ l2) = bytes_len l1 + bytes_len l2.
Proof. unfold bytes_len. rewrite length_app. lia. Qed.

Lemma to_size_t_le n : 0 <= n -> to_size_t n <= n.
Proof. intros H. unfold to_size_t. apply Z.mod_le; lia. Qed.

Lemma to_size_t_small n : 0 <= n < 2 ^ 64 -> to_size_t n = n.
Proof. intros H. unfold to_size_t. apply Z.mod_small. exact H. Qed.

Lemma to_size_t_nonneg n : 0 <= to_size_t n.
Proof. unfold to_size_t. apply Z.mod_pos_bound. lia. Qed.

(** What the kernel moves on an answer [KOk a] to a request for [count]
    bytes out of [avail]. *)
Lemma moved_prefix (a count : Z) (avail : list byte) :
  let data := firstn (Z.to_nat (Z.max 0 (Z.min a (to_size_t count)))) avail in
  avail = data ++ skipn (List.length data) avail /\
  bytes_len data <= to_size_t count /\
  (0 < a -> 0 < to_size_t count -> avail <> [] -> data <> []).
Proof.
  intros data. subst data.
  set (k := Z.to_nat (Z.max 0 (Z.min a (to_size_t count)))).
  repeat split.
  - rewrite length_firstn.
    destruct (Nat.le_ge_cases k (List.length avail)) as [Hk|Hk].
    + rewrite Nat.min_l by exact Hk. symmetry. apply firstn_skipn.
    + rewrite Nat.min_r by exact Hk.
      rewrite firstn_all2 by exact Hk.
      rewrite skipn_all. rewrite app_nil_r. reflexivity.
  - unfold bytes_len. rewrite length_firstn.
    pose proof (to_size_t_nonneg count). subst k. lia.
  - intros Ha Hc Hav. destruct avail as [|b avail]; [congruence|].
    assert (Hk : (0 < k)%nat) by (subst k; lia).
    destruct k; [lia|]. simpl. discriminate.
Qed.

Lemma sys_write_Done fd buf count w n w' :
  sys_write fd buf count w = Done n w' ->
  (n = -1 /\ inbuf w' = inbuf w /\ outbuf w' = outbuf w /\ pipes w' = pipes w /\
   next_fd w' = next_fd w /\ cur_fiber w' = cur_fiber w) \/
  (exists data k,
     n = bytes_len data /\ buf = data ++ skipn (List.length data) buf /\
     n <= to_size_t count /\
     w' = deliver fd data (set_kernel k w)).
Proof.
  unfold sys_write. destruct (kernel w) as [|[a|e] k]; intros H; inversion H; subst.
  - right.
    destruct (moved_prefix a count buf) as (Hp & Hle & _).
    eexists _, k. repeat split; [exact Hp | exact Hle].
  - left. repeat split.
Qed.

Lemma deliver_outbuf fd data w :
  outbuf (deliver fd data w) fd = outbuf w fd ++ data.
Proof.
  unfold deliver. destruct (pipe_read_end fd _); simpl; unfold upd;
    rewrite Z.eqb_refl; reflexivity.
Qed.

Lemma deliver_outbuf_other fd fd' data w :
  fd <> fd' -> outbuf (deliver fd data w) fd' = outbuf w fd'.
Proof.
  intros Hne. unfold deliver.
  destruct (pipe_read_end fd _); simpl; unfold upd;
    destruct (Z.eqb_spec fd fd'); congruence.
Qed.

(** ** Backend_write: every byte, in order *)

Lemma write_loop_returns fuel : forall fd watcher buf left w,
  left = bytes_len buf ->
  returns (write_loop fuel fd watcher buf left) w
    (fun _ w' => outbuf w' fd = outbuf w fd ++ buf).
Proof.
  induction fuel as [|fuel IH]; intros fd watcher buf left w Hleft; simpl.
  - apply returns_hang.
  - destruct (0 <? left) eqn:Hpos.
    + apply returns_bind, returns_modify.
      apply returns_bind. intros n w1 Hn.
      apply sys_write_Done in Hn
        as [(-> & _ & Hout & _)|(data & k & -> & Hbuf & _ & ->)].
      * simpl. apply returns_bind, returns_get.
        destruct (not_would_block _); [apply returns_raise|].
        apply returns_bind, returns_libev_wait_fd_with_watcher.
        intros v wt w2 Hw2.
        destruct (TEST_EXCEPTION v); [apply returns_raise|].
        eapply returns_weaken; [apply IH; exact Hleft|].
        intros wt' w3 Hw3. rewrite Hw3.
        destruct Hw2 as (_ & _ & _ & Hout2 & _). rewrite Hout2, Hout.
        reflexivity.
      * pose proof (bytes_len_nonneg data) as Hd.
        destruct (bytes_len data <? 0) eqn:Hneg; [apply Z.ltb_lt in Hneg; lia|].
        eapply returns_weaken.
        -- apply IH. rewrite Hleft.
           rewrite Hbuf at 1. rewrite bytes_len_app. unfold bytes_len.
           rewrite Nat2Z.id. lia.
        -- intros wt' w3 Hw3. cbv beta in Hw3. rewrite Hw3.
           rewrite deliver_outbuf. simpl.
           unfold bytes_len. rewrite Nat2Z.id.
           rewrite <- app_assoc, <- Hbuf. reflexivity.
    + apply returns_ret.
      apply Z.ltb_ge in Hpos. pose proof (bytes_len_nonneg buf).
      assert (Hnil : buf = []).
      { destruct buf; [reflexivity|]. unfold bytes_len in *. simpl in *. lia. }
      rewrite Hnil, app_nil_r. reflexivity.
Qed.

Lemma deliver_frame fd data w :
  let w' := deliver fd data w in
  kernel w' = kernel w /\ sched w' = sched w /\ runqueue w' = runqueue w /\
  cur_fiber w' = cur_fiber w /\ ev_loop w' = ev_loop w /\ pipes w' = pipes w /\
  next_addr w' = next_addr w.
Proof.
  unfold deliver. destruct (pipe_read_end fd _); simpl; repeat split.
Qed.

Lemma write_loop_short_writes caps : forall fuel fd watcher buf w krest,
  Forall (fun c => 0 < c) caps ->
  total_of caps = bytes_len buf ->
  bytes_len buf < 2 ^ 64 ->
  kernel w = short_writes caps ++ krest ->
  (List.length caps < fuel)%nat ->
  exists w',
    write_loop fuel fd watcher buf (bytes_len buf) w = Done watcher w' /\
    kernel w' = krest /\ outbuf w' fd = outbuf w fd ++ buf /\
    sched w' = sched w /\ runqueue w' = runqueue w /\ cur_fiber w' = cur_fiber w.
Proof.
  induction caps as [|c caps IH]; intros fuel fd watcher buf w krest Hpos Hsum Hsmall Hk Hfuel.
  - destruct fuel as [|fuel]; [simpl in Hfuel; lia|].
    simpl in Hsum. assert (Hnil : buf = []).
    { destruct buf; [reflexivity|]. unfold bytes_len in Hsum. simpl in Hsum. lia. }
    subst buf. exists w. simpl. rewrite app_nil_r. repeat split. exact Hk.
  - destruct fuel as [|fuel]; [simpl in Hfuel; lia|].
    inversion Hpos as [|c' caps' Hc Hpos']; subst.
    simpl in Hsum. pose proof (bytes_len_nonneg buf) as Hb.
    assert (Hcaps : 0 <= total_of caps).
    { clear -Hpos'. induction Hpos'; simpl; lia. }
    assert (Hlt : (0 <? bytes_len buf) = true) by (apply Z.ltb_lt; lia).
    set (data := firstn (Z.to_nat c) buf).
    assert (Hdata : bytes_len data = c).
    { unfold data, bytes_len. rewrite length_firstn. unfold bytes_len in *. lia. }
    set (w1 := deliver fd data
                 (set_kernel (short_writes caps ++ krest)
                    (set_op_count (op_count w + 1) w))).
    destruct (IH fuel fd watcher (skipn (Z.to_nat c) buf) w1 krest) as (w' & Hrun & Hk' & Hout & Hs & Hq & Hf).
    + exact Hpos'.
    + unfold bytes_len in *. rewrite length_skipn. lia.
    + unfold bytes_len in *. rewrite length_skipn. lia.
    + subst w1. destruct (deliver_frame fd data
        (set_kernel (short_writes caps ++ krest) (set_op_count (op_count w + 1) w)))
        as (Hk1 & _). rewrite Hk1. reflexivity.
    + simpl in Hfuel. lia.
    + exists w'. split; [|split; [exact Hk'|split]].
      * simpl. rewrite Hlt. unfold bind at 1. simpl.
        unfold bind at 1. unfold sys_write. simpl. rewrite Hk. simpl.
        rewrite to_size_t_small by lia.
        replace (Z.max 0 (Z.min c (bytes_len buf))) with c by lia.
        fold data. rewrite Hdata.
        destruct (c <? 0) eqn:Hneg; [apply Z.ltb_lt in Hneg; lia|].
        replace (bytes_len buf - c) with (bytes_len (skipn (Z.to_nat c) buf))
          by (unfold bytes_len in *; rewrite length_skipn; lia).
        exact Hrun.
      * rewrite Hout. subst w1. rewrite deliver_outbuf. simpl.
        rewrite <- app_assoc. unfold data. rewrite firstn_skipn. reflexivity.
      * subst w1. destruct (deliver_frame fd data
          (set_kernel (short_writes caps ++ krest) (set_op_count (op_count w + 1) w)))
          as (_ & Hs1 & Hq1 & Hf1 & _).
        rewrite Hs, Hq, Hf, Hs1, Hq1, Hf1. repeat split.
Qed.

Lemma bind_of_Done {A B : Type} (m : M A) (k : A -> M B) w a w1 :
  m w = Done a w1 -> bind m k w = k a w1.
Proof. intros H. unfold bind. rewrite H. reflexivity. Qed.

Lemma bind_of_Raised {A B : Type} (m : M A) (k : A -> M B) w e w1 :
  m w = Raised e w1 -> bind m k w = Raised e w1.
Proof. intros H. unfold bind. rewrite H. reflexivity. Qed.

Lemma bind_of_Hang {A B : Type} (m : M A) (k : A -> M B) w w1 :
  m w = Hang w1 -> bind m k w = Hang w1.
Proof. intros H. unfold bind. rewrite H. reflexivity. Qed.

(** Run the first call of a sequence when it computes. *)
Ltac step_bind := erewrite bind_of_Done by reflexivity.

Lemma returns_with_kernel_fuel {A : Type} (loop : nat -> M A) w Q :
  (forall fuel, returns (loop fuel) w Q) -> returns (with_kernel_fuel loop) w Q.
Proof. intros H. unfold with_kernel_fuel. intros a w' Hr. eapply H, Hr. Qed.

Lemma returns_alloca size w (Q : nat -> World -> Prop) :
  Q (next_addr w) (set_next_addr (next_addr w + size)%nat w) ->
  returns (alloca size) w Q.
Proof. intros HQ a w' H. inversion H; subst. exact HQ. Qed.

Lemma returns_GetOpenFile io w (Q : Z -> World -> Prop) :
  (forall fd t, io = RFile fd t -> Q fd w) -> returns (GetOpenFile io) w Q.
Proof.
  intros HQ. destruct io; simpl; try apply returns_raise.
  apply returns_ret. eapply HQ. reflexivity.
Qed.

Lemma Backend_write_returns io s w :
  returns (Backend_write io (RString s)) w
    (fun v w' =>
       v = Fixnum (bytes_len s) /\
       exists fd, fd_for_writing io = Some fd /\ outbuf w' fd = outbuf w fd ++ s).
Proof.
  unfold Backend_write. simpl StringValuePtr.
  apply returns_bind, returns_ret.
  apply returns_bind, returns_GetOpenFile. intros fd t Hio.
  unfold new_libev_io.
  apply returns_bind, returns_bind, returns_alloca, returns_ret.
  apply returns_bind, returns_with_kernel_fuel. intros fuel.
  eapply returns_weaken; [apply write_loop_returns; reflexivity|].
  intros wt w1 Hout. cbv beta in Hout.
  apply returns_bind, returns_snooze_unless_waited. intros w2 Hw2.
  apply returns_ret. split; [reflexivity|].
  exists fd. split.
  - unfold fd_for_writing, underlying_of. rewrite Hio. reflexivity.
  - destruct Hw2 as (_ & _ & _ & Hout2 & _). rewrite Hout2, Hout. reflexivity.
Qed.

Lemma snooze_resumes w srest :
  sched w = Run :: srest -> resumable w ->
  backend_snooze w = Done Qnil (set_sched srest (set_runqueue [] w)).
Proof.
  intros Hs (Hq & i & Hf).
  unfold backend_snooze, bind, rb_fiber_current, get, modify, switch_fiber.
  unfold Fiber_make_runnable. simpl. rewrite Hs, Hq, Hf. simpl.
  rewrite Hf, Nat.eqb_refl. reflexivity.
Qed.

Lemma snooze_unless_waited_nil w srest :
  sched w = Run :: srest -> resumable w ->
  snooze_unless_waited Qnil w = Done tt (set_sched srest (set_runqueue [] w)).
Proof.
  intros Hs Hres. unfold snooze_unless_waited. cbn [is_nil].
  erewrite bind_of_Done by (apply snooze_resumes; eassumption).
  reflexivity.
Qed.



(** ** Failing system calls *)

Lemma NUM2INT_ok v w :
  is_int v -> exists n, v = Fixnum n /\ NUM2INT v w = Done n w.
Proof.
  intros (n & -> & Hlo & Hhi). exists n. split; [reflexivity|].
  unfold NUM2INT.
  destruct (INT_MIN <=? n) eqn:H1; [|apply Z.leb_gt in H1; lia].
  destruct (n <=? INT_MAX) eqn:H2; [|apply Z.leb_gt in H2; lia].
  reflexivity.
Qed.

Lemma GetOpenFile_reading io fd w :
  fd_for_reading io = Some fd ->
  GetOpenFile (if is_nil (rb_ivar_get_io io) then io else rb_ivar_get_io io) w
    = Done fd w.
Proof.
  unfold fd_for_reading, underlying_of.
  destruct (if is_nil (rb_ivar_get_io io) then io else rb_ivar_get_io io);
    try discriminate.
  intros H. inversion H; subst. reflexivity.
Qed.

Lemma GetOpenFile_writing io fd w :
  fd_for_writing io = Some fd ->
  GetOpenFile
    (rb_io_get_write_io (if is_nil (rb_ivar_get_io io) then io else rb_ivar_get_io io)) w
    = Done fd w.
Proof.
  unfold fd_for_writing, underlying_of.
  destruct (rb_io_get_write_io _); try discriminate.
  intros H. inversion H; subst. reflexivity.
Qed.

Lemma not_would_block_true e :
  e <> EWOULDBLOCK -> e <> EAGAIN -> not_would_block e = true.
Proof.
  intros H1 H2. unfold not_would_block.
  destruct (Z.eqb_spec e EWOULDBLOCK); [contradiction|].
  destruct (Z.eqb_spec e EAGAIN); [contradiction|]. reflexivity.
Qed.

Lemma not_would_block_false e :
  e = EWOULDBLOCK \/ e = EAGAIN -> not_would_block e = false.
Proof. intros [->| ->]; reflexivity. Qed.

Lemma ev_lookup_started a ew l :
  ev_lookup a l = None -> ev_lookup a (l ++ [(a, ew)]) = Some ew.
Proof.
  unfold ev_lookup. induction l as [|[b x] l IH]; simpl.
  - intros _. rewrite Nat.eqb_refl. reflexivity.
  - destruct (Nat.eqb b a); [discriminate|]. exact IH.
Qed.

Lemma ev_lookup_app_other a b ew l :
  a <> b -> ev_lookup a (l ++ [(b, ew)]) = ev_lookup a l.
Proof.
  intros Hne. unfold ev_lookup. induction l as [|[c x] l IH]; simpl.
  - destruct (Nat.eqb_spec b a); [congruence|]. reflexivity.
  - destruct (Nat.eqb c a); [reflexivity|]. exact IH.
Qed.

(** A would-block answer with nothing left to happen: the fiber stays in
    its await with the watcher started. *)
Lemma libev_wait_fd_with_watcher_hangs {B : Type} fd a events w
      (k : VALUE * libev_io -> M B) :
  sched w = [] ->
  ev_lookup a (ev_loop w) = None ->
  exists w',
    bind (libev_wait_fd_with_watcher fd (mk_libev_io a (-1) 0 Qnil) events) k w
      = Hang w' /\
    kernel w' = kernel w /\
    ev_lookup a (ev_loop w') = Some (EvIo fd events (cur_fiber w)).
Proof.
  intros Hs Hfresh.
  eexists. split; [|split].
  - apply bind_of_Hang. unfold libev_wait_fd_with_watcher. cbn [io_fiber is_nil].
    step_bind. cbn [io_addr io_fd io_events io_fiber].
    step_bind. apply bind_of_Hang.
    unfold backend_await, switch_fiber. rewrite Hfresh. cbn. rewrite Hs.
    reflexivity.
  - reflexivity.
  - cbn. apply ev_lookup_started, Hfresh.
Qed.

Lemma read_loop_fails fuel fd a dynamic_len read_to_eof stored len total e k w :
  kernel w = KErr e :: k ->
  (not_would_block e = true ->
   read_loop (S fuel) fd (mk_libev_io a (-1) 0 Qnil) dynamic_len read_to_eof
             stored len total w
   = Raised (SystemCallError e)
            (set_errno e (set_kernel k (set_op_count (op_count w + 1) w)))) /\
  (not_would_block e = false -> sched w = [] -> ev_lookup a (ev_loop w) = None ->
   exists w',
     read_loop (S fuel) fd (mk_libev_io a (-1) 0 Qnil) dynamic_len read_to_eof
               stored len total w = Hang w' /\
     ev_lookup a (ev_loop w') = Some (EvIo fd EV_READ (cur_fiber w))).
Proof.
  intros Hk. split.
  - intros He. cbn [read_loop]. step_bind.
    erewrite bind_of_Done
      by (unfold sys_read; cbn; rewrite Hk; reflexivity).
    cbn [Z.ltb Z.compare]. step_bind. cbn [errno set_errno]. rewrite He.
    reflexivity.
  - intros He Hs Hfresh. cbn [read_loop]. step_bind.
    erewrite bind_of_Done
      by (unfold sys_read; cbn; rewrite Hk; reflexivity).
    cbn [Z.ltb Z.compare]. step_bind. cbn [errno set_errno]. rewrite He.
    match goal with
    | |- exists w', bind _ ?K ?W = _ /\ _ =>
        destruct (libev_wait_fd_with_watcher_hangs fd a EV_READ W K Hs Hfresh)
          as (w' & Hw' & _ & Hl)
    end.
    exists w'. split; [exact Hw'|exact Hl].
Qed.

Lemma Backend_read_fails io fd str length to_eof pos e k w :
  fd_for_reading io = Some fd ->
  nil_or is_string str -> nil_or is_int length -> is_int pos ->
  kernel w = KErr e :: k ->
  (e <> EWOULDBLOCK -> e <> EAGAIN ->
   surfaces (Backend_read io str length to_eof pos w) e w k) /\
  (e = EWOULDBLOCK \/ e = EAGAIN -> sched w = [] -> fresh_addrs w ->
   suspended_on (Backend_read io str length to_eof pos w) fd EV_READ w).
Proof.
  intros Hfd Hstr Hlen Hpos Hk.
  assert (Hprefix : exists stored len,
    Backend_read io str length to_eof pos w =
    bind (with_kernel_fuel (fun fuel =>
            read_loop fuel fd (mk_libev_io (next_addr w) (-1) 0 Qnil)
                      (is_nil length) (RTEST to_eof) stored len 0))
         (fun '(stored, total) =>
            let str := RString (firstn (Z.to_nat (read_buf_pos str
                         match pos with Fixnum p => p | _ => 0 end + total)) stored) in
            if total =? 0 then ret Qnil else ret str)
         (set_next_addr (next_addr w + 1) w)).
  { unfold Backend_read.
    destruct (NUM2INT_ok pos w Hpos) as (p & -> & Hp).
    destruct Hlen as [->|Hlen].
    - cbn [is_nil]. step_bind. erewrite bind_of_Done by exact Hp.
      destruct Hstr as [->|(s & ->)]; cbn [is_nil]; step_bind;
        erewrite bind_of_Done by (apply GetOpenFile_reading; exact Hfd);
        unfold new_libev_io; step_bind; eexists _, _; reflexivity.
    - destruct (NUM2INT_ok length w Hlen) as (n & -> & Hn).
      cbn [is_nil]. erewrite bind_of_Done by exact Hn.
      erewrite bind_of_Done by exact Hp.
      destruct Hstr as [->|(s & ->)]; cbn [is_nil]; step_bind;
        erewrite bind_of_Done by (apply GetOpenFile_reading; exact Hfd);
        unfold new_libev_io; step_bind; eexists _, _; reflexivity. }
  destruct Hprefix as (stored & len & ->).
  set (w0 := set_next_addr (next_addr w + 1) w).
  assert (Hk0 : kernel w0 = KErr e :: k) by exact Hk.
  destruct (read_loop_fails (List.length (kernel w0)) fd (next_addr w)
              (is_nil length) (RTEST to_eof) stored len 0 e k w0 Hk0) as (Hhard & Hblock).
  split.
  - intros H1 H2. eexists. split.
    + apply bind_of_Raised. unfold with_kernel_fuel.
      apply Hhard, not_would_block_true; assumption.
    + repeat split.
  - intros He Hs Hfresh.
    destruct Hblock as (w' & Hw' & Hl).
    + apply not_would_block_false, He.
    + exact Hs.
    + apply Hfresh. apply Nat.le_refl.
    + exists w'. split.
      * apply bind_of_Hang. exact Hw'.
      * exact Hl.
Qed.

Lemma write_loop_fails fuel fd a buf left e k w :
  0 < left ->
  kernel w = KErr e :: k ->
  (not_would_block e = true ->
   write_loop (S fuel) fd (mk_libev_io a (-1) 0 Qnil) buf left w
   = Raised (SystemCallError e)
            (set_errno e (set_kernel k (set_op_count (op_count w + 1) w)))) /\
  (not_would_block e = false -> sched w = [] -> ev_lookup a (ev_loop w) = None ->
   exists w',
     write_loop (S fuel) fd (mk_libev_io a (-1) 0 Qnil) buf left w = Hang w' /\
     ev_lookup a (ev_loop w') = Some (EvIo fd EV_WRITE (cur_fiber w))).
Proof.
  intros Hleft Hk.
  assert (Hpos : (0 <? left) = true) by (apply Z.ltb_lt; exact Hleft).
  split.
  - intros He. cbn [write_loop]. rewrite Hpos. step_bind.
    erewrite bind_of_Done
      by (unfold sys_write; cbn; rewrite Hk; reflexivity).
    cbn [Z.ltb Z.compare]. step_bind. cbn [errno set_errno]. rewrite He.
    reflexivity.
  - intros He Hs Hfresh. cbn [write_loop]. rewrite Hpos. step_bind.
    erewrite bind_of_Done
      by (unfold sys_write; cbn; rewrite Hk; reflexivity).
    cbn [Z.ltb Z.compare]. step_bind. cbn [errno set_errno]. rewrite He.
    match goal with
    | |- exists w', bind _ ?K ?W = _ /\ _ =>
        destruct (libev_wait_fd_with_watcher_hangs fd a EV_WRITE W K Hs Hfresh)
          as (w' & Hw' & _ & Hl)
    end.
    exists w'. split; [exact Hw'|exact Hl].
Qed.

Lemma nonempty_len (s : list byte) : s <> [] -> 0 < bytes_len s.
Proof. destruct s; [congruence|]. intros _. unfold bytes_len. simpl. lia. Qed.

Lemma Backend_write_fails io fd s e k w :
  fd_for_writing io = Some fd ->
  s <> [] ->
  kernel w = KErr e :: k ->
  (e <> EWOULDBLOCK -> e <> EAGAIN ->
   surfaces (Backend_write io (RString s) w) e w k) /\
  (e = EWOULDBLOCK \/ e = EAGAIN -> sched w = [] -> fresh_addrs w ->
   suspended_on (Backend_write io (RString s) w) fd EV_WRITE w).
Proof.
  intros Hfd Hs Hk.
  assert (Hprefix :
    Backend_write io (RString s) w =
    bind (with_kernel_fuel (fun fuel =>
            write_loop fuel fd (mk_libev_io (next_addr w) (-1) 0 Qnil) s (bytes_len s)))
         (fun watcher => snooze_unless_waited (io_fiber watcher) ;;;
                         ret (INT2NUM (bytes_len s)))
         (set_next_addr (next_addr w + 1) w)).
  { unfold Backend_write. step_bind.
    erewrite bind_of_Done by (apply GetOpenFile_writing; exact Hfd).
    unfold new_libev_io. step_bind. reflexivity. }
  rewrite Hprefix.
  set (w0 := set_next_addr (next_addr w + 1) w).
  assert (Hk0 : kernel w0 = KErr e :: k) by exact Hk.
  destruct (write_loop_fails (List.length (kernel w0)) fd (next_addr w)
              s (bytes_len s) e k w0 (nonempty_len s Hs) Hk0) as (Hhard & Hblock).
  split.
  - intros H1 H2. eexists. split.
    + apply bind_of_Raised. unfold with_kernel_fuel.
      apply Hhard, not_would_block_true; assumption.
    + repeat split.
  - intros He Hsch Hfresh.
    destruct Hblock as (w' & Hw' & Hl).
    + apply not_would_block_false, He.
    + exact Hsch.
    + apply Hfresh. apply Nat.le_refl.
    + exists w'. split; [apply bind_of_Hang; exact Hw' | exact Hl].
Qed.

Lemma send_loop_fails fuel fd a buf left flags e k w :
  0 < left ->
  kernel w = KErr e :: k ->
  (not_would_block e = true ->
   send_loop (S fuel) fd (mk_libev_io a (-1) 0 Qnil) buf left flags w
   = Raised (SystemCallError e)
            (set_errno e (set_kernel k (set_op_count (op_count w + 1) w)))) /\
  (not_would_block e = false -> sched w = [] -> ev_lookup a (ev_loop w) = None ->
   exists w',
     send_loop (S fuel) fd (mk_libev_io a (-1) 0 Qnil) buf left flags w = Hang w' /\
     ev_lookup a (ev_loop w') = Some (EvIo fd EV_WRITE (cur_fiber w))).
Proof.
  intros Hleft Hk.
  assert (Hpos : (0 <? left) = true) by (apply Z.ltb_lt; exact Hleft).
  split.
  - intros He. cbn [send_loop]. rewrite Hpos. step_bind.
    erewrite bind_of_Done
      by (unfold sys_send, sys_write; cbn; rewrite Hk; reflexivity).
    cbn [Z.ltb Z.compare]. step_bind. cbn [errno set_errno]. rewrite He.
    reflexivity.
  - intros He Hs Hfresh. cbn [send_loop]. rewrite Hpos. step_bind.
    erewrite bind_of_Done
      by (unfold sys_send, sys_write; cbn; rewrite Hk; reflexivity).
    cbn [Z.ltb Z.compare]. step_bind. cbn [errno set_errno]. rewrite He.
    match goal with
    | |- exists w', bind _ ?K ?W = _ /\ _ =>
        destruct (libev_wait_fd_with_watcher_hangs fd a EV_WRITE W K Hs Hfresh)
          as (w' & Hw' & _ & Hl)
    end.
    exists w'. split; [exact Hw'|exact Hl].
Qed.

Lemma Backend_send_fails io fd s flags e k w :
  fd_for_writing io = Some fd ->
  s <> [] ->
  is_int flags ->
  kernel w = KErr e :: k ->
  (e <> EWOULDBLOCK -> e <> EAGAIN ->
   surfaces (Backend_send io (RString s) flags w) e w k) /\
  (e = EWOULDBLOCK \/ e = EAGAIN -> sched w = [] -> fresh_addrs w ->
   suspended_on (Backend_send io (RString s) flags w) fd EV_WRITE w).
Proof.
  intros Hfd Hs Hflags Hk.
  destruct (NUM2INT_ok flags w Hflags) as (fl & -> & Hfl).
  assert (Hprefix :
    Backend_send io (RString s) (Fixnum fl) w =
    bind (with_kernel_fuel (fun fuel =>
            send_loop fuel fd (mk_libev_io (next_addr w) (-1) 0 Qnil) s (bytes_len s) fl))
         (fun watcher => snooze_unless_waited (io_fiber watcher) ;;;
                         ret (INT2NUM (bytes_len s)))
         (set_next_addr (next_addr w + 1) w)).
  { unfold Backend_send. step_bind. erewrite bind_of_Done by exact Hfl.
    erewrite bind_of_Done by (apply GetOpenFile_writing; exact Hfd).
    unfold new_libev_io. step_bind. reflexivity. }
  rewrite Hprefix.
  set (w0 := set_next_addr (next_addr w + 1) w).
  assert (Hk0 : kernel w0 = KErr e :: k) by exact Hk.
  destruct (send_loop_fails (List.length (kernel w0)) fd (next_addr w)
              s (bytes_len s) fl e k w0 (nonempty_len s Hs) Hk0) as (Hhard & Hblock).
  split.
  - intros H1 H2. eexists. split.
    + apply bind_of_Raised. unfold with_kernel_fuel.
      apply Hhard, not_would_block_true; assumption.
    + repeat split.
  - intros He Hsch Hfresh.
    destruct Hblock as (w' & Hw' & Hl).
    + apply not_would_block_false, He.
    + exact Hsch.
    + apply Hfresh. apply Nat.le_refl.
    + exists w'. split; [apply bind_of_Hang; exact Hw' | exact Hl].
Qed.

Lemma Backend_connect_fails sock fd host port e k w :
  fd_for_reading sock = Some fd ->
  is_string host -> is_int port ->
  kernel w = KErr e :: k ->
  (e <> EINPROGRESS ->
   surfaces (Backend_connect sock host port w) e w k) /\
  (e = EINPROGRESS -> sched w = [] -> fresh_addrs w ->
   suspended_on (Backend_connect sock host port w) fd EV_WRITE w).
Proof.
  intros Hfd (h & ->) Hport Hk.
  set (w0 := set_next_addr (next_addr w + 1) w).
  destruct (NUM2INT_ok port w0 Hport) as (p & -> & Hp).
  assert (Hprefix : forall B (K : unit -> M B) r,
    (forall K', bind
       (e' <- get_errno ;;
        if negb (e' =? EINPROGRESS) then rb_syserr_fail e'
        else
          '(switchpoint_result, watcher) <-
             libev_wait_fd_with_watcher fd (mk_libev_io (next_addr w) (-1) 0 Qnil) EV_WRITE ;;
          if TEST_EXCEPTION switchpoint_result
          then RAISE_EXCEPTION switchpoint_result
          else ret tt) K'
       (set_errno e (set_kernel k (set_op_count (op_count w0 + 1) w0))) = r) ->
    Backend_connect sock (RString h) (Fixnum p) w = r).
  { intros B K r Hr. unfold Backend_connect. step_bind.
    erewrite bind_of_Done by (apply GetOpenFile_reading; exact Hfd).
    unfold new_libev_io. step_bind. fold w0.
    erewrite bind_of_Done by exact Hp.
    step_bind.
    erewrite bind_of_Done
      by (unfold sys_connect; cbn; rewrite Hk; reflexivity).
    cbn [Z.ltb Z.compare]. apply Hr. }
  split.
  - intros He. eexists. split.
    + apply (Hprefix unit (fun _ => ret tt)). intros K'.
      apply bind_of_Raised. step_bind. cbn [errno set_errno].
      destruct (Z.eqb_spec e EINPROGRESS); [contradiction|]. reflexivity.
    + repeat split.
  - intros -> Hs Hfresh.
    assert (Hs0 : sched (set_errno EINPROGRESS
                    (set_kernel k (set_op_count (op_count w0 + 1) w0))) = [])
      by exact Hs.
    assert (Hf0 : ev_lookup (next_addr w) (ev_loop (set_errno EINPROGRESS
                    (set_kernel k (set_op_count (op_count w0 + 1) w0)))) = None)
      by (apply Hfresh, Nat.le_refl).
    destruct (libev_wait_fd_with_watcher_hangs fd (next_addr w) EV_WRITE _
                (fun '(switchpoint_result, watcher) =>
                   if TEST_EXCEPTION switchpoint_result
                   then RAISE_EXCEPTION switchpoint_result
                   else ret tt) Hs0 Hf0) as (w' & Hw' & _ & Hl).
    exists w'. split; [|exact Hl].
    apply (Hprefix unit (fun _ => ret tt)). intros K'.
    apply bind_of_Hang. step_bind. cbn [errno set_errno].
    exact Hw'.
Qed.

(** ** The RW watcher *)

Lemma ev_start_fresh a ew w :
  ev_lookup a (ev_loop w) = None ->
  ev_start a ew w = Done tt (set_ev_loop (ev_loop w ++ [(a, ew)]) w).
Proof. intros H. unfold ev_start, modify. rewrite H. reflexivity. Qed.

(** The world in which the fiber awaits after the RW primitive has started
    both watchers. *)
Lemma libev_wait_rw_registers {B : Type} r_fd w_fd a w (K : VALUE -> M B) :
  r_fd <> -1 -> w_fd <> -1 ->
  ev_lookup (rw_r a) (ev_loop w) = None ->
  ev_lookup (rw_w a) (ev_loop w) = None ->
  exists w1,
    bind (libev_wait_rw_fd_with_watcher r_fd w_fd a) K w =
    bind (switchpoint_result <- backend_await ;;
          ev_stop (rw_r a) ;;; ev_stop (rw_w a) ;;; ret switchpoint_result) K w1 /\
    same_os w w1 /\ sched w1 = sched w /\ runqueue w1 = runqueue w /\
    ev_lookup (rw_r a) (ev_loop w1) = Some (EvRwIo r_fd EV_READ a) /\
    ev_lookup (rw_w a) (ev_loop w1) = Some (EvRwIo w_fd EV_WRITE a) /\
    rw_ctxs w1 a =
      mk_rw_ctx 2 (if is_nil (ctx_fiber (rw_ctxs w a)) then cur_fiber w
                   else ctx_fiber (rw_ctxs w a)).
Proof.
  intros Hr Hw Hfr Hfw.
  eexists. split.
  - unfold libev_wait_rw_fd_with_watcher.
    destruct (Z.eqb_spec r_fd (-1)) as [|_]; [contradiction|].
    destruct (Z.eqb_spec w_fd (-1)) as [|_]; [contradiction|].
    cbn [negb].
    unfold bind at 1. unfold bind at 1. unfold get_rw_ctx at 1. unfold get at 1.
    unfold bind at 1. unfold rb_fiber_current at 1. unfold get at 1.
    unfold bind at 1. unfold set_rw_ctx at 1. unfold modify at 1.
    unfold bind at 1. unfold bind at 1.
    rewrite ev_start_fresh by exact Hfr.
    unfold bind at 1. unfold get_rw_ctx at 1. unfold get at 1.
    unfold set_rw_ctx at 1. unfold modify at 1.
    unfold bind at 1. unfold bind at 1.
    rewrite ev_start_fresh
      by (cbn; rewrite ev_lookup_app_other by (unfold rw_w, rw_r; lia); exact Hfw).
    unfold bind at 1. unfold get_rw_ctx at 1. unfold get at 1.
    unfold set_rw_ctx at 1. unfold modify at 1.
    cbn [negb]. reflexivity.
  - cbn. unfold upd. rewrite !Nat.eqb_refl. cbn.
    split; [unfold same_os; repeat split|].
    split; [reflexivity|]. split; [reflexivity|].
    split; [|split; [|reflexivity]].
    + rewrite ev_lookup_app_other by (unfold rw_w, rw_r; lia).
      apply ev_lookup_started, Hfr.
    + apply ev_lookup_started.
      rewrite ev_lookup_app_other by (unfold rw_w, rw_r; lia). exact Hfw.
Qed.

Lemma bind_ret_r {A : Type} (m : M A) w : bind m ret w = m w.
Proof. unfold bind, ret. destruct (m w); reflexivity. Qed.

Lemma count_fires_cons ev evs :
  count_fires (ev :: evs) = ((if is_fire ev then 1 else 0) + count_fires evs)%nat.
Proof. unfold count_fires. simpl. destruct (is_fire ev); reflexivity. Qed.

(** As long as no more callbacks have run than the refcount allows, the
    fiber is not in the run queue and no [Run] resumes it. *)
Lemma rw_callbacks_do_not_wake a r_fd w_fd evs : forall w,
  rw_events_only a evs ->
  ev_lookup (rw_r a) (ev_loop w) = Some (EvRwIo r_fd EV_READ a) ->
  ev_lookup (rw_w a) (ev_loop w) = Some (EvRwIo w_fd EV_WRITE a) ->
  Z.of_nat (count_fires evs) <= ref_count (rw_ctxs w a) ->
  runqueue w = [] ->
  exists w', switch_fiber_loop evs w = Hang w' /\ runqueue w' = [] /\
             ev_loop w' = ev_loop w /\
             ref_count (rw_ctxs w' a)
               = ref_count (rw_ctxs w a) - Z.of_nat (count_fires evs).
Proof.
  induction evs as [|ev evs IH]; intros w Hevs Hlr Hlw Hcount Hq.
  - exists (set_sched [] w). cbn. repeat split; try assumption.
    unfold count_fires. cbn. lia.
  - inversion Hevs as [|ev' evs' Hev Hevs']; subst.
    rewrite count_fires_cons in Hcount.
    assert (Hfire : forall x,
      ev_lookup x (ev_loop w) = Some (EvRwIo (if Nat.eqb x (rw_r a) then r_fd else w_fd)
                                             (if Nat.eqb x (rw_r a) then EV_READ else EV_WRITE) a) ->
      ev = Fire x ->
      exists w', switch_fiber_loop (ev :: evs) w = Hang w' /\ runqueue w' = [] /\
                 ev_loop w' = ev_loop w /\
                 ref_count (rw_ctxs w' a)
                   = ref_count (rw_ctxs w a) - Z.of_nat (count_fires (ev :: evs))).
    { intros x Hx ->. change (is_fire (Fire x)) with true in Hcount.
      cbv iota in Hcount.
      cbn [switch_fiber_loop]. unfold ev_invoke. rewrite Hx.
      unfold Backend_rw_io_callback.
      destruct (Z.eqb_spec (ref_count (rw_ctxs w a)) 0) as [H0|_]; [lia|].
      match goal with
      | |- exists w', switch_fiber_loop evs ?W = _ /\ _ =>
          destruct (IH W) as (w' & Hrun & Hq' & Hl' & Hc')
      end; try assumption.
      - cbn [rw_ctxs set_rw_ctxs]. unfold upd. rewrite Nat.eqb_refl.
        cbn [ref_count]. rewrite Nat2Z.inj_add in Hcount.
        change (Z.of_nat 1) with 1 in Hcount. clear -Hcount. lia.
      - exists w'. split; [exact Hrun|]. split; [exact Hq'|].
        split; [exact Hl'|].
        rewrite Hc'. rewrite count_fires_cons. cbn. unfold upd.
        rewrite Nat.eqb_refl. cbn. lia. }
    destruct Hev as [->|[->| ->]].
    + change (is_fire Run) with false in Hcount. cbv iota in Hcount.
      rewrite Nat.add_0_l in Hcount.
      cbn [switch_fiber_loop]. rewrite Hq.
      destruct (IH w) as (w' & Hrun & Hq' & Hl' & Hc'); try assumption.
      exists w'. split; [exact Hrun|]. split; [exact Hq'|]. split; [exact Hl'|].
      rewrite Hc', count_fires_cons.
      change (is_fire Run) with false. cbv iota. rewrite Nat.add_0_l.
      reflexivity.
    + apply (Hfire (rw_r a)); [|reflexivity].
      rewrite Nat.eqb_refl. exact Hlr.
    + apply (Hfire (rw_w a)); [|reflexivity].
      replace (Nat.eqb (rw_w a) (rw_r a)) with false
        by (symmetry; apply Nat.eqb_neq; unfold rw_w, rw_r; lia).
      exact Hlw.
Qed.

(** C1 (amended).  With both watchers registered, a wait through the RW
    primitive is not ended by the first watcher callback: while fewer
    callbacks have fired than watchers were registered, the fiber is not in
    the run queue and stays suspended, however often the scheduler runs.
    Each callback counts the shared refcount down by one. *)
Theorem rw_wait_not_woken_by_first_callback r_fd w_fd a w :
  r_fd <> -1 -> w_fd <> -1 ->
  ev_lookup (rw_r a) (ev_loop w) = None ->
  ev_lookup (rw_w a) (ev_loop w) = None ->
  runqueue w = [] ->
  rw_events_only a (sched w) ->
  (count_fires (sched w) < 2)%nat ->
  exists w',
    libev_wait_rw_fd_with_watcher r_fd w_fd a w = Hang w' /\
    runqueue w' = [] /\
    ev_lookup (rw_r a) (ev_loop w') = Some (EvRwIo r_fd EV_READ a) /\
    ev_lookup (rw_w a) (ev_loop w') = Some (EvRwIo w_fd EV_WRITE a) /\
    ref_count (rw_ctxs w' a) = 2 - Z.of_nat (count_fires (sched w)).
Proof.
  intros Hr Hw Hfr Hfw Hq Hevs Hcount.
  destruct (libev_wait_rw_registers r_fd w_fd a w ret Hr Hw Hfr Hfw)
    as (w1 & Heq & _ & Hs1 & Hq1 & Hlr & Hlw & Hctx).
  rewrite bind_ret_r in Heq. rewrite Heq.
  destruct (rw_callbacks_do_not_wake a r_fd w_fd (sched w1) w1)
    as (w' & Hrun & Hq' & Hl' & Hc'); try assumption.
  - rewrite Hs1. exact Hevs.
  - rewrite Hctx, Hs1. cbn. lia.
  - rewrite Hq1. exact Hq.
  - exists w'. split.
    + apply bind_of_Hang, bind_of_Hang. exact Hrun.
    + rewrite Hl', Hc', Hctx, Hs1. cbn. repeat split; assumption.
Qed.

Lemma rw_wait_not_woken_by_first_callback_witness :
  let w := set_sched [Run; Fire 0%nat; Run] world0 in
  exists w',
    libev_wait_rw_fd_with_watcher 5 6 0%nat w = Hang w' /\
    runqueue w' = [] /\
    ev_lookup (rw_r 0) (ev_loop w') = Some (EvRwIo 5 EV_READ 0) /\
    ev_lookup (rw_w 0) (ev_loop w') = Some (EvRwIo 6 EV_WRITE 0) /\
    ref_count (rw_ctxs w' 0%nat) = 2 - Z.of_nat (count_fires (sched w)).
Proof.
  intros w.
  apply (rw_wait_not_woken_by_first_callback 5 6 0%nat w).
  - discriminate.
  - discriminate.
  - reflexivity.
  - reflexivity.
  - reflexivity.
  - constructor; [left; reflexivity|].
    constructor; [right; left; reflexivity|].
    constructor; [left; reflexivity|]. constructor.
  - cbn. lia.
Defined.

(** C1 as stated fails: splice would block, both watchers are started, the
    read watcher fires (or the write watcher), the scheduler runs, and the
    fiber is still not in the run queue: the call stays suspended. *)
Lemma rw_first_callback_counterexample :
  (exists w',
     Backend_splice (RFile 5 None) (RFile 6 None) (Fixnum 10) (splice_run (rw_r 0))
       = Hang w' /\
     ev_loop w' = [(rw_r 0, EvRwIo 5 EV_READ 0); (rw_w 0, EvRwIo 6 EV_WRITE 0)] /\
     sched w' = [] /\
     ref_count (rw_ctxs w' 0%nat) = 1 /\
     is_runnable (RFiber 0) w' = false) /\
  (exists w',
     Backend_splice (RFile 5 None) (RFile 6 None) (Fixnum 10) (splice_run (rw_w 0))
       = Hang w' /\
     ev_loop w' = [(rw_r 0, EvRwIo 5 EV_READ 0); (rw_w 0, EvRwIo 6 EV_WRITE 0)] /\
     sched w' = [] /\
     ref_count (rw_ctxs w' 0%nat) = 1 /\
     is_runnable (RFiber 0) w' = false).
Proof.
  split; eexists; (split; [vm_compute; reflexivity|]); vm_compute; repeat split.
Qed.

(** What does end the wait: the callback that finds the refcount at zero,
    which is the third one when two watchers were started. *)
Example rw_third_callback_wakes :
  let w := set_inbuf (upd Z.eqb (fun _ => []) 5 hello)
             (set_sched [Fire 0%nat; Fire 1%nat; Run; Fire 0%nat; Run]
                (set_kernel [KErr EAGAIN; KOk 7] world0)) in
  exists w',
    Backend_splice (RFile 5 None) (RFile 6 None) (Fixnum 10) w
      = Done (Fixnum 5) w' /\
    outbuf w' 6 = hello /\ ev_loop w' = [].
Proof.
  eexists. split; [vm_compute; reflexivity|]. vm_compute. split; reflexivity.
Qed.

Lemma libev_wait_rw_hangs {B : Type} r_fd w_fd a w (K : VALUE -> M B) :
  r_fd <> -1 -> w_fd <> -1 ->
  ev_lookup (rw_r a) (ev_loop w) = None ->
  ev_lookup (rw_w a) (ev_loop w) = None ->
  sched w = [] ->
  exists w',
    bind (libev_wait_rw_fd_with_watcher r_fd w_fd a) K w = Hang w' /\
    ev_lookup (rw_r a) (ev_loop w') = Some (EvRwIo r_fd EV_READ a) /\
    ev_lookup (rw_w a) (ev_loop w') = Some (EvRwIo w_fd EV_WRITE a).
Proof.
  intros Hr Hw Hfr Hfw Hs.
  destruct (libev_wait_rw_registers r_fd w_fd a w K Hr Hw Hfr Hfw)
    as (w1 & Heq & _ & Hs1 & _ & Hlr & Hlw & _).
  exists (set_sched [] w1). split; [|split; assumption].
  rewrite Heq. apply bind_of_Hang, bind_of_Hang.
  unfold backend_await, switch_fiber. rewrite Hs1, Hs. reflexivity.
Qed.

Lemma splice_loop_fails fuel src_fd dest_fd maxlen a e k w :
  is_int maxlen ->
  kernel w = KErr e :: k ->
  (not_would_block e = true ->
   splice_loop (S fuel) src_fd dest_fd maxlen a w
   = Raised (SystemCallError e)
            (set_errno e (set_kernel k (set_op_count (op_count w + 1) w)))) /\
  (not_would_block e = false -> sched w = [] ->
   src_fd <> -1 -> dest_fd <> -1 ->
   ev_lookup (rw_r a) (ev_loop w) = None ->
   ev_lookup (rw_w a) (ev_loop w) = None ->
   exists w',
     splice_loop (S fuel) src_fd dest_fd maxlen a w = Hang w' /\
     ev_lookup (rw_r a) (ev_loop w') = Some (EvRwIo src_fd EV_READ a) /\
     ev_lookup (rw_w a) (ev_loop w') = Some (EvRwIo dest_fd EV_WRITE a)).
Proof.
  intros Hmax Hk.
  destruct (NUM2INT_ok maxlen (set_op_count (op_count w + 1) w) Hmax) as (m & -> & Hm).
  split.
  - intros He. cbn [splice_loop]. step_bind.
    erewrite bind_of_Done by exact Hm.
    erewrite bind_of_Done
      by (unfold sys_splice; cbn; rewrite Hk; reflexivity).
    cbn [Z.ltb Z.compare]. step_bind. cbn [errno set_errno]. rewrite He.
    reflexivity.
  - intros He Hs Hsrc Hdest Hfr Hfw. cbn [splice_loop]. step_bind.
    erewrite bind_of_Done by exact Hm.
    erewrite bind_of_Done
      by (unfold sys_splice; cbn; rewrite Hk; reflexivity).
    cbn [Z.ltb Z.compare]. step_bind. cbn [errno set_errno]. rewrite He.
    match goal with
    | |- exists w', bind _ ?K ?W = _ /\ _ =>
        apply (libev_wait_rw_hangs src_fd dest_fd a W K Hsrc Hdest Hfr Hfw Hs)
    end.
Qed.

Lemma Backend_splice_fails src dest src_fd dest_fd maxlen e k w :
  fd_for_reading src = Some src_fd ->
  fd_for_writing dest = Some dest_fd ->
  is_int maxlen ->
  kernel w = KErr e :: k ->
  (e <> EWOULDBLOCK -> e <> EAGAIN ->
   surfaces (Backend_splice src dest maxlen w) e w k) /\
  (e = EWOULDBLOCK \/ e = EAGAIN -> sched w = [] -> fresh_addrs w ->
   src_fd <> -1 -> dest_fd <> -1 ->
   suspended_on_rw (Backend_splice src dest maxlen w) src_fd dest_fd w).
Proof.
  intros Hsrc Hdest Hmax Hk.
  set (a := next_addr w).
  set (w0 := set_rw_ctxs (upd Nat.eqb (rw_ctxs w) a
                            (mk_rw_ctx (ref_count (rw_ctxs w a)) Qnil))
               (set_next_addr (next_addr w + 2) w)).
  assert (Hprefix :
    Backend_splice src dest maxlen w =
    bind (with_kernel_fuel (fun fuel => splice_loop fuel src_fd dest_fd maxlen a))
         (fun len => ctx <- get_rw_ctx a ;;
                     snooze_unless_waited (ctx_fiber ctx) ;;; ret (INT2NUM len))
         w0).
  { unfold Backend_splice.
    erewrite bind_of_Done by (apply GetOpenFile_reading; exact Hsrc).
    erewrite bind_of_Done by (apply GetOpenFile_writing; exact Hdest).
    unfold new_libev_rw_io. step_bind. reflexivity. }
  rewrite Hprefix.
  assert (Hk0 : kernel w0 = KErr e :: k) by exact Hk.
  destruct (splice_loop_fails (List.length (kernel w0)) src_fd dest_fd maxlen a
              e k w0 Hmax Hk0) as (Hhard & Hblock).
  split.
  - intros H1 H2. eexists. split.
    + apply bind_of_Raised. unfold with_kernel_fuel.
      apply Hhard, not_would_block_true; assumption.
    + repeat split.
  - intros He Hs Hfresh Hs1 Hd1.
    destruct Hblock as (w' & Hw' & Hlr & Hlw); try assumption.
    + apply not_would_block_false, He.
    + apply Hfresh. unfold rw_r. apply Nat.le_refl.
    + apply Hfresh. unfold rw_w, a. lia.
    + exists w'. split; [apply bind_of_Hang; exact Hw' | split; assumption].
Qed.

Lemma splice_to_eof_loop_fails fuel src_fd dest_fd maxlen a total e k w :
  is_int maxlen ->
  kernel w = KErr e :: k ->
  (not_would_block e = true ->
   splice_to_eof_loop (S fuel) src_fd dest_fd maxlen a total w
   = Raised (SystemCallError e)
            (set_errno e (set_kernel k (set_op_count (op_count w + 1) w)))) /\
  (not_would_block e = false -> sched w = [] ->
   src_fd <> -1 -> dest_fd <> -1 ->
   ev_lookup (rw_r a) (ev_loop w) = None ->
   ev_lookup (rw_w a) (ev_loop w) = None ->
   exists w',
     splice_to_eof_loop (S fuel) src_fd dest_fd maxlen a total w = Hang w' /\
     ev_lookup (rw_r a) (ev_loop w') = Some (EvRwIo src_fd EV_READ a) /\
     ev_lookup (rw_w a) (ev_loop w') = Some (EvRwIo dest_fd EV_WRITE a)).
Proof.
  intros Hmax Hk.
  destruct (NUM2INT_ok maxlen (set_op_count (op_count w + 1) w) Hmax) as (m & -> & Hm).
  split.
  - intros He. cbn [splice_to_eof_loop]. step_bind.
    erewrite bind_of_Done by exact Hm.
    erewrite bind_of_Done
      by (unfold sys_splice; cbn; rewrite Hk; reflexivity).
    cbn [Z.ltb Z.compare]. step_bind. cbn [errno set_errno]. rewrite He.
    reflexivity.
  - intros He Hs Hsrc Hdest Hfr Hfw. cbn [splice_to_eof_loop]. step_bind.
    erewrite bind_of_Done by exact Hm.
    erewrite bind_of_Done
      by (unfold sys_splice; cbn; rewrite Hk; reflexivity).
    cbn [Z.ltb Z.compare]. step_bind. cbn [errno set_errno]. rewrite He.
    match goal with
    | |- exists w', bind _ ?K ?W = _ /\ _ =>
        apply (libev_wait_rw_hangs src_fd dest_fd a W K Hsrc Hdest Hfr Hfw Hs)
    end.
Qed.

Lemma Backend_splice_to_eof_fails src dest src_fd dest_fd maxlen e k w :
  fd_for_reading src = Some src_fd ->
  fd_for_writing dest = Some dest_fd ->
  is_int maxlen ->
  kernel w = KErr e :: k ->
  (e <> EWOULDBLOCK -> e <> EAGAIN ->
   surfaces (Backend_splice_to_eof src dest maxlen w) e w k) /\
  (e = EWOULDBLOCK \/ e = EAGAIN -> sched w = [] -> fresh_addrs w ->
   src_fd <> -1 -> dest_fd <> -1 ->
   suspended_on_rw (Backend_splice_to_eof src dest maxlen w) src_fd dest_fd w).
Proof.
  intros Hsrc Hdest Hmax Hk.
  set (a := next_addr w).
  set (w0 := set_rw_ctxs (upd Nat.eqb (rw_ctxs w) a
                            (mk_rw_ctx (ref_count (rw_ctxs w a)) Qnil))
               (set_next_addr (next_addr w + 2) w)).
  assert (Hprefix :
    Backend_splice_to_eof src dest maxlen w =
    bind (with_kernel_fuel (fun fuel =>
            splice_to_eof_loop fuel src_fd dest_fd maxlen a 0))
         (fun total => ctx <- get_rw_ctx a ;;
                       snooze_unless_waited (ctx_fiber ctx) ;;; ret (INT2NUM total))
         w0).
  { unfold Backend_splice_to_eof.
    erewrite bind_of_Done by (apply GetOpenFile_reading; exact Hsrc).
    erewrite bind_of_Done by (apply GetOpenFile_writing; exact Hdest).
    unfold new_libev_rw_io. step_bind. reflexivity. }
  rewrite Hprefix.
  assert (Hk0 : kernel w0 = KErr e :: k) by exact Hk.
  destruct (splice_to_eof_loop_fails (List.length (kernel w0)) src_fd dest_fd maxlen a
              0 e k w0 Hmax Hk0) as (Hhard & Hblock).
  split.
  - intros H1 H2. eexists. split.
    + apply bind_of_Raised. unfold with_kernel_fuel.
      apply Hhard, not_would_block_true; assumption.
    + repeat split.
  - intros He Hs Hfresh Hs1 Hd1.
    destruct Hblock as (w' & Hw' & Hlr & Hlw); try assumption.
    + apply not_would_block_false, He.
    + apply Hfresh. unfold rw_r. apply Nat.le_refl.
    + apply Hfresh. unfold rw_w, a. lia.
    + exists w'. split; [apply bind_of_Hang; exact Hw' | split; assumption].
Qed.







(** ** Backend_read: what comes back *)

Lemma sys_read_Done fd count w n data w' :
  sys_read fd count w = Done (n, data) w' ->
  (exists e, n = -1 /\ data = [] /\ kernel w = KErr e :: kernel w' /\
             inbuf w' = inbuf w) \/
  (exists a, kernel w = KOk a :: kernel w' /\
             n = bytes_len data /\
             data = firstn (Z.to_nat (Z.max 0 (Z.min a (to_size_t count)))) (inbuf w fd) /\
             inbuf w fd = data ++ inbuf w' fd).
Proof.
  unfold sys_read. destruct (kernel w) as [|[a|e] k] eqn:Hk; intros H;
    inversion H; subst; clear H.
  - right. exists a. cbn. repeat split.
    unfold upd. rewrite Z.eqb_refl.
    destruct (moved_prefix a count (inbuf w fd)) as (Hp & _). exact Hp.
  - left. exists e. cbn. repeat split.
Qed.

Lemma first_read_count_skip w w' fd count e :
  kernel w = KErr e :: kernel w' -> inbuf w' = inbuf w ->
  first_read_count w fd count = first_read_count w' fd count.
Proof.
  intros Hk Hin. unfold first_read_count. rewrite Hk, Hin. reflexivity.
Qed.

Lemma read_loop_returns fuel : forall fd watcher dynamic_len read_to_eof stored len total w,
  returns (read_loop fuel fd watcher dynamic_len read_to_eof stored len total) w
    (fun r w' =>
       exists n data,
         first_read_count w fd (len - total) = Some n /\
         fst r = stored ++ data /\ snd r = total + bytes_len data /\
         inbuf w fd = data ++ inbuf w' fd /\
         (n = 0 -> data = []) /\ (n <> 0 -> data <> [])).
Proof.
  induction fuel as [|fuel IH];
    intros fd watcher dynamic_len read_to_eof stored len total w; simpl.
  - apply returns_hang.
  - apply returns_bind, returns_modify.
    apply returns_bind. intros [n data] w1 Hread.
    apply sys_read_Done in Hread
      as [(e & -> & -> & Hk & Hin)|(a & Hk & Hn & Hdata & Hin)].
    + cbn [Z.ltb Z.compare]. apply returns_bind, returns_get.
      destruct (not_would_block _); [apply returns_raise|].
      apply returns_bind, returns_libev_wait_fd_with_watcher.
      intros v wt w2 Hw2.
      destruct (TEST_EXCEPTION v); [apply returns_raise|].
      eapply returns_weaken; [apply IH|].
      intros r w3 (n & data & Hfirst & Hst & Htot & Hin3 & Hz & Hnz).
      exists n, data. repeat split; try assumption.
      * destruct Hw2 as (Hk2 & _ & Hin2 & _).
        rewrite <- Hfirst. unfold first_read_count.
        cbn [kernel set_op_count inbuf] in Hk |- *.
        rewrite Hk, Hk2, Hin2, Hin. reflexivity.
      * destruct Hw2 as (_ & _ & Hin2 & _).
        rewrite <- Hin3, Hin2, Hin. reflexivity.
    + assert (Hfirst : first_read_count w fd (len - total) = Some n).
      { unfold first_read_count. cbn [kernel set_op_count inbuf] in Hk, Hdata.
        rewrite Hk. cbn [first_success]. rewrite <- Hdata, Hn. reflexivity. }
      cbn [inbuf set_op_count] in Hin.
      pose proof (bytes_len_nonneg data) as Hnn.
      destruct (n <? 0) eqn:Hneg; [apply Z.ltb_lt in Hneg; lia|].
      apply returns_bind, returns_snooze. intros v w2 Hw2.
      destruct Hw2 as (_ & _ & Hin2 & _).
      destruct (TEST_EXCEPTION v); [apply returns_raise|].
      assert (Hdz : n = 0 -> data = []).
      { intros H0. destruct data; [reflexivity|].
        unfold bytes_len in Hn. simpl in Hn. lia. }
      assert (Hdnz : n <> 0 -> data <> []).
      { intros H0 ->. apply H0. exact Hn. }
      destruct (Z.eqb_spec n 0) as [Hn0|Hn0].
      { apply returns_ret. exists n, data.
        rewrite (Hdz Hn0), Hin2 in *. cbn [fst snd].
        repeat split; try assumption. unfold bytes_len. cbn. lia. }
      assert (Hbreak :
        exists n0 data0,
          first_read_count w fd (len - total) = Some n0 /\
          fst (stored ++ data, total + n) = stored ++ data0 /\
          snd (stored ++ data, total + n) = total + bytes_len data0 /\
          inbuf w fd = data0 ++ inbuf w2 fd /\
          (n0 = 0 -> data0 = []) /\ (n0 <> 0 -> data0 <> [])).
      { exists n, data. rewrite Hin2.
        repeat split; try assumption. cbn. rewrite Hn. reflexivity. }
      assert (Hloop : forall len',
        returns (read_loop fuel fd watcher dynamic_len read_to_eof
                           (stored ++ data) len' (total + n)) w2
          (fun r w' =>
             exists n0 data0,
               first_read_count w fd (len - total) = Some n0 /\
               fst r = stored ++ data0 /\ snd r = total + bytes_len data0 /\
               inbuf w fd = data0 ++ inbuf w' fd /\
               (n0 = 0 -> data0 = []) /\ (n0 <> 0 -> data0 <> []))).
      { intros len'. eapply returns_weaken; [apply IH|].
        intros r w3 (n' & data' & _ & Hst & Htot & Hin3 & _ & _).
        exists n, (data ++ data'). repeat split.
        - exact Hfirst.
        - rewrite Hst, app_assoc. reflexivity.
        - rewrite Htot, bytes_len_app. lia.
        - rewrite <- app_assoc, <- Hin3, Hin2. exact Hin.
        - intros H. contradiction.
        - intros _ H. apply app_eq_nil in H as (H & _).
          apply (Hdnz Hn0). exact H. }
      destruct (negb read_to_eof); [apply returns_ret; exact Hbreak|].
      destruct (total + n =? len).
      * destruct (negb dynamic_len); [apply returns_ret; exact Hbreak|].
        apply Hloop.
      * apply Hloop.
Qed.

Lemma returns_NUM2INT v w (Q : Z -> World -> Prop) :
  (forall n, v = Fixnum n -> Q n w) -> returns (NUM2INT v) w Q.
Proof.
  intros HQ. destruct v; simpl; try apply returns_raise.
  destruct (_ && _); [|apply returns_raise].
  apply returns_ret, HQ. reflexivity.
Qed.

Lemma read_buf_pos_nonneg str pos : 0 <= read_buf_pos str pos.
Proof.
  unfold read_buf_pos. destruct (is_nil str); [lia|].
  assert (H : 0 <= RSTRING_LEN str).
  { unfold RSTRING_LEN. destruct str; lia. }
  destruct (pos <? 0) eqn:H1; cbn [orb]; [exact H|].
  destruct (RSTRING_LEN str <? pos); [exact H|].
  apply Z.ltb_ge in H1. exact H1.
Qed.

Lemma read_buf_pos_le str pos : read_buf_pos str pos <= bytes_len (RSTRING_PTR str).
Proof.
  unfold read_buf_pos, bytes_len. destruct str; cbn; try lia;
    (destruct (pos <? 0) eqn:H1; cbn [orb]; [lia|];
     match goal with |- context [?a <? pos] => destruct (a <? pos) eqn:H2 end;
     [lia|]; apply Z.ltb_ge in H2; exact H2).
Qed.

Lemma Backend_read_returns io fd str length to_eof p w :
  fd_for_reading io = Some fd ->
  nonneg_length length ->
  returns (Backend_read io str length to_eof (Fixnum p)) w
    (fun v w' =>
       exists n data,
         first_read_count w fd (requested_len length) = Some n /\
         inbuf w fd = data ++ inbuf w' fd /\
         (n = 0 -> v = Qnil) /\
         (n <> 0 -> data <> [] /\ v = RString (kept_prefix str p ++ data))).
Proof.
  intros Hfd Hlen. unfold Backend_read.
  apply returns_bind.
  assert (Hrest : forall len, len = requested_len length ->
    returns
      (buf_pos <- NUM2INT (Fixnum p) ;;
       contents <- (if is_nil str then ret [] else StringValuePtr str) ;;
       fd0 <- GetOpenFile
                (if is_nil (rb_ivar_get_io io) then io else rb_ivar_get_io io) ;;
       watcher <- new_libev_io ;;
       ' (stored, total) <-
         with_kernel_fuel (fun fuel =>
           read_loop fuel fd0 watcher (is_nil length) (RTEST to_eof)
             (firstn (Z.to_nat (read_buf_pos str buf_pos)) contents) len 0) ;;
       (if total =? 0
        then ret Qnil
        else ret (RString (firstn (Z.to_nat (read_buf_pos str buf_pos + total)) stored))))
      w
      (fun v w' =>
         exists n data,
           first_read_count w fd (requested_len length) = Some n /\
           inbuf w fd = data ++ inbuf w' fd /\
           (n = 0 -> v = Qnil) /\
           (n <> 0 -> data <> [] /\ v = RString (kept_prefix str p ++ data)))).
  { intros len ->.
    apply returns_bind, returns_NUM2INT. intros p' Hp. inversion Hp; subst p'.
    apply returns_bind.
    assert (Hcont : forall contents, contents = RSTRING_PTR str ->
      returns
        (fd0 <- GetOpenFile
                  (if is_nil (rb_ivar_get_io io) then io else rb_ivar_get_io io) ;;
         watcher <- new_libev_io ;;
         ' (stored, total) <-
           with_kernel_fuel (fun fuel =>
             read_loop fuel fd0 watcher (is_nil length) (RTEST to_eof)
               (firstn (Z.to_nat (read_buf_pos str p)) contents)
               (requested_len length) 0) ;;
         (if total =? 0
          then ret Qnil
          else ret (RString (firstn (Z.to_nat (read_buf_pos str p + total)) stored))))
        w
        (fun v w' =>
           exists n data,
             first_read_count w fd (requested_len length) = Some n /\
             inbuf w fd = data ++ inbuf w' fd /\
             (n = 0 -> v = Qnil) /\
             (n <> 0 -> data <> [] /\ v = RString (kept_prefix str p ++ data)))).
    { intros contents ->.
      apply returns_bind, returns_GetOpenFile. intros fd0 t Hio.
      assert (fd0 = fd) as ->.
      { unfold fd_for_reading, underlying_of in Hfd. rewrite Hio in Hfd.
        inversion Hfd. reflexivity. }
      unfold new_libev_io.
      apply returns_bind, returns_bind, returns_alloca, returns_ret.
      apply returns_bind, returns_with_kernel_fuel. intros fuel.
      eapply returns_weaken; [apply read_loop_returns|].
      intros [stored total] w1 (n & data & Hfirst & Hst & Htot & Hin & Hz & Hnz).
      cbn [fst snd] in Hst, Htot.
      replace (requested_len length - 0) with (requested_len length) in Hfirst by lia.
      fold (kept_prefix str p) in Hst.
      assert (Hres :
        exists n0 data0,
          first_read_count w fd (requested_len length) = Some n0 /\
          inbuf w fd = data0 ++ inbuf w1 fd /\
          (n0 = 0 -> (if total =? 0 then Qnil
                      else RString (firstn (Z.to_nat (read_buf_pos str p + total)) stored))
                     = Qnil) /\
          (n0 <> 0 -> data0 <> [] /\
                      (if total =? 0 then Qnil
                       else RString (firstn (Z.to_nat (read_buf_pos str p + total)) stored))
                      = RString (kept_prefix str p ++ data0))).
      { exists n, data. split; [exact Hfirst|]. split; [exact Hin|]. split.
        - intros H0. rewrite (Hz H0) in Htot. cbn in Htot.
          replace total with 0 by lia. reflexivity.
        - intros H0. specialize (Hnz H0). split; [exact Hnz|].
          pose proof (nonempty_len data Hnz) as Hpos.
          destruct (Z.eqb_spec total 0) as [Ht|_]; [lia|].
          f_equal. subst stored. apply firstn_all2.
          rewrite length_app. unfold kept_prefix. rewrite length_firstn.
          pose proof (read_buf_pos_nonneg str p).
          unfold bytes_len in *. lia. }
      destruct (total =? 0); apply returns_ret; exact Hres. }
    destruct (is_nil str) eqn:Hnil.
    - apply returns_ret, Hcont. destruct str; try discriminate. reflexivity.
    - destruct str; simpl; try apply returns_raise.
      apply returns_ret, Hcont. reflexivity. }
  destruct Hlen as [->|(n & -> & Hn)].
  - cbn [is_nil]. apply returns_ret, Hrest. reflexivity.
  - cbn [is_nil]. apply returns_NUM2INT. intros n' Hn'. inversion Hn'; subst n'.
    apply Hrest. reflexivity.
Qed.




(** Immediate end of file: nil. *)
Example read_eof_returns_nil :
  exists w',
    Backend_read (RFile 5 None) (RString (bytes_of "abc")) Qnil Qtrue (Fixnum 0) eof_run
      = Done Qnil w'.
Proof. eexists. vm_compute. reflexivity. Qed.

(** ** Backend_recv *)

Lemma bind_ext {A B : Type} (m : M A) (k k' : A -> M B) w :
  (forall a w1, k a w1 = k' a w1) -> bind m k w = bind m k' w.
Proof. intros H. unfold bind. destruct (m w); auto. Qed.

Lemma read_loop_single_shot fuel : forall fd watcher dynamic_len stored len w,
  read_loop fuel fd watcher dynamic_len false stored len 0 w
  = single_shot_loop fuel fd watcher stored len w.
Proof.
  induction fuel as [|fuel IH]; intros fd watcher dynamic_len stored len w.
  - reflexivity.
  - cbn [read_loop single_shot_loop].
    apply bind_ext. intros _ w1.
    replace (len - 0) with len by lia.
    apply bind_ext. intros [n data] w2.
    destruct (n <? 0).
    + apply bind_ext. intros e w3.
      destruct (not_would_block e); [reflexivity|].
      apply bind_ext. intros [v wt] w4.
      destruct (TEST_EXCEPTION v); [reflexivity|]. apply IH.
    + apply bind_ext. intros v w3.
      destruct (TEST_EXCEPTION v); [reflexivity|].
      destruct (Z.eqb_spec n 0) as [->|_]; reflexivity.
Qed.

(** C10.  [recv(io, str, length, pos)] is [read(io, str, length, to_eof, pos)]
    with [to_eof] nil, and equally with [to_eof] false: same outcome (value
    returned or exception raised, or no return at all) and same world after
    the call, for every argument and every world.  Both are the single-shot
    read: the first successful read system call ends the call. *)
Theorem Backend_recv_is_read_without_to_eof io str length pos w :
  Backend_recv io str length pos w = Backend_read io str length Qnil pos w /\
  Backend_recv io str length pos w = Backend_read io str length Qfalse pos w /\
  Backend_recv io str length pos w = single_shot_read io str length pos w.
Proof.
  split; [reflexivity|]. split; [reflexivity|].
  unfold Backend_recv, Backend_read, single_shot_read, underlying_of.
  apply bind_ext. intros len w1.
  apply bind_ext. intros buf_pos w2.
  apply bind_ext. intros contents w3.
  apply bind_ext. intros fd w4.
  apply bind_ext. intros watcher w5.
  cbn [RTEST]. unfold with_kernel_fuel.
  unfold bind. rewrite read_loop_single_shot.
  destruct (single_shot_loop _ _ _ _ _ _) as [[stored n] w6| |]; reflexivity.
Qed.

(** ** Backend_timeout *)

Lemma ev_lookup_removed a l : ev_lookup a (ev_remove a l) = None.
Proof.
  unfold ev_lookup, ev_remove. induction l as [|[b x] l IH]; simpl.
  - reflexivity.
  - destruct (Nat.eqb b a) eqn:Hb; simpl.
    + exact IH.
    + rewrite Hb. exact IH.
Qed.

Lemma Backend_timeout_unfold argv after exception move_on_value block w :
  timeout_args argv after exception move_on_value ->
  Backend_timeout argv block w =
  bind (rb_ensure (Backend_timeout_ensure_safe block)
                  (Backend_timeout_ensure (next_addr w)))
       (fun result =>
          if same_object result (RException (next_obj w) cTimeoutException) then
            if is_nil exception then ret move_on_value
            else e <- backend_timeout_exception exception ;; RAISE_EXCEPTION e
          else RAISE_IF_EXCEPTION result ;;; ret result)
       (armed after w).
Proof.
  intros [->|(-> & ->)]; unfold Backend_timeout;
    repeat step_bind; reflexivity.
Qed.



(** The sentinel of an outer frame passes through an inner frame unchanged. *)
Example timeout_move_on_and_pass_through :
  (exists w',
     Backend_timeout [Fixnum 5; Qnil; Fixnum 42] (Backend_sleep (Fixnum 40)) timeout_run
       = Done (Fixnum 42) w' /\ ev_loop w' = []) /\
  (exists w',
     Backend_timeout [Fixnum 50; Qnil; Fixnum 42]
       (fun w => Raised (Reraised (RException 77 cTimeoutException)) w) timeout_run
       = Raised (Reraised (RException 77 cTimeoutException)) w' /\ ev_loop w' = []).
Proof.
  split; eexists; (split; [vm_compute; reflexivity|]); reflexivity.
Qed.

(** ** Backend_timer_loop *)

Lemma advance_next_time_spec fuel : forall interval_d now next_time next_time',
  0 < interval_d ->
  advance_next_time fuel interval_d now next_time = Some next_time' ->
  now < next_time' /\
  exists k, 1 <= k /\ next_time' = next_time + k * interval_d /\
            (next_time' - interval_d <= now \/ k = 1).
Proof.
  induction fuel as [|fuel IH]; intros interval_d now next_time next_time' Hpos H.
  - discriminate.
  - cbn [advance_next_time] in H.
    destruct (Z.leb_spec (next_time + interval_d) now) as [Hle|Hgt].
    + destruct (IH _ _ _ _ Hpos H) as (Hlt & k & Hk & Heq & Hmin).
      split; [exact Hlt|]. exists (k + 1). split; [lia|]. split; [lia|].
      left. destruct Hmin as [Hmin| ->]; lia.
    + inversion H; subst. split; [lia|]. exists 1. split; [lia|]. split; [lia|].
      right. reflexivity.
Qed.

Lemma advance_next_time_enough fuel : forall interval_d now next_time,
  0 < interval_d ->
  (Z.to_nat (now - next_time) < fuel)%nat ->
  exists next_time', advance_next_time fuel interval_d now next_time = Some next_time'.
Proof.
  induction fuel as [|fuel IH]; intros interval_d now next_time Hpos Hfuel.
  - lia.
  - cbn [advance_next_time].
    destruct (Z.leb_spec (next_time + interval_d) now) as [Hle|Hgt].
    + apply IH; [exact Hpos|lia].
    + eexists. reflexivity.
Qed.

Lemma returns_any {A : Type} (m : M A) w (Q : A -> World -> Prop) :
  (forall a w', Q a w') -> returns m w Q.
Proof. intros H a w' _. apply H. Qed.

Lemma timer_loop_iteration_returns yield watcher fiber interval_d next_time w :
  0 < interval_d ->
  returns (timer_loop_iteration yield watcher fiber interval_d next_time) w
    (fun next_time' _ =>
       let now := clock w in
       let deadline := round_deadline interval_d next_time now in
       now < next_time' /\
       exists k, 1 <= k /\ next_time' = deadline + k * interval_d /\
                 (next_time' - interval_d <= now \/ k = 1)).
Proof.
  intros Hpos. unfold timer_loop_iteration, current_time.
  apply returns_bind, returns_get.
  apply returns_bind.
  assert (Hrest : forall w0,
    returns
      (ev_start watcher
         (EvTimer (if round_deadline interval_d next_time (clock w) - clock w <? 0
                   then 0
                   else round_deadline interval_d next_time (clock w) - clock w) fiber) ;;;
       incr_op_count ;;;
       switchpoint_result <- backend_await ;;
       ev_stop watcher ;;;
       RAISE_IF_EXCEPTION switchpoint_result ;;;
       _ <- yield ;;
       match advance_next_time
               (advance_fuel (clock w) (round_deadline interval_d next_time (clock w)))
               interval_d (clock w) (round_deadline interval_d next_time (clock w)) with
       | Some next_time0 => ret next_time0
       | None => hang
       end) w0
      (fun next_time' _ =>
         clock w < next_time' /\
         exists k, 1 <= k /\
           next_time' = round_deadline interval_d next_time (clock w) + k * interval_d /\
           (next_time' - interval_d <= clock w \/ k = 1))).
  { intros w0. repeat (apply returns_bind, returns_any; intros ? ?).
    destruct (advance_next_time _ _ _ _) as [nt|] eqn:Hadv; [|apply returns_hang].
    apply returns_ret.
    exact (advance_next_time_spec _ _ _ _ _ Hpos Hadv). }
  unfold round_deadline in *.
  destruct (next_time =? 0).
  - apply returns_bind, returns_get, returns_ret. apply Hrest.
  - apply returns_ret. apply Hrest.
Qed.




(** ** Backend_chain *)

Lemma chain_op_by_kind op w :
  chain_op op w =
  match op_call op with
  | Some call => call w
  | None => Raised (RuntimeError invalid_op_msg) w
  end.
Proof.
  unfold chain_op, op_call.
  destruct op as [| | | | | |elts| | | | | |]; try reflexivity.
  destruct elts as [|x0 [|x1 [|x2 [|x3 [|x4 l]]]]].
  - reflexivity.
  - unfold RARRAY_LEN. cbn [List.length].
    change (Z.of_nat 1 =? 3) with false. change (Z.of_nat 1 =? 4) with false.
    rewrite !andb_false_r. destruct x0; reflexivity.
  - unfold RARRAY_LEN. cbn [List.length].
    change (Z.of_nat 2 =? 3) with false. change (Z.of_nat 2 =? 4) with false.
    rewrite !andb_false_r. destruct x0; reflexivity.
  - destruct x0; try reflexivity.
    unfold RARRAY_AREF, RARRAY_LEN, SYM_write, same_symbol. cbn [nth List.length].
    change (Z.of_nat 3 =? 3) with true. rewrite andb_true_r.
    destruct (String.eqb name "write"); [reflexivity|].
    cbn [andb]. change (Z.of_nat 3 =? 4) with false. rewrite !andb_false_r.
    reflexivity.
  - destruct x0; try reflexivity.
    unfold RARRAY_AREF, RARRAY_LEN, SYM_write, SYM_send, SYM_splice, same_symbol.
    cbn [nth List.length].
    change (Z.of_nat 4 =? 3) with false. rewrite andb_false_r.
    change (Z.of_nat 4 =? 4) with true. rewrite !andb_true_r.
    destruct (String.eqb name "send"); [reflexivity|].
    destruct (String.eqb name "splice"); reflexivity.
  - assert (H3 : (Z.of_nat (List.length (x0 :: x1 :: x2 :: x3 :: x4 :: l)) =? 3) = false).
    { apply Z.eqb_neq. cbn [List.length]. lia. }
    assert (H4 : (Z.of_nat (List.length (x0 :: x1 :: x2 :: x3 :: x4 :: l)) =? 4) = false).
    { apply Z.eqb_neq. cbn [List.length]. lia. }
    unfold RARRAY_LEN. rewrite H3, H4. rewrite !andb_false_r.
    destruct x0; reflexivity.
Qed.

Lemma chain_loop_app ops : forall rest r w r' w',
  runs_in_order ops r w r' w' ->
  chain_loop (ops ++ rest) r w = chain_loop rest r' w'.
Proof.
  induction ops as [|op ops IH]; intros rest r w r' w' Hruns.
  - inversion Hruns; subst. reflexivity.
  - inversion Hruns as [|op0 ops0 call r0 w0 v w1 r1 w2 Hcall Hdone Hrest]; subst.
    cbn [app chain_loop].
    erewrite bind_of_Done
      by (rewrite chain_op_by_kind, Hcall; exact Hdone).
    apply IH. exact Hrest.
Qed.

Lemma Backend_chain_nonempty ops op rest w :
  Backend_chain (ops ++ op :: rest) w = chain_loop (ops ++ op :: rest) Qnil w.
Proof.
  unfold Backend_chain.
  destruct (Z.eqb_spec (Z.of_nat (List.length (ops ++ op :: rest))) 0) as [H|_];
    [|reflexivity].
  rewrite length_app in H. cbn [List.length] in H. lia.
Qed.

(** C9.  [chain(ops...)] makes the calls of its ops in the order given: once
    the ops in front have returned, the outcome of the chain is the outcome of
    the last op, so that the chain returns what the last op returns; an op in
    front that raises ends the chain with its exception; an op of unknown kind
    or with the wrong arity for its kind makes the chain raise the
    invalid-op error at that point.  Without ops the chain returns nil. *)
Theorem Backend_chain_in_order (w : World) :
  Backend_chain [] w = Done Qnil w /\
  (forall ops op call r' w',
      runs_in_order ops Qnil w r' w' ->
      op_call op = Some call ->
      Backend_chain (ops ++ [op]) w = call w') /\
  (forall ops op rest call r' w' e w'',
      runs_in_order ops Qnil w r' w' ->
      op_call op = Some call ->
      call w' = Raised e w'' ->
      Backend_chain (ops ++ op :: rest) w = Raised e w'') /\
  (forall ops op rest r' w',
      runs_in_order ops Qnil w r' w' ->
      op_call op = None ->
      Backend_chain (ops ++ op :: rest) w = Raised (RuntimeError invalid_op_msg) w').
Proof.
  split; [reflexivity|]. split; [|split].
  - intros ops op call r' w' Hruns Hcall.
    rewrite Backend_chain_nonempty.
    rewrite (chain_loop_app ops [op] Qnil w r' w' Hruns).
    cbn [chain_loop].
    assert (Hk : forall result w1, chain_loop [] result w1 = ret result w1)
      by reflexivity.
    rewrite (bind_ext _ _ ret _ Hk), bind_ret_r.
    rewrite chain_op_by_kind, Hcall. reflexivity.
  - intros ops op rest call r' w' e w'' Hruns Hcall Hraise.
    rewrite Backend_chain_nonempty.
    rewrite (chain_loop_app ops (op :: rest) Qnil w r' w' Hruns).
    cbn [chain_loop]. apply bind_of_Raised.
    rewrite chain_op_by_kind, Hcall. exact Hraise.
  - intros ops op rest r' w' Hruns Hcall.
    rewrite Backend_chain_nonempty.
    rewrite (chain_loop_app ops (op :: rest) Qnil w r' w' Hruns).
    cbn [chain_loop]. apply bind_of_Raised.
    rewrite chain_op_by_kind, Hcall. reflexivity.
Qed.

Lemma Backend_chain_in_order_witness :
  let w1 := world_of (Backend_write (RFile 6 None) (RString (bytes_of "ab")) chain_run) in
  Backend_chain [write_op; send_op] chain_run
    = Backend_send (RFile 6 None) (RString (bytes_of "cd")) (Fixnum 0) w1 /\
  Backend_chain [write_op; short_send_op; send_op] chain_run
    = Raised (RuntimeError invalid_op_msg) w1.
Proof.
  intros w1.
  assert (Hruns : runs_in_order [write_op] Qnil chain_run (Fixnum 2) w1).
  { eapply runs_next.
    - reflexivity.
    - vm_compute. reflexivity.
    - apply runs_none. }
  split.
  - exact (proj1 (proj2 (Backend_chain_in_order chain_run))
                 [write_op] send_op _ (Fixnum 2) w1 Hruns eq_refl).
  - exact (proj2 (proj2 (proj2 (Backend_chain_in_order chain_run)))
                 [write_op] short_send_op [send_op] (Fixnum 2) w1 Hruns eq_refl).
Defined.

(** The chain of the example returns the result of its last op, after both
    strings have reached the descriptor in order. *)
Example chain_returns_last_result :
  exists w',
    Backend_chain [write_op; send_op] chain_run = Done (Fixnum 2) w' /\
    outbuf w' 6 = bytes_of "abcd".
Proof. eexists. split; [vm_compute; reflexivity|]. reflexivity. Qed.

(** ** Backend_splice_chunks *)

Lemma returns_next_bindc {A B : Type} (m : M (ctl A)) (k : A -> M (ctl B)) w Q :
  returns_next m w (fun a w1 => returns_next (k a) w1 Q) ->
  returns_next (bindc m k) w Q.
Proof.
  intros Hm. unfold returns_next, bindc. apply returns_bind.
  eapply returns_weaken; [exact Hm|]. intros r w1 Hr. cbv beta in Hr.
  destruct r as [a|res|err].
  - apply (Hr a eq_refl).
  - apply returns_ret. intros b Hb. discriminate Hb.
  - apply returns_ret. intros b Hb. discriminate Hb.
Qed.

Lemma returns_next_ret {A : Type} (a : A) w (Q : A -> World -> Prop) :
  Q a w -> returns_next (ret (Next a)) w Q.
Proof.
  intros HQ. apply returns_ret. intros b Hb. inversion Hb; subst. exact HQ.
Qed.

Lemma returns_next_check_err err outer_err result w (Q : unit -> World -> Prop) :
  (err = 0 -> Q tt w) -> returns_next (check_err err outer_err result) w Q.
Proof.
  intros HQ. unfold returns_next, check_err.
  destruct (Z.eqb_spec err (-1)).
  - apply returns_ret. intros a Ha. discriminate Ha.
  - destruct (Z.eqb_spec err 0) as [H0|H0]; cbn [negb].
    + apply returns_ret. intros [] _. apply HQ, H0.
    + apply returns_ret. intros a Ha. discriminate Ha.
Qed.

Lemma returns_libev_wait_rw r_fd w_fd a w (Q : VALUE -> World -> Prop) :
  (forall v w', same_os w w' -> Q v w') ->
  returns (libev_wait_rw_fd_with_watcher r_fd w_fd a) w Q.
Proof.
  intros HQ. unfold libev_wait_rw_fd_with_watcher, get_rw_ctx, set_rw_ctx,
    rb_fiber_current.
  apply returns_bind, returns_get. apply returns_bind, returns_get.
  apply returns_bind, returns_modify.
  set (w1 := set_rw_ctxs _ w).
  assert (H1 : same_os w w1) by (unfold same_os; repeat split).
  clearbody w1.
  assert (Hopt : forall (c : bool) fd ev w2 (Q' : unit -> World -> Prop),
    (forall w3, same_os w2 w3 -> Q' tt w3) ->
    returns (if c
             then ev_start fd ev ;;;
                  ctx <- get (fun w => rw_ctxs w a) ;;
                  modify (fun w => set_rw_ctxs
                            (upd Nat.eqb (rw_ctxs w) a
                                 (mk_rw_ctx (ref_count ctx + 1) (ctx_fiber ctx))) w)
             else ret tt) w2 Q').
  { intros c fd ev w2 Q' HQ'. destruct c.
    - apply returns_bind, returns_modify. apply returns_bind, returns_get.
      apply returns_modify. apply HQ'.
      destruct (ev_lookup fd (ev_loop w2)); unfold same_os; repeat split.
    - apply returns_ret, HQ', same_os_refl. }
  apply returns_bind, Hopt. intros w2 H2.
  apply returns_bind, Hopt. intros w3 H3.
  apply returns_bind, returns_await. intros v w4 H4.
  assert (Hstop : forall (c : bool) x w5 (Q' : unit -> World -> Prop),
    (forall w6, same_os w5 w6 -> Q' tt w6) ->
    returns (if c then ev_stop x else ret tt) w5 Q').
  { intros c x w5 Q' HQ'. destruct c.
    - apply returns_modify, HQ'. unfold same_os; repeat split.
    - apply returns_ret, HQ', same_os_refl. }
  apply returns_bind, Hstop. intros w5 H5.
  apply returns_bind, Hstop. intros w6 H6.
  apply returns_ret, HQ.
  repeat (eapply same_os_trans; [eassumption|]). apply same_os_refl.
Qed.

Lemma chunk_state_same_os src_fd pipe_r dest_fd ps w w' a b c :
  same_os w w' ->
  chunk_state src_fd pipe_r dest_fd ps w a b c ->
  chunk_state src_fd pipe_r dest_fd ps w' a b c.
Proof.
  intros (Hk & _ & Hin & Hout & Hp & _) (H0 & H1 & H2 & H3 & H4).
  unfold chunk_state. rewrite Hk, Hin, Hout, Hp. repeat split; assumption.
Qed.

Section ChunkedSplice.

Variables (src_fd dest_fd pipe_r pipe_w : Z) (ps : list (Z * Z)).
Hypothesis src_not_pipe : src_fd <> pipe_r.
Hypothesis dest_not_pipe : dest_fd <> pipe_w.
Hypothesis pipe_ends : pipe_read_end pipe_w ps = Some pipe_r.
Hypothesis dest_end :
  forall r, pipe_read_end dest_fd ps = Some r -> r <> src_fd /\ r <> pipe_r.

Local Abbreviation state := (chunk_state src_fd pipe_r dest_fd ps).

Lemma deliver_to_dest data w a b c :
  state w a b c -> state (deliver dest_fd data w) a b (c ++ data).
Proof.
  intros (Hk & Hp & Ha & Hb & Hc).
  split; [destruct (deliver_frame dest_fd data w) as (-> & _); exact Hk|].
  unfold deliver. cbn [pipes set_outbuf]. rewrite Hp.
  pose proof dest_end as Hend.
  destruct (pipe_read_end dest_fd ps) as [r|].
  - destruct (Hend r eq_refl) as (Hr1 & Hr2).
    cbn. unfold upd. rewrite Z.eqb_refl.
    destruct (Z.eqb_spec r src_fd); [contradiction|].
    destruct (Z.eqb_spec r pipe_r); [contradiction|].
    repeat split; congruence.
  - cbn. unfold upd. rewrite Z.eqb_refl. repeat split; congruence.
Qed.

Lemma deliver_to_pipe data w a b c :
  state w a b c -> state (deliver pipe_w data w) a (b ++ data) c.
Proof.
  intros (Hk & Hp & Ha & Hb & Hc).
  split; [destruct (deliver_frame pipe_w data w) as (-> & _); exact Hk|].
  unfold deliver. cbn [pipes set_outbuf]. rewrite Hp, pipe_ends.
  cbn. unfold upd. rewrite Z.eqb_refl.
  destruct (Z.eqb_spec pipe_r src_fd); [congruence|].
  destruct (Z.eqb_spec pipe_w dest_fd); [congruence|].
  repeat split; congruence.
Qed.

Lemma consume_source n w a b c :
  state w a b c -> state (consume src_fd n w) (skipn n a) b c.
Proof.
  intros (Hk & Hp & Ha & Hb & Hc). split; [exact Hk|].
  unfold consume. cbn. unfold upd.
  rewrite Z.eqb_refl.
  destruct (Z.eqb_spec src_fd pipe_r); [contradiction|].
  repeat split; congruence.
Qed.

Lemma consume_pipe n w a b c :
  state w a b c -> state (consume pipe_r n w) a (skipn n b) c.
Proof.
  intros (Hk & Hp & Ha & Hb & Hc). split; [exact Hk|].
  unfold consume. cbn. unfold upd.
  rewrite Z.eqb_refl.
  destruct (Z.eqb_spec pipe_r src_fd); [congruence|].
  repeat split; congruence.
Qed.

Lemma state_frame (f : World -> World) w a b c :
  kernel (f w) = kernel w ->
  pipes (f w) = pipes w -> inbuf (f w) = inbuf w -> outbuf (f w) = outbuf w ->
  state w a b c -> state (f w) a b c.
Proof.
  intros Hk Hp Hi Ho (H0 & H1 & H2 & H3 & H4). unfold chunk_state.
  rewrite Hk, Hp, Hi, Ho. repeat split; assumption.
Qed.

(** The kernel has answered: the answers left are still well formed. *)
Lemma state_answered (f : World -> World) x k w a b c :
  kernel w = x :: k -> kernel (f w) = k ->
  pipes (f w) = pipes w -> inbuf (f w) = inbuf w -> outbuf (f w) = outbuf w ->
  state w a b c -> state (f w) a b c /\ x <> KErr 0.
Proof.
  intros Hw Hk Hp Hi Ho (H0 & H1 & H2 & H3 & H4). unfold chunk_state.
  rewrite Hk, Hp, Hi, Ho. unfold errnos_nonzero in H0. rewrite Hw in H0.
  inversion H0; subst. repeat split; assumption.
Qed.

(** [write] to the destination: the bytes taken are appended to what the
    destination received. *)
Lemma write_to_dest buf count w a b c n w' :
  state w a b c ->
  sys_write dest_fd buf count w = Done n w' ->
  (n = -1 /\ errno w' <> 0 /\ state w' a b c) \/
  (exists data, n = bytes_len data /\ buf = data ++ skipn (List.length data) buf /\
                state w' a b (c ++ data)).
Proof.
  intros Hst H.
  unfold sys_write in H. destruct (kernel w) as [|[x|e] k] eqn:Hk;
    inversion H; subst; clear H.
  - right. destruct (moved_prefix x count buf) as (Hp & _).
    eexists. split; [reflexivity|]. split; [exact Hp|].
    apply deliver_to_dest.
    apply (state_answered (set_kernel k) (KOk x) k w); try reflexivity; assumption.
  - left. split; [reflexivity|].
    destruct (state_answered (fun w => set_errno e (set_kernel k w)) (KErr e) k w a b c)
      as (Hst' & Hne); try reflexivity; try assumption.
    split; [|exact Hst']. cbn. intros ->. apply Hne. reflexivity.
Qed.

(** [splice] from the source into the pipe. *)
Lemma splice_into_pipe maxlen w a b c n w' :
  state w a b c ->
  sys_splice src_fd pipe_w maxlen w = Done n w' ->
  (n = -1 /\ errno w' <> 0 /\ state w' a b c) \/
  (exists data rest, n = bytes_len data /\ a = data ++ rest /\
                     n <= to_size_t maxlen /\
                     state w' rest (b ++ data) c).
Proof.
  intros Hst H.
  unfold sys_splice in H. destruct (kernel w) as [|[x|e] k] eqn:Hk;
    inversion H; subst; clear H.
  - right.
    destruct (state_answered (set_kernel k) (KOk x) k w a b c)
      as (Hst' & _); try reflexivity; try assumption.
    destruct Hst as (_ & _ & Ha & _).
    destruct (moved_prefix x maxlen (inbuf w src_fd)) as (Hpre & Hle & _).
    eexists _, (skipn _ a).
    split; [reflexivity|]. split; [rewrite <- Ha; exact Hpre|]. split; [exact Hle|].
    apply deliver_to_pipe. apply consume_source. exact Hst'.
  - left. split; [reflexivity|].
    destruct (state_answered (fun w => set_errno e (set_kernel k w)) (KErr e) k w a b c)
      as (Hst' & Hne); try reflexivity; try assumption.
    split; [|exact Hst']. cbn. intros ->. apply Hne. reflexivity.
Qed.

(** [splice] from the pipe to the destination. *)
Lemma splice_out_of_pipe left w a b c n w' :
  state w a b c ->
  sys_splice pipe_r dest_fd left w = Done n w' ->
  (n = -1 /\ errno w' <> 0 /\ state w' a b c) \/
  (exists data rest, n = bytes_len data /\ b = data ++ rest /\
                     state w' a rest (c ++ data)).
Proof.
  intros Hst H.
  unfold sys_splice in H. destruct (kernel w) as [|[x|e] k] eqn:Hk;
    inversion H; subst; clear H.
  - right.
    destruct (state_answered (set_kernel k) (KOk x) k w a b c)
      as (Hst' & _); try reflexivity; try assumption.
    destruct Hst as (_ & _ & _ & Hb & _).
    destruct (moved_prefix x left (inbuf w pipe_r)) as (Hpre & _).
    eexists _, (skipn _ b).
    split; [reflexivity|]. split; [rewrite <- Hb; exact Hpre|].
    apply deliver_to_dest. apply consume_pipe. exact Hst'.
  - left. split; [reflexivity|].
    destruct (state_answered (fun w => set_errno e (set_kernel k w)) (KErr e) k w a b c)
      as (Hst' & Hne); try reflexivity; try assumption.
    split; [|exact Hst']. cbn. intros ->. apply Hne. reflexivity.
Qed.

Lemma state_op_counted w a b c :
  state w a b c -> state (set_op_count (op_count w + 1) w) a b c.
Proof. apply (state_frame (fun w => set_op_count (op_count w + 1) w)); reflexivity. Qed.

Lemma splice_chunks_write_loop_returns fuel : forall buf left watcher result w a b c,
  left = bytes_len buf ->
  state w a b c ->
  returns (splice_chunks_write_loop fuel dest_fd buf left watcher result) w
    (fun r w' => fst r = 0 -> state w' a b (c ++ buf)).
Proof.
  induction fuel as [|fuel IH]; intros buf left watcher result w a b c Hleft Hst;
    cbn [splice_chunks_write_loop].
  - apply returns_hang.
  - destruct (0 <? left) eqn:Hpos.
    + apply returns_bind, returns_modify.
      apply returns_bind. intros n w1 Hn.
      apply (write_to_dest _ _ _ a b c) in Hn; [|apply state_op_counted, Hst].
      destruct Hn as [(-> & Herr & Hst1)|(data & -> & Hbuf & Hst1)].
      * cbn [Z.ltb Z.compare]. apply returns_bind, returns_get.
        destruct (not_would_block _).
        -- apply returns_ret. cbn [fst]. intros H0. contradiction.
        -- apply returns_bind, returns_libev_wait_rw. intros v w2 Hw2.
           destruct (TEST_EXCEPTION v).
           ++ apply returns_ret. cbn [fst]. discriminate.
           ++ apply IH; [exact Hleft|].
              eapply chunk_state_same_os; eassumption.
      * pose proof (bytes_len_nonneg data) as Hd.
        destruct (bytes_len data <? 0) eqn:Hneg; [apply Z.ltb_lt in Hneg; lia|].
        eapply returns_weaken.
        -- apply (IH _ _ _ _ _ a b (c ++ data)); [|exact Hst1].
           rewrite Hleft. rewrite Hbuf at 1. rewrite bytes_len_app.
           unfold bytes_len. rewrite Nat2Z.id. lia.
        -- intros r w2 Hr H0. cbv beta in Hr. specialize (Hr H0).
           unfold bytes_len in Hr. rewrite Nat2Z.id in Hr.
           rewrite <- app_assoc, <- Hbuf in Hr. exact Hr.
    + apply returns_ret. intros _.
      apply Z.ltb_ge in Hpos. pose proof (bytes_len_nonneg buf).
      assert (Hnil : buf = []).
      { destruct buf; [reflexivity|]. unfold bytes_len in *. cbn in *. lia. }
      rewrite Hnil, app_nil_r. exact Hst.
Qed.

Lemma splice_chunks_write_returns str watcher result w a b c :
  state w a b c ->
  returns (splice_chunks_write dest_fd str watcher result) w
    (fun r w' => fst r = 0 -> state w' a b (c ++ RSTRING_PTR str)).
Proof.
  intros Hst. unfold splice_chunks_write.
  apply returns_with_kernel_fuel. intros fuel.
  apply splice_chunks_write_loop_returns; [|exact Hst].
  destruct str; reflexivity.
Qed.

(** One chunk is moved from the source into the pipe. *)
Lemma splice_in_loop_returns fuel : forall maxlen watcher result w a b c,
  state w a b c ->
  returns (splice_chunks_splice_loop fuel src_fd pipe_w maxlen watcher result) w
    (fun r w' =>
       fst (fst r) = 0 ->
       exists data rest,
         snd r = bytes_len data /\ a = data ++ rest /\
         bytes_len data <= to_size_t maxlen /\
         state w' rest (b ++ data) c).
Proof.
  induction fuel as [|fuel IH]; intros maxlen watcher result w a b c Hst;
    cbn [splice_chunks_splice_loop].
  - apply returns_hang.
  - apply returns_bind. intros n w1 Hn.
    apply (splice_into_pipe _ _ a b c) in Hn; [|exact Hst].
    destruct Hn as [(-> & Herr & Hst1)|(data & rest & -> & Ha & Hle & Hst1)].
    + cbn [Z.leb Z.compare]. apply returns_bind, returns_get.
      destruct (not_would_block _).
      * apply returns_ret. cbn [fst]. intros H0. contradiction.
      * apply returns_bind, returns_libev_wait_rw. intros v w2 Hw2.
        destruct (TEST_EXCEPTION v).
        -- apply returns_ret. cbn [fst]. discriminate.
        -- apply IH. eapply chunk_state_same_os; eassumption.
    + pose proof (bytes_len_nonneg data) as Hd.
      destruct (0 <=? bytes_len data) eqn:Hnn; [|apply Z.leb_gt in Hnn; lia].
      apply returns_ret. intros _. exists data, rest. cbn [snd].
      split; [reflexivity|]. split; [exact Ha|]. split; [exact Hle|]. exact Hst1.
Qed.

(** Bytes are moved from the pipe to the destination. *)
Lemma splice_out_loop_returns fuel : forall left watcher result w a b c,
  state w a b c ->
  returns (splice_chunks_splice_loop fuel pipe_r dest_fd left watcher result) w
    (fun r w' =>
       fst (fst r) = 0 ->
       exists data rest,
         snd r = bytes_len data /\ b = data ++ rest /\
         state w' a rest (c ++ data)).
Proof.
  induction fuel as [|fuel IH]; intros left watcher result w a b c Hst;
    cbn [splice_chunks_splice_loop].
  - apply returns_hang.
  - apply returns_bind. intros n w1 Hn.
    apply (splice_out_of_pipe _ _ a b c) in Hn; [|exact Hst].
    destruct Hn as [(-> & Herr & Hst1)|(data & rest & -> & Hb & Hst1)].
    + cbn [Z.leb Z.compare]. apply returns_bind, returns_get.
      destruct (not_would_block _).
      * apply returns_ret. cbn [fst]. intros H0. contradiction.
      * apply returns_bind, returns_libev_wait_rw. intros v w2 Hw2.
        destruct (TEST_EXCEPTION v).
        -- apply returns_ret. cbn [fst]. discriminate.
        -- apply IH. eapply chunk_state_same_os; eassumption.
    + pose proof (bytes_len_nonneg data) as Hd.
      destruct (0 <=? bytes_len data) eqn:Hnn; [|apply Z.leb_gt in Hnn; lia].
      apply returns_ret. intros _. exists data, rest. cbn [snd].
      split; [reflexivity|]. split; [exact Hb|]. exact Hst1.
Qed.

Lemma splice_in_returns maxlen watcher result w a b c :
  state w a b c ->
  returns (splice_chunks_splice src_fd pipe_w maxlen watcher result) w
    (fun r w' =>
       fst (fst r) = 0 ->
       exists data rest,
         snd r = bytes_len data /\ a = data ++ rest /\
         bytes_len data <= to_size_t maxlen /\
         state w' rest (b ++ data) c).
Proof.
  intros Hst. unfold splice_chunks_splice.
  apply returns_bind, returns_modify.
  apply returns_with_kernel_fuel. intros fuel.
  apply splice_in_loop_returns, state_op_counted, Hst.
Qed.

Lemma splice_out_returns left watcher result w a b c :
  state w a b c ->
  returns (splice_chunks_splice pipe_r dest_fd left watcher result) w
    (fun r w' =>
       fst (fst r) = 0 ->
       exists data rest,
         snd r = bytes_len data /\ b = data ++ rest /\
         state w' a rest (c ++ data)).
Proof.
  intros Hst. unfold splice_chunks_splice.
  apply returns_bind, returns_modify.
  apply returns_with_kernel_fuel. intros fuel.
  apply splice_out_loop_returns, state_op_counted, Hst.
Qed.

(** The pipe is drained: the whole chunk reaches the destination. *)
Lemma drain_loop_returns fuel : forall watcher left err result w a b c,
  left = bytes_len b ->
  state w a b c ->
  returns_next (drain_loop fuel pipe_r dest_fd watcher left err result) w
    (fun _ w' => state w' a [] (c ++ b)).
Proof.
  induction fuel as [|fuel IH]; intros watcher left err result w a b c Hleft Hst;
    cbn [drain_loop].
  - apply returns_hang.
  - destruct (0 <? left) eqn:Hpos.
    + unfold returns_next. apply returns_bind.
      eapply returns_weaken; [apply splice_out_returns; exact Hst|].
      intros [[err' result'] len] w1 Hpost. cbn [fst snd] in Hpost.
      apply returns_next_bindc, returns_next_check_err. intros Herr.
      destruct (Hpost Herr) as (data & rest & -> & Hb & Hst1).
      eapply returns_weaken.
      * apply (IH _ _ _ _ _ a rest (c ++ data)); [|exact Hst1].
        rewrite Hleft, Hb, bytes_len_app. lia.
      * intros r w2 Hr x Hx. cbv beta in Hr. specialize (Hr x Hx).
        rewrite Hb, app_assoc. exact Hr.
    + apply returns_next_ret.
      apply Z.ltb_ge in Hpos. pose proof (bytes_len_nonneg b).
      assert (Hnil : b = []).
      { destruct b; [reflexivity|]. unfold bytes_len in *. cbn in *. lia. }
      rewrite Hnil, app_nil_r in *. exact Hst.
Qed.

(** The write of a chunk prefix or chunk postfix. *)
Lemma framing_returns f n watcher err result w a b c :
  state w a b c ->
  returns_next
    (if negb (is_nil f) then
       str <- framing_str f (INT2NUM n) ;;
       '(err', result) <- splice_chunks_write dest_fd str watcher result ;;
       _ <-- check_err err' err result ;;
       ret (Next result)
     else ret (Next result)) w
    (fun _ w' => state w' a b (c ++ framing_bytes f n)).
Proof.
  intros Hst.
  assert (Hwrite : forall str, RSTRING_PTR str = framing_bytes f n ->
    returns_next
      ('(err', result) <- splice_chunks_write dest_fd str watcher result ;;
       _ <-- check_err err' err result ;;
       ret (Next result)) w
      (fun _ w' => state w' a b (c ++ framing_bytes f n))).
  { intros str Hstr. unfold returns_next. apply returns_bind.
    eapply returns_weaken; [apply splice_chunks_write_returns; exact Hst|].
    intros [err' result'] w1 Hpost. cbn [fst] in Hpost.
    apply returns_next_bindc, returns_next_check_err. intros Herr.
    apply returns_next_ret. rewrite <- Hstr. apply Hpost, Herr. }
  destruct f; cbn [is_nil negb framing_str];
    try (apply returns_bind, returns_raise).
  - apply returns_next_ret. cbn. rewrite app_nil_r. exact Hst.
  - apply returns_bind, returns_ret. apply Hwrite. reflexivity.
  - unfold INT2NUM. apply returns_bind, returns_ret. apply Hwrite. reflexivity.
Qed.

Lemma returns_next_with_kernel_fuel {A : Type} (loop : nat -> M (ctl A)) w Q :
  (forall fuel, returns_next (loop fuel) w Q) ->
  returns_next (with_kernel_fuel loop) w Q.
Proof. intros H. apply returns_with_kernel_fuel. exact H. Qed.

Lemma returns_next_weaken {A : Type} (m : M (ctl A)) w (P Q : A -> World -> Prop) :
  returns_next m w P -> (forall a w', P a w' -> Q a w') -> returns_next m w Q.
Proof.
  intros HP HPQ. eapply returns_weaken; [exact HP|].
  intros r w' Hr a Ha. apply HPQ, Hr, Ha.
Qed.

(** The loop over the chunks: each round takes one chunk from the source and
    puts it on the wire between its prefix and its postfix. *)
Lemma chunks_loop_returns fuel :
  forall maxlen watcher chunk_prefix chunk_postfix total err result w a c,
  state w a [] c ->
  returns_next
    (chunks_loop fuel src_fd dest_fd pipe_r pipe_w maxlen watcher
                 chunk_prefix chunk_postfix total err result) w
    (fun r w' =>
       exists chunks remaining,
         fst (fst r) = total + bytes_len (List.concat chunks) /\
         Forall (fun ch => ch <> [] /\ bytes_len ch <= to_size_t maxlen) chunks /\
         a = List.concat chunks ++ remaining /\
         state w' remaining []
               (c ++ List.concat (map (framed chunk_prefix chunk_postfix) chunks))).
Proof.
  induction fuel as [|fuel IH];
    intros maxlen watcher chunk_prefix chunk_postfix total err result w a c Hst;
    cbn [chunks_loop].
  - apply returns_hang.
  - unfold returns_next. apply returns_bind.
    eapply returns_weaken; [apply splice_in_returns; exact Hst|].
    intros [[err1 result1] chunk_len] w1 Hpost. cbn [fst snd] in Hpost.
    apply returns_next_bindc, returns_next_check_err. intros Herr.
    destruct (Hpost Herr) as (data & rest & -> & Ha & Hle & Hst1).
    cbn [app] in Hst1.
    destruct (Z.eqb_spec (bytes_len data) 0) as [Hz|Hnz].
    + apply returns_next_ret. exists [], rest.
      assert (Hnil : data = []).
      { destruct data; [reflexivity|]. unfold bytes_len in Hz. cbn in Hz. lia. }
      subst data. cbn. rewrite app_nil_r.
      split; [lia|]. split; [constructor|]. split; [exact Ha|exact Hst1].
    + apply returns_next_bindc.
      eapply returns_next_weaken;
        [apply (framing_returns chunk_prefix (bytes_len data)); exact Hst1|].
      intros result2 w2 Hst2. cbv beta.
      apply returns_next_bindc, returns_next_with_kernel_fuel. intros fuel2.
      eapply returns_next_weaken;
        [apply drain_loop_returns; [reflexivity|exact Hst2]|].
      intros [err3 result3] w3 Hst3. cbv beta.
      apply returns_next_bindc.
      eapply returns_next_weaken;
        [apply (framing_returns chunk_postfix (bytes_len data)); exact Hst3|].
      intros result4 w4 Hst4. cbv beta.
      eapply returns_next_weaken; [apply IH; exact Hst4|].
      intros r w5 (chunks & remaining & Htot & Hall & Hrest & Hst5).
      exists (data :: chunks), remaining.
      split; [|split; [|split]].
      * rewrite Htot. cbn [List.concat]. rewrite bytes_len_app. lia.
      * constructor; [|exact Hall]. split; [|exact Hle].
        intros ->. apply Hnz. reflexivity.
      * cbn [List.concat]. rewrite <- app_assoc, <- Hrest. exact Ha.
      * cbn [map List.concat]. unfold framed at 1.
        repeat rewrite <- app_assoc in Hst5. repeat rewrite <- app_assoc.
        exact Hst5.
Qed.

(** From the new pipe to the last statement before it is closed. *)
Lemma splice_chunks_body_returns maxlen watcher prefix postfix
      chunk_prefix chunk_postfix w a c :
  state w a [] c ->
  returns_next
    (splice_chunks_body src_fd dest_fd maxlen watcher prefix postfix
                        chunk_prefix chunk_postfix (pipe_r, pipe_w)) w
    (fun total w' =>
       exists chunks remaining,
         total = bytes_len (List.concat chunks) /\
         Forall (fun ch => ch <> [] /\ bytes_len ch <= to_size_t maxlen) chunks /\
         a = List.concat chunks ++ remaining /\
         state w' remaining []
               (c ++ RSTRING_PTR prefix ++
                List.concat (map (framed chunk_prefix chunk_postfix) chunks) ++
                RSTRING_PTR postfix)).
Proof.
  intros Hst. unfold splice_chunks_body. cbn [fst snd].
  apply returns_next_bindc.
  apply (returns_next_weaken _ _
           (fun _ w' => state w' a [] (c ++ RSTRING_PTR prefix))).
  { destruct (negb (is_nil prefix)) eqn:Hnil.
    - unfold returns_next. apply returns_bind.
      eapply returns_weaken; [apply splice_chunks_write_returns; exact Hst|].
      intros [err1 result1] w1 Hpost. cbn [fst] in Hpost.
      apply returns_next_bindc, returns_next_check_err. intros Herr.
      apply returns_next_ret. apply Hpost, Herr.
    - apply returns_next_ret. destruct prefix; try discriminate.
      cbn. rewrite app_nil_r. exact Hst. }
  intros [err1 result1] w1 Hst1.
  apply returns_next_bindc, returns_next_with_kernel_fuel. intros fuel.
  eapply returns_next_weaken; [apply chunks_loop_returns; exact Hst1|].
  intros [[total err2] result2] w2 (chunks & remaining & Htot & Hall & Ha & Hst2).
  cbn [fst] in Htot.
  apply returns_next_bindc.
  apply (returns_next_weaken _ _
           (fun _ w' => state w' remaining []
              ((c ++ RSTRING_PTR prefix) ++
               List.concat (map (framed chunk_prefix chunk_postfix) chunks) ++
               RSTRING_PTR postfix))).
  { destruct (negb (is_nil postfix)) eqn:Hnil.
    - unfold returns_next. apply returns_bind.
      eapply returns_weaken; [apply splice_chunks_write_returns; exact Hst2|].
      intros [err3 result3] w3 Hpost. cbn [fst] in Hpost.
      apply returns_next_bindc, returns_next_check_err. intros Herr.
      apply returns_next_ret. rewrite app_assoc. apply Hpost, Herr.
    - apply returns_next_ret. destruct postfix; try discriminate.
      cbn. rewrite app_nil_r. exact Hst2. }
  intros result3 w3 Hst3.
  assert (Hdone : forall w4, same_os w3 w4 ->
    exists chunks0 remaining0,
      total = bytes_len (List.concat chunks0) /\
      Forall (fun ch => ch <> [] /\ bytes_len ch <= to_size_t maxlen) chunks0 /\
      a = List.concat chunks0 ++ remaining0 /\
      state w4 remaining0 []
            (c ++ RSTRING_PTR prefix ++
             List.concat (map (framed chunk_prefix chunk_postfix) chunks0) ++
             RSTRING_PTR postfix)).
  { intros w4 Hw4. exists chunks, remaining.
    split; [lia|]. split; [exact Hall|]. split; [exact Ha|].
    rewrite <- app_assoc in Hst3.
    eapply chunk_state_same_os; eassumption. }
  unfold returns_next, get_rw_ctx. apply returns_bind, returns_get.
  destruct (is_nil _).
  - apply returns_bind, returns_snooze. intros v w4 Hw4.
    destruct (TEST_EXCEPTION v); apply returns_ret; intros x Hx;
      inversion Hx; subst. apply Hdone, Hw4.
  - apply returns_ret. intros x Hx. inversion Hx; subst.
    apply Hdone, same_os_refl.
Qed.

End ChunkedSplice.

Lemma sys_pipe_Done w rp r wr w1 :
  sys_pipe w = Done (rp, (r, wr)) w1 ->
  rp = -1 \/
  (rp = 0 /\ r = next_fd w /\ wr = next_fd w + 1 /\
   (exists x, kernel w = x :: kernel w1) /\
   pipes w1 = (wr, r) :: pipes w /\
   inbuf w1 = upd Z.eqb (inbuf w) r [] /\ outbuf w1 = outbuf w).
Proof.
  unfold sys_pipe. destruct (kernel w) as [|[x|e] k]; intros H; inversion H; subst.
  - right. repeat split. exists (KOk x). reflexivity.
  - left. reflexivity.
Qed.

Lemma returns_close_pipe pipefd w (Q : unit -> World -> Prop) :
  (forall w', inbuf w' = inbuf w -> outbuf w' = outbuf w -> Q tt w') ->
  returns (close_pipe pipefd) w Q.
Proof.
  intros HQ. unfold close_pipe, sys_close.
  apply returns_bind.
  assert (Hone : forall (c : bool) fd w1 (Q' : unit -> World -> Prop),
    (forall w2, inbuf w2 = inbuf w1 -> outbuf w2 = outbuf w1 -> Q' tt w2) ->
    returns (if c then modify (fun w => set_closed (fd :: closed w) w) else ret tt)
            w1 Q').
  { intros c fd w1 Q' HQ'. destruct c.
    - apply returns_modify, HQ'; reflexivity.
    - apply returns_ret, HQ'; reflexivity. }
  apply Hone. intros w1 Hi1 Ho1. apply Hone. intros w2 Hi2 Ho2.
  apply HQ; congruence.
Qed.

Lemma Backend_splice_chunks_returns
      src dest prefix postfix chunk_prefix chunk_postfix chunk_size src_fd dest_fd w :
  fd_for_reading src = Some src_fd ->
  fd_for_writing dest = Some dest_fd ->
  splice_fds_ok src_fd dest_fd w ->
  errnos_nonzero (kernel w) ->
  returns (Backend_splice_chunks src dest prefix postfix
                                 chunk_prefix chunk_postfix chunk_size) w
    (fun v w' =>
       exists chunks maxlen,
         chunk_size = Fixnum maxlen /\
         v = Fixnum (bytes_len (List.concat chunks)) /\
         Forall (fun ch => ch <> [] /\ bytes_len ch <= to_size_t maxlen) chunks /\
         inbuf w src_fd = List.concat chunks ++ inbuf w' src_fd /\
         outbuf w' dest_fd =
           outbuf w dest_fd ++ RSTRING_PTR prefix ++
           List.concat (map (framed chunk_prefix chunk_postfix) chunks) ++
           RSTRING_PTR postfix).
Proof.
  intros Hsrc Hdest (Hs & Hd & Hend) Hk.
  unfold Backend_splice_chunks.
  apply returns_bind, returns_GetOpenFile. intros sfd t1 Hio1.
  assert (sfd = src_fd) as ->.
  { unfold fd_for_reading, underlying_of in Hsrc. rewrite Hio1 in Hsrc.
    inversion Hsrc. reflexivity. }
  apply returns_bind, returns_GetOpenFile. intros dfd t2 Hio2.
  assert (dfd = dest_fd) as ->.
  { unfold fd_for_writing, underlying_of in Hdest. rewrite Hio2 in Hdest.
    inversion Hdest. reflexivity. }
  unfold new_libev_rw_io, get_rw_ctx, set_rw_ctx.
  apply returns_bind, returns_bind, returns_alloca.
  apply returns_bind, returns_get. apply returns_bind, returns_modify, returns_ret.
  apply returns_bind, returns_NUM2INT. intros maxlen Hmax.
  set (w0 := set_rw_ctxs _ _).
  apply returns_bind. intros [rp [pr pw]] w1 Hpipe.
  apply sys_pipe_Done in Hpipe
    as [->|(-> & -> & -> & (x & Hkw) & Hps & Hin & Hout)].
  { cbn [Z.eqb Pos.eqb]. apply returns_bind, returns_bind, returns_get, returns_ret.
    apply returns_bind, returns_close_pipe. intros w2 _ _. apply returns_raise. }
  change (next_fd w0) with (next_fd w) in *.
  change (pipes w0) with (pipes w) in Hps.
  change (inbuf w0) with (inbuf w) in Hin.
  change (outbuf w0) with (outbuf w) in Hout.
  change (kernel w0) with (kernel w) in Hkw.
  cbn [Z.eqb]. apply returns_bind.
  assert (Hne1 : src_fd <> next_fd w) by lia.
  assert (Hne2 : dest_fd <> next_fd w + 1) by lia.
  assert (Hpe : pipe_read_end (next_fd w + 1) (pipes w1) = Some (next_fd w)).
  { rewrite Hps. unfold pipe_read_end. cbn. rewrite Z.eqb_refl. reflexivity. }
  assert (Hde : forall r, pipe_read_end dest_fd (pipes w1) = Some r ->
                          r <> src_fd /\ r <> next_fd w).
  { intros r. rewrite Hps. unfold pipe_read_end. cbn.
    destruct (Z.eqb_spec (next_fd w + 1) dest_fd) as [E|_]; [lia|].
    intros Hr. destruct (Hend r Hr) as (H1 & H2). split; [exact H1|lia]. }
  assert (Hst : chunk_state src_fd (next_fd w) dest_fd (pipes w1) w1
                            (inbuf w src_fd) [] (outbuf w dest_fd)).
  { unfold chunk_state. split; [|split; [reflexivity|]].
    - unfold errnos_nonzero in *. rewrite Hkw in Hk. inversion Hk; assumption.
    - rewrite Hin, Hout. unfold upd. rewrite Z.eqb_refl.
      destruct (Z.eqb_spec (next_fd w) src_fd); [lia|]. repeat split. }
  eapply returns_weaken.
  { apply (splice_chunks_body_returns src_fd dest_fd (next_fd w) (next_fd w + 1)
             (pipes w1) Hne1 Hne2 Hpe Hde maxlen _ prefix postfix
             chunk_prefix chunk_postfix w1 _ _ Hst). }
  intros exit w2 Hexit. cbv beta in Hexit.
  destruct exit as [total|res|err].
  - destruct (Hexit total eq_refl)
      as (chunks & remaining & -> & Hall & Ha & (_ & _ & Hrem & _ & Hrecv)).
    apply returns_bind, returns_close_pipe. intros w3 Hi3 Ho3.
    apply returns_ret. exists chunks, maxlen.
    split; [exact Hmax|]. split; [reflexivity|]. split; [exact Hall|].
    rewrite Hi3, Ho3, Hrem, Hrecv. split; [exact Ha|reflexivity].
  - apply returns_bind, returns_close_pipe. intros w3 _ _. apply returns_raise.
  - apply returns_bind, returns_close_pipe. intros w3 _ _. apply returns_raise.
Qed.



(** The run of the example, byte by byte. *)
Example splice_chunks_example :
  exists w',
    Backend_splice_chunks (RFile 5 None) (RFile 6 None)
      (RString (bytes_of "<")) (RString (bytes_of ">"))
      (RProc len_digit) (RString (bytes_of ";")) (Fixnum 3) chunks_run
      = Done (Fixnum 5) w' /\
    outbuf w' 6 = bytes_of "<3:hel;2:lo;>" /\ inbuf w' 5 = [] /\
    closed w' = [8; 7].
Proof.
  eexists. split; [vm_compute; reflexivity|]. vm_compute. repeat split.
Qed.

(** A failed write of a chunk prefix is reported with errno 0: the [int err]
    declared in the block shadows the variable that the label
    [syscallerror] reads. *)
Example splice_chunks_shadowed_errno :
  exists w',
    Backend_splice_chunks (RFile 5 None) (RFile 6 None)
      (RString (bytes_of "<")) (RString (bytes_of ">"))
      (RProc len_digit) (RString (bytes_of ";")) (Fixnum 3) chunks_epipe_run
      = Raised (SystemCallError 0) w' /\
    errno w' = EPIPE /\ closed w' = [8; 7].
Proof.
  eexists. split; [vm_compute; reflexivity|]. vm_compute. split; reflexivity.
Qed.
(** * Further properties of the backend *)

(** ** Failing system calls, in any round and in every operation *)

Lemma suspended_same_fiber {A : Type} (r : result A) on w w' :
  cur_fiber w = cur_fiber w' -> suspended r on w -> suspended r on w'.
Proof.
  intros Hc (w1 & Hr & Hon). exists w1. split; [exact Hr|].
  rewrite <- Hc. exact Hon.
Qed.

(** A would-block answer with nothing left to happen: the fiber stays in
    its await with the watcher started. *)
Lemma libev_wait_fd_hangs {B : Type} fd watcher events w
      (k : VALUE * libev_io -> M B) :
  sched w = [] ->
  can_wait (WaitFd fd events watcher) w ->
  suspended (bind (libev_wait_fd_with_watcher fd watcher events) k w)
            (OnFd fd events) w.
Proof.
  intros Hs (Hfresh & Hw).
  destruct watcher as [a f ev fb]. cbn [io_addr io_fd io_events io_fiber] in *.
  assert (Hreg :
    bind (libev_wait_fd_with_watcher fd (mk_libev_io a f ev fb) events) k w
    = Hang (set_sched []
              (set_ev_loop (ev_loop w ++ [(a, EvIo fd events (cur_fiber w))]) w))).
  { apply bind_of_Hang. unfold libev_wait_fd_with_watcher. cbn [io_fiber].
    destruct Hw as [->|(-> & -> & ->)].
    - cbn [is_nil]. step_bind. cbn [io_addr io_fd io_events io_fiber].
      step_bind. apply bind_of_Hang.
      unfold backend_await, switch_fiber. rewrite Hfresh. cbn. rewrite Hs.
      reflexivity.
    - destruct (is_nil (cur_fiber w)).
      + step_bind. cbn [io_addr io_fd io_events io_fiber].
        step_bind. apply bind_of_Hang.
        unfold backend_await, switch_fiber. rewrite Hfresh. cbn. rewrite Hs.
        reflexivity.
      + step_bind. cbn [io_addr io_fd io_events io_fiber].
        step_bind. apply bind_of_Hang.
        unfold backend_await, switch_fiber. rewrite Hfresh. cbn. rewrite Hs.
        reflexivity. }
  eexists. split; [exact Hreg|].
  exists a. cbn. apply ev_lookup_started, Hfresh.
Qed.

Lemma libev_wait_rw_fd_hangs {B : Type} r_fd w_fd a w (K : VALUE -> M B) :
  sched w = [] ->
  can_wait (WaitBoth r_fd w_fd a) w ->
  suspended (bind (libev_wait_rw_fd_with_watcher r_fd w_fd a) K w)
            (OnBoth r_fd w_fd) w.
Proof.
  intros Hs (Hr & Hw & Hfr & Hfw & Hfib).
  destruct (libev_wait_rw_registers r_fd w_fd a w K Hr Hw Hfr Hfw)
    as (w1 & Heq & _ & Hs1 & _ & Hlr & Hlw & Hctx).
  exists (set_sched [] w1). split.
  - rewrite Heq. apply bind_of_Hang, bind_of_Hang.
    unfold backend_await, switch_fiber. rewrite Hs1, Hs. reflexivity.
  - exists a. split; [exact Hlr|]. split; [exact Hlw|].
    cbn [rw_ctxs set_sched]. rewrite Hctx. cbn [ctx_fiber].
    destruct Hfib as [-> | ->]; [reflexivity|].
    destruct (is_nil (cur_fiber w)); reflexivity.
Qed.

(** The round up to the test of errno, when the kernel answers [KErr e]. *)
Ltac failed_call Hk :=
  step_bind;
  erewrite bind_of_Done
    by (try unfold sys_send; try unfold sys_write; try unfold sys_read;
        try unfold sys_writev; try unfold sys_accept; try unfold sys_splice;
        cbn; rewrite Hk; reflexivity);
  cbn [Z.ltb Z.compare]; step_bind; cbn [errno set_errno].

Ltac raises_at_once Hk He :=
  eexists; split; [failed_call Hk; rewrite He; reflexivity | repeat split].

Ltac waits_on_fd Hk He Hs Hcan :=
  failed_call Hk; rewrite He;
  match goal with
  | |- suspended (bind _ _ ?W) _ _ =>
      apply (suspended_same_fiber _ _ W); [reflexivity|];
      apply libev_wait_fd_hangs; [exact Hs | exact Hcan]
  end.

Ltac waits_on_both Hk He Hs Hcan :=
  failed_call Hk; rewrite He;
  match goal with
  | |- suspended (bind _ _ ?W) _ _ =>
      apply (suspended_same_fiber _ _ W); [reflexivity|];
      apply libev_wait_rw_fd_hangs; [exact Hs | exact Hcan]
  end.

(** Every round of every loop tests errno in the same way. *)
Lemma io_round_fails {A : Type} (m : M A) rw e k w :
  io_round m rw ->
  kernel w = KErr e :: k ->
  (not_would_block e = true -> raises_errno (m w) e w k) /\
  (not_would_block e = false -> sched w = [] -> can_wait rw w ->
   suspended (m w) (what rw) w).
Proof.
  intros Hround Hk.
  destruct Hround as
    [ fuel fd watcher dynamic_len read_to_eof stored len total
    | fuel block fd watcher len
    | fuel rb_funcall receiver method_id fd watcher len
    | fuel fd watcher buf left Hleft
    | fuel fd watcher iov total_length total_written
    | fuel fd watcher buf left flags_int Hleft
    | fuel fd watcher socket_class
    | fuel block fd watcher socket_class
    | fuel src_fd dest_fd maxlen watcher Hmax
    | fuel src_fd dest_fd maxlen watcher total Hmax ];
    cbn [what].
  - split; [intros He | intros He Hs Hcan].
    + cbn [read_loop]. raises_at_once Hk He.
    + cbn [read_loop]. waits_on_fd Hk He Hs Hcan.
  - split; [intros He | intros He Hs Hcan].
    + cbn [read_loop_rounds]. raises_at_once Hk He.
    + cbn [read_loop_rounds]. waits_on_fd Hk He Hs Hcan.
  - split; [intros He | intros He Hs Hcan].
    + cbn [feed_loop_rounds]. raises_at_once Hk He.
    + cbn [feed_loop_rounds]. waits_on_fd Hk He Hs Hcan.
  - assert (Hpos : (0 <? left) = true) by (apply Z.ltb_lt; exact Hleft).
    split; [intros He | intros He Hs Hcan].
    + cbn [write_loop]. rewrite Hpos. raises_at_once Hk He.
    + cbn [write_loop]. rewrite Hpos. waits_on_fd Hk He Hs Hcan.
  - split; [intros He | intros He Hs Hcan].
    + cbn [writev_loop]. raises_at_once Hk He.
    + cbn [writev_loop]. waits_on_fd Hk He Hs Hcan.
  - assert (Hpos : (0 <? left) = true) by (apply Z.ltb_lt; exact Hleft).
    split; [intros He | intros He Hs Hcan].
    + cbn [send_loop]. rewrite Hpos. raises_at_once Hk He.
    + cbn [send_loop]. rewrite Hpos. waits_on_fd Hk He Hs Hcan.
  - split; [intros He | intros He Hs Hcan].
    + cbn [accept_rounds]. raises_at_once Hk He.
    + cbn [accept_rounds]. waits_on_fd Hk He Hs Hcan.
  - split; [intros He | intros He Hs Hcan].
    + cbn [accept_loop_rounds]. raises_at_once Hk He.
    + cbn [accept_loop_rounds]. waits_on_fd Hk He Hs Hcan.
  - destruct (NUM2INT_ok maxlen (set_op_count (op_count w + 1) w) Hmax)
      as (n & -> & Hn).
    split; [intros He | intros He Hs Hcan].
    + cbn [splice_loop]. eexists. split.
      { step_bind. erewrite bind_of_Done by exact Hn.
        erewrite bind_of_Done by (unfold sys_splice; cbn; rewrite Hk; reflexivity).
        cbn [Z.ltb Z.compare]. step_bind. cbn [errno set_errno]. rewrite He.
        reflexivity. }
      repeat split.
    + cbn [splice_loop].
      step_bind. erewrite bind_of_Done by exact Hn.
      erewrite bind_of_Done by (unfold sys_splice; cbn; rewrite Hk; reflexivity).
      cbn [Z.ltb Z.compare]. step_bind. cbn [errno set_errno]. rewrite He.
      match goal with
      | |- suspended (bind _ _ ?W) _ _ =>
          apply (suspended_same_fiber _ _ W); [reflexivity|];
          apply libev_wait_rw_fd_hangs; [exact Hs | exact Hcan]
      end.
  - destruct (NUM2INT_ok maxlen (set_op_count (op_count w + 1) w) Hmax)
      as (n & -> & Hn).
    split; [intros He | intros He Hs Hcan].
    + cbn [splice_to_eof_loop]. eexists. split.
      { step_bind. erewrite bind_of_Done by exact Hn.
        erewrite bind_of_Done by (unfold sys_splice; cbn; rewrite Hk; reflexivity).
        cbn [Z.ltb Z.compare]. step_bind. cbn [errno set_errno]. rewrite He.
        reflexivity. }
      repeat split.
    + cbn [splice_to_eof_loop].
      step_bind. erewrite bind_of_Done by exact Hn.
      erewrite bind_of_Done by (unfold sys_splice; cbn; rewrite Hk; reflexivity).
      cbn [Z.ltb Z.compare]. step_bind. cbn [errno set_errno]. rewrite He.
      match goal with
      | |- suspended (bind _ _ ?W) _ _ =>
          apply (suspended_same_fiber _ _ W); [reflexivity|];
          apply libev_wait_rw_fd_hangs; [exact Hs | exact Hcan]
      end.
Qed.

Lemma is_len_is_int v : is_len v -> is_int v.
Proof.
  intros (n & -> & Hn). exists n. split; [reflexivity|].
  unfold INT_MIN. lia.
Qed.

Lemma iov_of_argv_ok strs w :
  Forall is_string strs ->
  exists iov, strs = map RString iov /\ iov_of_argv strs w = Done iov w.
Proof.
  induction 1 as [|str strs (s & ->) _ (iov & -> & IH)].
  - exists []. split; reflexivity.
  - exists (s :: iov). split; [reflexivity|].
    cbn [iov_of_argv StringValuePtr]. step_bind.
    erewrite bind_of_Done by exact IH. reflexivity.
Qed.

Lemma Backend_read_reaches_loop io fd str length to_eof pos w :
  fd_for_reading io = Some fd ->
  nil_or is_string str -> nil_or is_len length -> is_int pos ->
  exists stored len (K : list byte * Z -> M VALUE),
    Backend_read io str length to_eof pos w =
    bind (with_kernel_fuel (fun fuel =>
            read_loop fuel fd (mk_libev_io (next_addr w) (-1) 0 Qnil)
                      (is_nil length) (RTEST to_eof) stored len 0))
         K (set_next_addr (next_addr w + 1) w).
Proof.
  intros Hio Hstr Hlen Hpos. unfold Backend_read.
  destruct (NUM2INT_ok pos w Hpos) as (p & -> & Hp).
  destruct Hlen as [->|Hlen].
  - cbn [is_nil]. step_bind. erewrite bind_of_Done by exact Hp.
    destruct Hstr as [->|(s & ->)]; cbn [is_nil]; step_bind;
      erewrite bind_of_Done by (apply GetOpenFile_reading; exact Hio);
      unfold new_libev_io; step_bind; eexists _, _, _; reflexivity.
  - destruct (NUM2INT_ok length w (is_len_is_int _ Hlen)) as (n & -> & Hn).
    cbn [is_nil]. erewrite bind_of_Done by exact Hn.
    erewrite bind_of_Done by exact Hp.
    destruct Hstr as [->|(s & ->)]; cbn [is_nil]; step_bind;
      erewrite bind_of_Done by (apply GetOpenFile_reading; exact Hio);
      unfold new_libev_io; step_bind; eexists _, _, _; reflexivity.
Qed.

(** How an operation reaches the first round of its loop. *)
Lemma io_operation_reaches_loop m on w :
  io_operation m on ->
  exists (A : Type) (loop : nat -> M A) (K : A -> M VALUE) rw w0,
    m w = bind (with_kernel_fuel loop) K w0 /\
    what rw = on /\
    (forall fuel, io_round (loop (S fuel)) rw) /\
    kernel w0 = kernel w /\ sched w0 = sched w /\ ev_loop w0 = ev_loop w /\
    op_count w0 = op_count w /\ cur_fiber w0 = cur_fiber w /\
    (fresh_addrs w -> can_wait rw w0).
Proof.
  intros Hop.
  assert (Hfd : forall fd events,
    fresh_addrs w ->
    can_wait (WaitFd fd events (mk_libev_io (next_addr w) (-1) 0 Qnil))
             (set_next_addr (next_addr w + 1) w)).
  { intros fd events Hfresh. split; [|left; reflexivity].
    apply Hfresh. apply Nat.le_refl. }
  assert (Hboth : forall r_fd w_fd,
    r_fd <> -1 -> w_fd <> -1 -> fresh_addrs w ->
    can_wait (WaitBoth r_fd w_fd (next_addr w))
      (set_rw_ctxs (upd Nat.eqb (rw_ctxs w) (next_addr w)
                      (mk_rw_ctx (ref_count (rw_ctxs w (next_addr w))) Qnil))
         (set_next_addr (next_addr w + 2) w))).
  { intros r_fd w_fd Hr Hw Hfresh. split; [exact Hr|]. split; [exact Hw|].
    split; [apply Hfresh; unfold rw_r; apply Nat.le_refl|].
    split; [apply Hfresh; unfold rw_w; lia|].
    left. cbn. unfold upd. rewrite Nat.eqb_refl. reflexivity. }
  destruct Hop as
    [ io fd str length to_eof pos Hio Hstr Hlen Hpos
    | io fd str length pos Hio Hstr Hlen Hpos
    | block io fd maxlen Hio Hmax
    | rb_funcall io fd receiver name Hio
    | io fd s Hio Hs
    | io fd strs Hio Hstrs
    | io fd s flags Hio Hs Hflags
    | server_socket fd socket_class Hio
    | block server_socket fd socket_class Hio
    | src dest src_fd dest_fd maxlen Hsrc Hdest Hr Hw Hmax
    | src dest src_fd dest_fd maxlen Hsrc Hdest Hr Hw Hmax ].
  - (* read *)
    destruct (Backend_read_reaches_loop io fd str length to_eof pos w
                Hio Hstr Hlen Hpos) as (stored & len & K & Heq).
    exists (list byte * Z)%type. do 2 eexists.
    exists (WaitFd fd EV_READ (mk_libev_io (next_addr w) (-1) 0 Qnil)).
    exists (set_next_addr (next_addr w + 1) w).
    split; [exact Heq|split; [reflexivity|split]].
    + intros fuel. cbv beta. constructor.
    + do 5 (split; [reflexivity|]). apply Hfd.
  - (* recv *)
    destruct (Backend_read_reaches_loop io fd str length Qnil pos w
                Hio Hstr Hlen Hpos) as (stored & len & K & Heq).
    exists (list byte * Z)%type. do 2 eexists.
    exists (WaitFd fd EV_READ (mk_libev_io (next_addr w) (-1) 0 Qnil)).
    exists (set_next_addr (next_addr w + 1) w).
    split; [exact Heq|split; [reflexivity|split]].
    + intros fuel. cbv beta. constructor.
    + do 5 (split; [reflexivity|]). apply Hfd.
  - (* read_loop *)
    destruct (NUM2INT_ok maxlen w (is_len_is_int _ Hmax)) as (n & -> & Hn).
    exists unit. do 2 eexists.
    exists (WaitFd fd EV_READ (mk_libev_io (next_addr w) (-1) 0 Qnil)).
    exists (set_next_addr (next_addr w + 1) w).
    split; [|split; [reflexivity|split]].
    + unfold Backend_read_loop.
      erewrite bind_of_Done by exact Hn.
      erewrite bind_of_Done
        by (unfold READ_LOOP_PREPARE_STR;
            destruct Hmax as (n' & Hn' & Hr); inversion Hn'; subst n';
            destruct (Z.ltb_spec n 0); [lia | reflexivity]).
      erewrite bind_of_Done by (apply GetOpenFile_reading; exact Hio).
      unfold new_libev_io. step_bind. reflexivity.
    + intros fuel. cbv beta. constructor.
    + do 5 (split; [reflexivity|]). apply Hfd.
  - (* feed_loop *)
    exists unit. do 2 eexists.
    exists (WaitFd fd EV_READ (mk_libev_io (next_addr w) (-1) 0 Qnil)).
    exists (set_next_addr (next_addr w + 1) w).
    split; [|split; [reflexivity|split]].
    + unfold Backend_feed_loop. cbn [SYM2ID]. step_bind. step_bind.
      erewrite bind_of_Done by (apply GetOpenFile_reading; exact Hio).
      unfold new_libev_io. step_bind. reflexivity.
    + intros fuel. cbv beta. constructor.
    + do 5 (split; [reflexivity|]). apply Hfd.
  - (* write *)
    exists libev_io. do 2 eexists.
    exists (WaitFd fd EV_WRITE (mk_libev_io (next_addr w) (-1) 0 Qnil)).
    exists (set_next_addr (next_addr w + 1) w).
    split; [|split; [reflexivity|split]].
    + unfold Backend_write. step_bind.
      erewrite bind_of_Done by (apply GetOpenFile_writing; exact Hio).
      unfold new_libev_io. step_bind. reflexivity.
    + intros fuel. cbv beta. constructor. apply nonempty_len, Hs.
    + do 5 (split; [reflexivity|]). apply Hfd.
  - (* writev *)
    destruct (iov_of_argv_ok strs (set_next_addr (next_addr w + 1) w) Hstrs)
      as (iov & -> & Hiov).
    exists (libev_io * Z)%type. do 2 eexists.
    exists (WaitFd fd EV_WRITE (mk_libev_io (next_addr w) (-1) 0 Qnil)).
    exists (set_next_addr (next_addr w + 1) w).
    split; [|split; [reflexivity|split]].
    + unfold Backend_writev.
      erewrite bind_of_Done by (apply GetOpenFile_writing; exact Hio).
      unfold new_libev_io. step_bind.
      erewrite bind_of_Done by exact Hiov. reflexivity.
    + intros fuel. cbv beta. constructor.
    + do 5 (split; [reflexivity|]). apply Hfd.
  - (* send *)
    destruct (NUM2INT_ok flags w Hflags) as (fl & -> & Hfl).
    exists libev_io. do 2 eexists.
    exists (WaitFd fd EV_WRITE (mk_libev_io (next_addr w) (-1) 0 Qnil)).
    exists (set_next_addr (next_addr w + 1) w).
    split; [|split; [reflexivity|split]].
    + unfold Backend_send. step_bind. erewrite bind_of_Done by exact Hfl.
      erewrite bind_of_Done by (apply GetOpenFile_writing; exact Hio).
      unfold new_libev_io. step_bind. reflexivity.
    + intros fuel. cbv beta. constructor. apply nonempty_len, Hs.
    + do 5 (split; [reflexivity|]). apply Hfd.
  - (* accept *)
    exists VALUE. exists (fun fuel =>
      accept_rounds fuel fd (mk_libev_io (next_addr w) (-1) 0 Qnil) socket_class).
    exists ret.
    exists (WaitFd fd EV_READ (mk_libev_io (next_addr w) (-1) 0 Qnil)).
    exists (set_next_addr (next_addr w + 1) w).
    split; [|split; [reflexivity|split]].
    + unfold Backend_accept.
      erewrite bind_of_Done by (apply GetOpenFile_reading; exact Hio).
      unfold new_libev_io. step_bind. rewrite bind_ret_r. reflexivity.
    + intros fuel. cbv beta. constructor.
    + do 5 (split; [reflexivity|]). apply Hfd.
  - (* accept_loop *)
    exists VALUE. exists (fun fuel =>
      accept_loop_rounds fuel block fd (mk_libev_io (next_addr w) (-1) 0 Qnil)
                         socket_class).
    exists ret.
    exists (WaitFd fd EV_READ (mk_libev_io (next_addr w) (-1) 0 Qnil)).
    exists (set_next_addr (next_addr w + 1) w).
    split; [|split; [reflexivity|split]].
    + unfold Backend_accept_loop.
      erewrite bind_of_Done by (apply GetOpenFile_reading; exact Hio).
      unfold new_libev_io. step_bind. rewrite bind_ret_r. reflexivity.
    + intros fuel. cbv beta. constructor.
    + do 5 (split; [reflexivity|]). apply Hfd.
  - (* splice *)
    exists Z. do 2 eexists.
    exists (WaitBoth src_fd dest_fd (next_addr w)).
    eexists.
    split; [|split; [reflexivity|split]].
    + unfold Backend_splice.
      erewrite bind_of_Done by (apply GetOpenFile_reading; exact Hsrc).
      erewrite bind_of_Done by (apply GetOpenFile_writing; exact Hdest).
      unfold new_libev_rw_io. step_bind. reflexivity.
    + intros fuel. cbv beta. constructor. exact Hmax.
    + do 5 (split; [reflexivity|]). apply Hboth; assumption.
  - (* splice_to_eof *)
    exists Z. do 2 eexists.
    exists (WaitBoth src_fd dest_fd (next_addr w)).
    eexists.
    split; [|split; [reflexivity|split]].
    + unfold Backend_splice_to_eof.
      erewrite bind_of_Done by (apply GetOpenFile_reading; exact Hsrc).
      erewrite bind_of_Done by (apply GetOpenFile_writing; exact Hdest).
      unfold new_libev_rw_io. step_bind. reflexivity.
    + intros fuel. cbv beta. constructor. exact Hmax.
    + do 5 (split; [reflexivity|]). apply Hboth; assumption.
Qed.

(** X1.  Any round of the loop of any I/O operation, whatever the loop
    has done before: when the system call of the round fails with errno
    [e], the round raises [SystemCallError] for [e] at once unless [e] is
    EWOULDBLOCK or EAGAIN; in that case it does not raise but starts the
    watcher it has at hand on the descriptors of the operation and leaves the
    fiber suspended. *)
Theorem io_round_failure {A : Type} (m : M A) rw e k w :
  io_round m rw ->
  kernel w = KErr e :: k ->
  (e <> EWOULDBLOCK -> e <> EAGAIN -> raises_errno (m w) e w k) /\
  (e = EWOULDBLOCK \/ e = EAGAIN -> sched w = [] -> can_wait rw w ->
   suspended (m w) (what rw) w).
Proof.
  intros Hround Hk.
  destruct (io_round_fails m rw e k w Hround Hk) as (Hhard & Hblock).
  split.
  - intros H1 H2. apply Hhard, not_would_block_true; assumption.
  - intros He. apply Hblock, not_would_block_false, He.
Qed.

Lemma io_round_failure_witness :
  raises_errno
    (write_loop 1 6 (mk_libev_io 0 6 EV_WRITE (RFiber 0)) hello 5 (failing_run EPIPE))
    EPIPE (failing_run EPIPE) [] /\
  suspended
    (accept_rounds 1 4 (mk_libev_io 0 4 EV_READ (RFiber 0)) Qnil (failing_run EAGAIN))
    (OnFd 4 EV_READ) (failing_run EAGAIN).
Proof.
  split.
  - apply (proj1 (io_round_failure _ _ EPIPE [] (failing_run EPIPE)
                    (round_write 0 6 (mk_libev_io 0 6 EV_WRITE (RFiber 0)) hello 5
                                 eq_refl) eq_refl)).
    + discriminate.
    + discriminate.
  - apply (proj2 (io_round_failure _ _ EAGAIN [] (failing_run EAGAIN)
                    (round_accept 0 4 (mk_libev_io 0 4 EV_READ (RFiber 0)) Qnil)
                    eq_refl)).
    + right. reflexivity.
    + reflexivity.
    + split; [reflexivity|]. right. repeat split.
Defined.

(** X2.  Every I/O operation but connect, from its start: read, recv,
    read_loop, feed_loop, write, writev, send, accept, accept_loop, splice
    and splice_to_eof.  When the first system call fails with errno [e], the
    operation raises [SystemCallError] for [e] unless [e] is EWOULDBLOCK or
    EAGAIN, and then it leaves the fiber suspended on the descriptors of
    the operation. *)
Theorem io_operation_failure m on e k w :
  io_operation m on ->
  kernel w = KErr e :: k ->
  (e <> EWOULDBLOCK -> e <> EAGAIN -> raises_errno (m w) e w k) /\
  (e = EWOULDBLOCK \/ e = EAGAIN -> sched w = [] -> fresh_addrs w ->
   suspended (m w) on w).
Proof.
  intros Hop Hk.
  destruct (io_operation_reaches_loop m on w Hop)
    as (A & loop & K & rw & w0 & Heq & <- & Hround & Hk0 & Hs0 & Hev0 & Hop0
        & Hcur0 & Hcan).
  rewrite <- Hk0 in Hk.
  destruct (io_round_fails (loop (S (List.length (kernel w0)))) rw e k w0
              (Hround _) Hk) as (Hhard & Hblock).
  split.
  - intros H1 H2.
    destruct (Hhard (not_would_block_true e H1 H2))
      as (w' & Hr & Hk' & Hs' & Hev' & Hop').
    exists w'. split.
    + rewrite Heq. apply bind_of_Raised. exact Hr.
    + repeat split; congruence.
  - intros He Hs Hfresh.
    destruct (Hblock (not_would_block_false e He)) as (w' & Hr & Hon).
    + congruence.
    + apply Hcan, Hfresh.
    + exists w'. split.
      * rewrite Heq. apply bind_of_Hang. exact Hr.
      * rewrite <- Hcur0. exact Hon.
Qed.

Lemma io_operation_failure_witness :
  raises_errno (Backend_writev (RFile 6 None) [RString hello; RString hello]
                               (failing_run EPIPE))
               EPIPE (failing_run EPIPE) [] /\
  suspended (Backend_accept (RFile 4 None) Qnil (failing_run EAGAIN))
            (OnFd 4 EV_READ) (failing_run EAGAIN).
Proof.
  split.
  - apply (proj1 (io_operation_failure _ _ EPIPE [] (failing_run EPIPE)
                    (op_writev (RFile 6 None) 6 [RString hello; RString hello]
                       eq_refl
                       (Forall_cons _ (ex_intro _ hello eq_refl)
                          (Forall_cons _ (ex_intro _ hello eq_refl)
                             (Forall_nil _))))
                    eq_refl)).
    + discriminate.
    + discriminate.
  - apply (proj2 (io_operation_failure _ _ EAGAIN [] (failing_run EAGAIN)
                    (op_accept (RFile 4 None) 4 Qnil eq_refl) eq_refl)).
    + right. reflexivity.
    + reflexivity.
    + intros a _. reflexivity.
Defined.

(** ** Backend_writev: the vectors, in order *)

Lemma skipn_app_le {X : Type} (n : nat) (l1 l2 : list X) :
  (n <= List.length l1)%nat -> skipn n (l1 ++ l2) = skipn n l1 ++ l2.
Proof.
  intros H. rewrite skipn_app.
  replace (n - List.length l1)%nat with 0%nat by lia. reflexivity.
Qed.

Lemma skipn_app_ge {X : Type} (n : nat) (l1 l2 : list X) :
  (List.length l1 <= n)%nat -> skipn n (l1 ++ l2) = skipn (n - List.length l1) l2.
Proof.
  intros H. rewrite skipn_app. rewrite skipn_all2 by exact H. reflexivity.
Qed.

(** Advancing the vectors by [n] bytes drops the first [n] bytes of what they
    hold. *)
Lemma iov_advance_concat iov : forall n,
  0 <= n <= bytes_len (List.concat iov) ->
  List.concat (iov_advance iov n) = skipn (Z.to_nat n) (List.concat iov).
Proof.
  induction iov as [|v iov IH]; intros n Hn.
  - simpl. rewrite skipn_nil. reflexivity.
  - cbn [iov_advance]. simpl List.concat in *. rewrite bytes_len_app in Hn.
    pose proof (bytes_len_nonneg v) as Hv.
    destruct (0 <? n) eqn:Hpos.
    + apply Z.ltb_lt in Hpos.
      destruct (n <? bytes_len v) eqn:Hlt.
      * apply Z.ltb_lt in Hlt. simpl.
        rewrite skipn_app_le by (unfold bytes_len in Hlt; lia). reflexivity.
      * apply Z.ltb_ge in Hlt.
        rewrite IH by lia.
        rewrite skipn_app_ge by (unfold bytes_len in Hlt; lia).
        f_equal. unfold bytes_len in *. lia.
    + apply Z.ltb_ge in Hpos. replace n with 0 by lia. reflexivity.
Qed.

Lemma sys_writev_Done fd iov w n w' :
  sys_writev fd iov w = Done n w' ->
  (n = -1 /\ same_os (set_kernel (kernel w') (set_errno (errno w') w)) w' /\
   outbuf w' = outbuf w) \/
  (exists data k,
     n = bytes_len data /\
     List.concat iov = data ++ skipn (List.length data) (List.concat iov) /\
     w' = deliver fd data (set_kernel k w)).
Proof.
  unfold sys_writev. destruct (kernel w) as [|[a|e] k]; intros H; inversion H; subst.
  - right. eexists _, k. split; [reflexivity|]. split; [|reflexivity].
    rewrite length_firstn.
    set (c := Z.to_nat (Z.max 0 a)).
    destruct (Nat.le_ge_cases c (List.length (List.concat iov))) as [Hc|Hc].
    + rewrite Nat.min_l by exact Hc. symmetry. apply firstn_skipn.
    + rewrite Nat.min_r by exact Hc. rewrite firstn_all2 by exact Hc.
      rewrite skipn_all. rewrite app_nil_r. reflexivity.
  - left. split; [reflexivity|]. split; [|reflexivity].
    unfold same_os. repeat split.
Qed.

Lemma writev_loop_returns fuel : forall fd watcher iov total_length total_written w,
  total_length = total_written + bytes_len (List.concat iov) ->
  returns (writev_loop fuel fd watcher iov total_length total_written) w
    (fun r w' => snd r = total_length /\
                 outbuf w' fd = outbuf w fd ++ List.concat iov).
Proof.
  induction fuel as [|fuel IH]; intros fd watcher iov total_length total_written w Hinv;
    simpl.
  - apply returns_hang.
  - apply returns_bind, returns_modify.
    apply returns_bind. intros n w1 Hn.
    apply sys_writev_Done in Hn as [(-> & _ & Hout)|(data & k & -> & Hcat & ->)].
    + simpl. apply returns_bind, returns_get.
      destruct (not_would_block _); [apply returns_raise|].
      apply returns_bind, returns_libev_wait_fd_with_watcher.
      intros v wt w2 Hw2.
      destruct (TEST_EXCEPTION v); [apply returns_raise|].
      eapply returns_weaken; [apply IH; exact Hinv|].
      intros r w3 (Hr & Hw3). split; [exact Hr|]. rewrite Hw3.
      destruct Hw2 as (_ & _ & _ & Hout2 & _). rewrite Hout2, Hout.
      reflexivity.
    + pose proof (bytes_len_nonneg data) as Hd.
      destruct (bytes_len data <? 0) eqn:Hneg; [apply Z.ltb_lt in Hneg; lia|].
      assert (Hlen : bytes_len (List.concat iov) =
                     bytes_len data
                     + bytes_len (skipn (List.length data) (List.concat iov))).
      { rewrite Hcat at 1. apply bytes_len_app. }
      pose proof (bytes_len_nonneg (skipn (List.length data) (List.concat iov)))
        as Hrest.
      destruct (total_written + bytes_len data =? total_length) eqn:Hdone.
      * apply returns_ret. apply Z.eqb_eq in Hdone. split; [exact Hdone|].
        rewrite deliver_outbuf. simpl.
        assert (Hnil : skipn (List.length data) (List.concat iov) = []).
        { destruct (skipn (List.length data) (List.concat iov)); [reflexivity|].
          unfold bytes_len in *. simpl in *. lia. }
        rewrite Hnil, app_nil_r in Hcat. rewrite Hcat. reflexivity.
      * eapply returns_weaken.
        -- apply IH. rewrite iov_advance_concat by lia.
           replace (Z.to_nat (bytes_len data)) with (List.length data)
             by (unfold bytes_len; lia).
           lia.
        -- intros r w3 (Hr & Hw3). split; [exact Hr|]. rewrite Hw3.
           rewrite deliver_outbuf. simpl.
           rewrite iov_advance_concat by lia.
           replace (Z.to_nat (bytes_len data)) with (List.length data)
             by (unfold bytes_len; lia).
           rewrite <- app_assoc, <- Hcat. reflexivity.
Qed.

Lemma returns_iov_of_argv argv : forall w (Q : list (list byte) -> World -> Prop),
  (forall iov, argv = map RString iov -> Q iov w) ->
  returns (iov_of_argv argv) w Q.
Proof.
  induction argv as [|str argv IH]; intros w Q HQ; cbn [iov_of_argv].
  - apply returns_ret, (HQ []). reflexivity.
  - destruct str; cbn [StringValuePtr];
      try (apply returns_bind, returns_raise).
    apply returns_bind, returns_ret.
    apply returns_bind, IH. intros iov ->.
    apply returns_ret, (HQ (bytes :: iov)). reflexivity.
Qed.

Lemma Backend_writev_returns io strs w :
  returns (Backend_writev io strs) w
    (fun v w' =>
       exists fd iov,
         fd_for_writing io = Some fd /\ strs = map RString iov /\
         v = Fixnum (bytes_len (List.concat iov)) /\
         outbuf w' fd = outbuf w fd ++ List.concat iov).
Proof.
  unfold Backend_writev.
  apply returns_bind, returns_GetOpenFile. intros fd t Hio.
  unfold new_libev_io.
  apply returns_bind, returns_bind, returns_alloca, returns_ret.
  apply returns_bind, returns_iov_of_argv. intros iov ->.
  apply returns_bind, returns_with_kernel_fuel. intros fuel.
  eapply returns_weaken; [apply writev_loop_returns; lia|].
  intros [wt tw] w1 (Htw & Hout). cbn [snd] in Htw.
  apply returns_bind, returns_snooze_unless_waited. intros w2 Hw2.
  apply returns_ret. exists fd, iov.
  split; [unfold fd_for_writing, underlying_of; rewrite Hio; reflexivity|].
  split; [reflexivity|]. split; [rewrite Htw; reflexivity|].
  destruct Hw2 as (_ & _ & _ & Hout2 & _). rewrite Hout2, Hout. reflexivity.
Qed.



(** ** Backend_write_m: one string or several *)



(** ** Backend_send: every byte, in order *)

Lemma send_loop_returns fuel : forall fd watcher buf left flags_int w,
  left = bytes_len buf ->
  returns (send_loop fuel fd watcher buf left flags_int) w
    (fun _ w' => outbuf w' fd = outbuf w fd ++ buf).
Proof.
  induction fuel as [|fuel IH]; intros fd watcher buf left flags_int w Hleft; simpl.
  - apply returns_hang.
  - destruct (0 <? left) eqn:Hpos.
    + apply returns_bind, returns_modify.
      apply returns_bind. intros n w1 Hn. unfold sys_send in Hn.
      apply sys_write_Done in Hn
        as [(-> & _ & Hout & _)|(data & k & -> & Hbuf & _ & ->)].
      * simpl. apply returns_bind, returns_get.
        destruct (not_would_block _); [apply returns_raise|].
        apply returns_bind, returns_libev_wait_fd_with_watcher.
        intros v wt w2 Hw2.
        destruct (TEST_EXCEPTION v); [apply returns_raise|].
        eapply returns_weaken; [apply IH; exact Hleft|].
        intros wt' w3 Hw3. rewrite Hw3.
        destruct Hw2 as (_ & _ & _ & Hout2 & _). rewrite Hout2, Hout.
        reflexivity.
      * pose proof (bytes_len_nonneg data) as Hd.
        destruct (bytes_len data <? 0) eqn:Hneg; [apply Z.ltb_lt in Hneg; lia|].
        eapply returns_weaken.
        -- apply IH. rewrite Hleft.
           rewrite Hbuf at 1. rewrite bytes_len_app. unfold bytes_len.
           rewrite Nat2Z.id. lia.
        -- intros wt' w3 Hw3. cbv beta in Hw3. rewrite Hw3.
           rewrite deliver_outbuf. simpl.
           unfold bytes_len. rewrite Nat2Z.id.
           rewrite <- app_assoc, <- Hbuf. reflexivity.
    + apply returns_ret.
      apply Z.ltb_ge in Hpos. pose proof (bytes_len_nonneg buf).
      assert (Hnil : buf = []).
      { destruct buf; [reflexivity|]. unfold bytes_len in *. simpl in *. lia. }
      rewrite Hnil, app_nil_r. reflexivity.
Qed.

Lemma returns_NUM2INT_any v w (Q : Z -> World -> Prop) :
  (forall n, v = Fixnum n -> Q n w) -> returns (NUM2INT v) w Q.
Proof.
  intros HQ. destruct v; simpl; try apply returns_raise.
  destruct (_ && _); [|apply returns_raise].
  apply returns_ret, HQ. reflexivity.
Qed.

Lemma Backend_send_returns io str flags w :
  returns (Backend_send io str flags) w
    (fun v w' =>
       exists fd s,
         fd_for_writing io = Some fd /\ str = RString s /\
         v = Fixnum (bytes_len s) /\ outbuf w' fd = outbuf w fd ++ s).
Proof.
  unfold Backend_send.
  destruct str; cbn [StringValuePtr]; try (apply returns_bind, returns_raise).
  apply returns_bind, returns_ret.
  apply returns_bind, returns_NUM2INT_any. intros fl _.
  apply returns_bind, returns_GetOpenFile. intros fd t Hio.
  unfold new_libev_io.
  apply returns_bind, returns_bind, returns_alloca, returns_ret.
  apply returns_bind, returns_with_kernel_fuel. intros fuel.
  eapply returns_weaken; [apply send_loop_returns; reflexivity|].
  intros wt w1 Hout. cbv beta in Hout.
  apply returns_bind, returns_snooze_unless_waited. intros w2 Hw2.
  apply returns_ret. exists fd, bytes.
  split; [unfold fd_for_writing, underlying_of; rewrite Hio; reflexivity|].
  split; [reflexivity|]. split; [reflexivity|].
  destruct Hw2 as (_ & _ & _ & Hout2 & _). rewrite Hout2, Hout. reflexivity.
Qed.



(** ** Backend_splice, Backend_splice_to_eof: what leaves the source arrives *)

Lemma transferred_nil src_fd dest_fd w w' :
  inbuf w' = inbuf w -> outbuf w' = outbuf w -> pipes w' = pipes w ->
  transferred src_fd dest_fd [] w w'.
Proof.
  intros Hi Ho Hp. unfold transferred. rewrite Hi, Ho, app_nil_r.
  repeat split. exact Hp.
Qed.

Lemma transferred_app src_fd dest_fd d1 d2 w1 w2 w3 :
  transferred src_fd dest_fd d1 w1 w2 ->
  transferred src_fd dest_fd d2 w2 w3 ->
  transferred src_fd dest_fd (d1 ++ d2) w1 w3.
Proof.
  intros (Hi1 & Ho1 & Hp1) (Hi2 & Ho2 & Hp2). unfold transferred.
  rewrite Hi1, Hi2, Ho2, Ho1, !app_assoc. repeat split. congruence.
Qed.

Lemma transferred_same_os src_fd dest_fd w w' : 
  same_os w w' -> transferred src_fd dest_fd [] w w'.
Proof.
  intros (_ & _ & Hi & Ho & Hp & _). apply transferred_nil; assumption.
Qed.

Lemma sys_splice_Done src_fd dest_fd maxlen w n w' :
  no_loop_back src_fd dest_fd w ->
  sys_splice src_fd dest_fd maxlen w = Done n w' ->
  (n = -1 /\ inbuf w' = inbuf w /\ outbuf w' = outbuf w /\ pipes w' = pipes w) \/
  (exists data, n = bytes_len data /\ n <= to_size_t maxlen /\
                transferred src_fd dest_fd data w w').
Proof.
  intros Hloop H. unfold sys_splice in H.
  destruct (kernel w) as [|[x|e] k]; inversion H; subst; clear H.
  - right. destruct (moved_prefix x maxlen (inbuf w src_fd)) as (Hpre & Hle & _).
    eexists. split; [reflexivity|]. split; [exact Hle|].
    set (data := firstn _ (inbuf w src_fd)) in *.
    unfold transferred. rewrite deliver_outbuf.
    split; [|split; [reflexivity|]].
    + unfold deliver. cbn [pipes set_outbuf consume set_inbuf set_kernel].
      unfold no_loop_back in Hloop.
      destruct (pipe_read_end dest_fd (pipes w)) as [r|] eqn:Hr.
      * cbn. unfold upd. destruct (Z.eqb_spec r src_fd) as [->|_]; [congruence|].
        rewrite Z.eqb_refl. exact Hpre.
      * cbn. unfold upd. rewrite Z.eqb_refl. exact Hpre.
    + unfold deliver. cbn [pipes set_outbuf consume set_inbuf set_kernel].
      destruct (pipe_read_end dest_fd (pipes w)); reflexivity.
  - left. repeat split.
Qed.

Lemma no_loop_back_same_pipes src_fd dest_fd w w' :
  pipes w' = pipes w -> no_loop_back src_fd dest_fd w -> no_loop_back src_fd dest_fd w'.
Proof. unfold no_loop_back. intros ->. exact (fun H => H). Qed.

Lemma splice_loop_returns fuel : forall src_fd dest_fd maxlen watcher w,
  no_loop_back src_fd dest_fd w ->
  returns (splice_loop fuel src_fd dest_fd maxlen watcher) w
    (fun len w' =>
       exists data n, len = bytes_len data /\ maxlen = Fixnum n /\
                      len <= to_size_t n /\
                      transferred src_fd dest_fd data w w').
Proof.
  induction fuel as [|fuel IH]; intros src_fd dest_fd maxlen watcher w Hloop; simpl.
  - apply returns_hang.
  - apply returns_bind, returns_modify.
    apply returns_bind, returns_NUM2INT_any. intros n ->.
    apply returns_bind. intros len w1 Hlen.
    apply sys_splice_Done in Hlen as [(-> & Hi & Ho & Hp)|(data & -> & Hle & Ht)];
      [ | | exact Hloop].
    + simpl. cbn in Hi, Ho, Hp. apply returns_bind, returns_get.
      destruct (not_would_block _); [apply returns_raise|].
      apply returns_bind, returns_libev_wait_rw. intros v w2 Hw2.
      destruct (TEST_EXCEPTION v); [apply returns_raise|].
      eapply returns_weaken.
      * apply IH. destruct Hw2 as (_ & _ & _ & _ & Hp2 & _).
        apply (no_loop_back_same_pipes src_fd dest_fd w); [congruence | exact Hloop].
      * intros len w3 (data & n' & Hl & Hn & Hle & Ht).
        exists data, n'. split; [exact Hl|]. split; [exact Hn|]. split; [exact Hle|].
        apply (transferred_app _ _ [] data w w2 w3); [|exact Ht].
        apply (transferred_app _ _ [] [] w w1 w2).
        -- apply transferred_nil; assumption.
        -- apply transferred_same_os, Hw2.
    + pose proof (bytes_len_nonneg data) as Hd.
      destruct (bytes_len data <? 0) eqn:Hneg; [apply Z.ltb_lt in Hneg; lia|].
      apply returns_ret. exists data, n. repeat split; try assumption;
        destruct Ht as (H1 & H2 & H3); assumption.
Qed.

Lemma returns_new_libev_rw_io w (Q : nat -> World -> Prop) :
  (forall a w', same_os (set_next_addr (next_addr w') w) w' -> Q a w') ->
  returns new_libev_rw_io w Q.
Proof.
  intros HQ. unfold new_libev_rw_io, get_rw_ctx, set_rw_ctx.
  apply returns_bind, returns_alloca. apply returns_bind, returns_get.
  apply returns_bind, returns_modify, returns_ret. apply HQ.
  unfold same_os. repeat split.
Qed.

Lemma Backend_splice_returns src dest maxlen w :
  returns (Backend_splice src dest maxlen) w
    (fun v w' =>
       forall src_fd dest_fd,
         fd_for_reading src = Some src_fd -> fd_for_writing dest = Some dest_fd ->
         no_loop_back src_fd dest_fd w ->
         exists data n, v = Fixnum (bytes_len data) /\ maxlen = Fixnum n /\
                        bytes_len data <= to_size_t n /\
                        transferred src_fd dest_fd data w w').
Proof.
  unfold Backend_splice.
  apply returns_bind, returns_GetOpenFile. intros src_fd ts Hsrc.
  apply returns_bind, returns_GetOpenFile. intros dest_fd td Hdest.
  apply returns_bind, returns_new_libev_rw_io. intros a w0 Hw0.
  apply returns_bind, returns_with_kernel_fuel. intros fuel.
  intros len w1 Hrun.
  apply returns_bind, returns_get.
  apply returns_bind, returns_snooze_unless_waited. intros w2 Hw2.
  apply returns_ret. intros src_fd' dest_fd' Hs Hd Hloop.
  assert (src_fd' = src_fd) as ->.
  { unfold fd_for_reading, underlying_of in Hs. rewrite Hsrc in Hs. congruence. }
  assert (dest_fd' = dest_fd) as ->.
  { unfold fd_for_writing, underlying_of in Hd. rewrite Hdest in Hd. congruence. }
  assert (H0 : transferred src_fd dest_fd [] w w0).
  { destruct Hw0 as (_ & _ & Hi & Ho & Hp & _). apply transferred_nil; assumption. }
  assert (Hloop0 : no_loop_back src_fd dest_fd w0).
  { destruct H0 as (_ & _ & Hp). eapply no_loop_back_same_pipes; eassumption. }
  destruct (splice_loop_returns fuel src_fd dest_fd maxlen a w0 Hloop0 len w1 Hrun)
    as (data & n & -> & -> & Hle & Ht).
  exists data, n. split; [reflexivity|]. split; [reflexivity|]. split; [exact Hle|].
  apply (transferred_app _ _ [] data w w0 w2); [exact H0|].
  rewrite <- (app_nil_r data).
  apply (transferred_app _ _ data [] w0 w1 w2); [exact Ht|].
  apply transferred_same_os, Hw2.
Qed.

(** X6.  [splice(src, dest, maxlen)]: whenever the call returns [n],
    exactly [n] bytes have left the input of the source and arrived, in
    order, at the destination, and [n] is at most [maxlen] (as the kernel
    reads it); would-block rounds before the splice move nothing. *)
Theorem Backend_splice_moves_bytes src dest maxlen src_fd dest_fd w v w' :
  fd_for_reading src = Some src_fd ->
  fd_for_writing dest = Some dest_fd ->
  no_loop_back src_fd dest_fd w ->
  Backend_splice src dest maxlen w = Done v w' ->
  exists data n, v = Fixnum (bytes_len data) /\ maxlen = Fixnum n /\
                 bytes_len data <= to_size_t n /\
                 transferred src_fd dest_fd data w w'.
Proof.
  intros Hs Hd Hloop H.
  exact (Backend_splice_returns src dest maxlen w v w' H src_fd dest_fd Hs Hd Hloop).
Qed.

Lemma Backend_splice_moves_bytes_witness :
  let w' := world_of (Backend_splice (RFile 5 None) (RFile 6 None) (Fixnum 3)
                                     splice_wait_run) in
  exists data n, Fixnum 3 = Fixnum (bytes_len data) /\ Fixnum 3 = Fixnum n /\
                 bytes_len data <= to_size_t n /\
                 transferred 5 6 data splice_wait_run w'.
Proof.
  apply (Backend_splice_moves_bytes (RFile 5 None) (RFile 6 None) (Fixnum 3) 5 6
           splice_wait_run (Fixnum 3)).
  - reflexivity.
  - reflexivity.
  - discriminate.
  - vm_compute. reflexivity.
Defined.

Lemma splice_to_eof_loop_returns fuel : forall src_fd dest_fd maxlen watcher total w,
  no_loop_back src_fd dest_fd w ->
  returns (splice_to_eof_loop fuel src_fd dest_fd maxlen watcher total) w
    (fun result w' =>
       exists data, result = total + bytes_len data /\
                    transferred src_fd dest_fd data w w').
Proof.
  induction fuel as [|fuel IH]; intros src_fd dest_fd maxlen watcher total w Hloop;
    simpl.
  - apply returns_hang.
  - apply returns_bind, returns_modify.
    apply returns_bind, returns_NUM2INT_any. intros n ->.
    apply returns_bind. intros len w1 Hlen.
    apply sys_splice_Done in Hlen as [(-> & Hi & Ho & Hp)|(data & -> & Hle & Ht)];
      [ | | exact Hloop].
    + simpl. cbn in Hi, Ho, Hp. apply returns_bind, returns_get.
      destruct (not_would_block _); [apply returns_raise|].
      apply returns_bind, returns_libev_wait_rw. intros v w2 Hw2.
      destruct (TEST_EXCEPTION v); [apply returns_raise|].
      eapply returns_weaken.
      * apply IH. destruct Hw2 as (_ & _ & _ & _ & Hp2 & _).
        apply (no_loop_back_same_pipes src_fd dest_fd w); [congruence | exact Hloop].
      * intros result w3 (data & Hr & Ht).
        exists data. split; [exact Hr|].
        apply (transferred_app _ _ [] data w w2 w3); [|exact Ht].
        apply (transferred_app _ _ [] [] w w1 w2).
        -- apply transferred_nil; assumption.
        -- apply transferred_same_os, Hw2.
    + pose proof (bytes_len_nonneg data) as Hd.
      destruct (bytes_len data <? 0) eqn:Hneg; [apply Z.ltb_lt in Hneg; lia|].
      destruct (bytes_len data =? 0) eqn:Hz.
      * apply returns_ret. exists data. apply Z.eqb_eq in Hz.
        split; [lia | exact Ht].
      * eapply returns_weaken.
        -- apply IH. destruct Ht as (_ & _ & Hp).
           apply (no_loop_back_same_pipes src_fd dest_fd w); assumption.
        -- intros result w3 (data' & Hr & Ht').
           exists (data ++ data'). split.
           ++ rewrite bytes_len_app. lia.
           ++ apply (transferred_app _ _ data data' w w1 w3); assumption.
Qed.

Lemma Backend_splice_to_eof_returns src dest maxlen w :
  returns (Backend_splice_to_eof src dest maxlen) w
    (fun v w' =>
       forall src_fd dest_fd,
         fd_for_reading src = Some src_fd -> fd_for_writing dest = Some dest_fd ->
         no_loop_back src_fd dest_fd w ->
         exists data, v = Fixnum (bytes_len data) /\
                      transferred src_fd dest_fd data w w').
Proof.
  unfold Backend_splice_to_eof.
  apply returns_bind, returns_GetOpenFile. intros src_fd ts Hsrc.
  apply returns_bind, returns_GetOpenFile. intros dest_fd td Hdest.
  apply returns_bind, returns_new_libev_rw_io. intros a w0 Hw0.
  apply returns_bind, returns_with_kernel_fuel. intros fuel.
  intros total w1 Hrun.
  apply returns_bind, returns_get.
  apply returns_bind, returns_snooze_unless_waited. intros w2 Hw2.
  apply returns_ret. intros src_fd' dest_fd' Hs Hd Hloop.
  assert (src_fd' = src_fd) as ->.
  { unfold fd_for_reading, underlying_of in Hs. rewrite Hsrc in Hs. congruence. }
  assert (dest_fd' = dest_fd) as ->.
  { unfold fd_for_writing, underlying_of in Hd. rewrite Hdest in Hd. congruence. }
  assert (H0 : transferred src_fd dest_fd [] w w0).
  { destruct Hw0 as (_ & _ & Hi & Ho & Hp & _). apply transferred_nil; assumption. }
  assert (Hloop0 : no_loop_back src_fd dest_fd w0).
  { destruct H0 as (_ & _ & Hp). eapply no_loop_back_same_pipes; eassumption. }
  destruct (splice_to_eof_loop_returns fuel src_fd dest_fd maxlen a 0 w0 Hloop0
              total w1 Hrun) as (data & -> & Ht).
  exists data. split; [reflexivity|].
  apply (transferred_app _ _ [] data w w0 w2); [exact H0|].
  rewrite <- (app_nil_r data).
  apply (transferred_app _ _ data [] w0 w1 w2); [exact Ht|].
  apply transferred_same_os, Hw2.
Qed.



(** ** What calls keep, on return and on raise *)

Lemma keeps_bind {A B : Type} R E (m : M A) (k : A -> M B) :
  keeps R E m -> (forall a, keeps R E (k a)) -> keeps R E (bind m k).
Proof.
  intros Hm Hk w0 w Hw. unfold bind. specialize (Hm w0 w Hw).
  destruct (m w) as [a w1|e w1|w1]; [|exact Hm|exact I].
  exact (Hk a w0 w1 Hm).
Qed.

Lemma keeps_ret {A : Type} R E (a : A) : keeps R E (ret a).
Proof. intros w0 w Hw. exact Hw. Qed.

Lemma keeps_hang {A : Type} R E : keeps R E (@hang A).
Proof. intros w0 w Hw. exact I. Qed.

Lemma keeps_raise {A : Type} R (E : exn -> Prop) e : E e -> keeps R E (@raise A e).
Proof. intros He w0 w Hw. split; assumption. Qed.

Lemma keeps_get {A : Type} R E (f : World -> A) : keeps R E (get f).
Proof. intros w0 w Hw. exact Hw. Qed.

Lemma keeps_modify R E (f : World -> World) :
  (forall w0 w, R w0 w -> R w0 (f w)) -> keeps R E (modify f).
Proof. intros Hf w0 w Hw. apply Hf, Hw. Qed.

Lemma keeps_with_kernel_fuel {A : Type} R E (loop : nat -> M A) :
  (forall fuel, keeps R E (loop fuel)) -> keeps R E (with_kernel_fuel loop).
Proof. intros H w0 w Hw. exact (H _ w0 w Hw). Qed.

Lemma keeps_bindc {A B : Type} R E (m : M (ctl A)) (k : A -> M (ctl B)) :
  keeps R E m -> (forall a, keeps R E (k a)) -> keeps R E (bindc m k).
Proof.
  intros Hm Hk. unfold bindc. apply keeps_bind; [exact Hm|].
  intros [a|r|e]; [apply Hk | apply keeps_ret | apply keeps_ret].
Qed.

Lemma switch_fiber_loop_never_raises evs : forall w e w',
  switch_fiber_loop evs w <> Raised e w'.
Proof.
  induction evs as [|ev evs IH]; intros w e w'; simpl; [discriminate|].
  destruct ev as [a|v|d|]; try apply IH.
  destruct (runqueue w) as [|[f v] q]; [apply IH|].
  destruct (same_object f (cur_fiber w)); [discriminate | apply IH].
Qed.

Lemma keeps_switch_fiber R E : os_relation R -> keeps R E switch_fiber.
Proof.
  intros HI w0 w Hw. unfold switch_fiber.
  pose proof (switch_fiber_loop_same_os (sched w) w) as Hs.
  pose proof (switch_fiber_loop_never_raises (sched w) w) as Hn.
  destruct (switch_fiber_loop (sched w) w) as [v w1|e w1|w1].
  - exact (HI w0 w w1 Hw Hs).
  - exfalso. exact (Hn e w1 eq_refl).
  - exact I.
Qed.

Lemma keeps_modify_os R E (f : World -> World) :
  os_relation R -> (forall w, same_os w (f w)) -> keeps R E (modify f).
Proof. intros HI Hf. apply keeps_modify. intros w0 w Hw. exact (HI w0 w _ Hw (Hf w)). Qed.

Lemma keeps_await R E : os_relation R -> keeps R E backend_await.
Proof. apply keeps_switch_fiber. Qed.

Lemma keeps_snooze R E : os_relation R -> keeps R E backend_snooze.
Proof.
  intros HI. unfold backend_snooze, rb_fiber_current.
  apply keeps_bind; [apply keeps_get|]. intros cur.
  apply keeps_bind; [|intros _; apply keeps_switch_fiber, HI].
  apply keeps_modify_os; [exact HI|]. intros w. apply Fiber_make_runnable_same_os.
Qed.

Lemma keeps_ev_start R E a ew : os_relation R -> keeps R E (ev_start a ew).
Proof.
  intros HI. apply keeps_modify_os; [exact HI|]. intros w.
  destruct (ev_lookup a (ev_loop w)); unfold same_os; repeat split.
Qed.

Lemma keeps_ev_stop R E a : os_relation R -> keeps R E (ev_stop a).
Proof.
  intros HI. apply keeps_modify_os; [exact HI|]. intros w.
  unfold same_os; repeat split.
Qed.

Lemma keeps_libev_wait_fd_with_watcher R E fd watcher events :
  os_relation R -> keeps R E (libev_wait_fd_with_watcher fd watcher events).
Proof.
  intros HI. unfold libev_wait_fd_with_watcher.
  apply keeps_bind.
  - destruct (is_nil (io_fiber watcher)); [|apply keeps_ret].
    apply keeps_bind; [apply keeps_get | intros cur; apply keeps_ret].
  - intros wt. apply keeps_bind; [apply keeps_ev_start, HI|]. intros _.
    apply keeps_bind; [apply keeps_await, HI|]. intros v.
    apply keeps_bind; [apply keeps_ev_stop, HI|]. intros _. apply keeps_ret.
Qed.

Lemma keeps_set_rw_ctx R E a c : os_relation R -> keeps R E (set_rw_ctx a c).
Proof.
  intros HI. apply keeps_modify_os; [exact HI|]. intros w.
  unfold same_os; repeat split.
Qed.

Lemma keeps_libev_wait_rw_fd_with_watcher R E r_fd w_fd a :
  os_relation R -> keeps R E (libev_wait_rw_fd_with_watcher r_fd w_fd a).
Proof.
  intros HI. unfold libev_wait_rw_fd_with_watcher, get_rw_ctx, rb_fiber_current.
  apply keeps_bind; [apply keeps_get|]. intros ctx.
  apply keeps_bind; [apply keeps_get|]. intros cur.
  apply keeps_bind; [apply keeps_set_rw_ctx, HI|]. intros _.
  apply keeps_bind.
  { destruct (negb (r_fd =? -1)); [|apply keeps_ret].
    apply keeps_bind; [apply keeps_ev_start, HI|]. intros _.
    apply keeps_bind; [apply keeps_get|]. intros c. apply keeps_set_rw_ctx, HI. }
  intros _. apply keeps_bind.
  { destruct (negb (w_fd =? -1)); [|apply keeps_ret].
    apply keeps_bind; [apply keeps_ev_start, HI|]. intros _.
    apply keeps_bind; [apply keeps_get|]. intros c. apply keeps_set_rw_ctx, HI. }
  intros _. apply keeps_bind; [apply keeps_await, HI|]. intros v.
  apply keeps_bind.
  { destruct (negb (r_fd =? -1)); [apply keeps_ev_stop, HI | apply keeps_ret]. }
  intros _. apply keeps_bind.
  { destruct (negb (w_fd =? -1)); [apply keeps_ev_stop, HI | apply keeps_ret]. }
  intros _. apply keeps_ret.
Qed.

Lemma keeps_incr_op_count R E :
  (forall w0 w, R w0 w -> R w0 (set_op_count (op_count w + 1) w)) ->
  keeps R E incr_op_count.
Proof. intros H. apply keeps_modify. exact H. Qed.

(** ** Backend_splice_chunks: what becomes of the pipe *)

Lemma same_fds_os : os_relation same_fds.
Proof.
  intros w0 w w' (H1 & H2) Hos.
  destruct Hos as (_ & _ & _ & _ & _ & Hn & Hc & _).
  split; congruence.
Qed.

Lemma same_fds_step w0 w w' :
  same_fds w0 w -> next_fd w' = next_fd w -> closed w' = closed w -> same_fds w0 w'.
Proof. intros (H1 & H2) Hn Hc. split; congruence. Qed.

Lemma deliver_fds fd data w :
  next_fd (deliver fd data w) = next_fd w /\ closed (deliver fd data w) = closed w.
Proof. unfold deliver. destruct (pipe_read_end fd _); split; reflexivity. Qed.

Lemma keeps_sys_write E fd buf count : keeps same_fds E (sys_write fd buf count).
Proof.
  intros w0 w Hw. unfold sys_write. destruct (kernel w) as [|[a|e] k]; [exact I| |].
  - destruct (deliver_fds fd (firstn (Z.to_nat (Z.max 0 (Z.min a (to_size_t count)))) buf)
                (set_kernel k w)) as (Hn & Hc).
    eapply same_fds_step; [exact Hw | exact Hn | exact Hc].
  - eapply same_fds_step; [exact Hw | reflexivity | reflexivity].
Qed.

Lemma keeps_sys_splice E src dest maxlen : keeps same_fds E (sys_splice src dest maxlen).
Proof.
  intros w0 w Hw. unfold sys_splice. destruct (kernel w) as [|[a|e] k]; [exact I| |].
  - match goal with
    | |- same_fds _ (deliver ?fd ?data ?w1) =>
        destruct (deliver_fds fd data w1) as (Hn & Hc)
    end.
    eapply same_fds_step; [exact Hw | exact Hn | exact Hc].
  - eapply same_fds_step; [exact Hw | reflexivity | reflexivity].
Qed.

Lemma keeps_incr_op_count_fds E : keeps same_fds E incr_op_count.
Proof.
  apply keeps_incr_op_count. intros w0 w Hw.
  eapply same_fds_step; [exact Hw | reflexivity | reflexivity].
Qed.

Lemma keeps_splice_chunks_write_loop E fuel : forall fd buf left watcher result,
  keeps same_fds E (splice_chunks_write_loop fuel fd buf left watcher result).
Proof.
  induction fuel as [|fuel IH]; intros fd buf left watcher result; simpl.
  - apply keeps_hang.
  - destruct (0 <? left); [|apply keeps_ret].
    apply keeps_bind; [apply keeps_incr_op_count_fds|]. intros _.
    apply keeps_bind; [apply keeps_sys_write|]. intros n.
    destruct (n <? 0); [|apply IH].
    apply keeps_bind; [apply keeps_get|]. intros err.
    destruct (not_would_block err); [apply keeps_ret|].
    apply keeps_bind; [apply keeps_libev_wait_rw_fd_with_watcher, same_fds_os|].
    intros r. destruct (TEST_EXCEPTION r); [apply keeps_ret | apply IH].
Qed.

Lemma keeps_splice_chunks_write E fd str watcher result :
  keeps same_fds E (splice_chunks_write fd str watcher result).
Proof.
  unfold splice_chunks_write. apply keeps_with_kernel_fuel. intros fuel.
  apply keeps_splice_chunks_write_loop.
Qed.

Lemma keeps_splice_chunks_splice_loop E fuel : forall src dest maxlen watcher result,
  keeps same_fds E (splice_chunks_splice_loop fuel src dest maxlen watcher result).
Proof.
  induction fuel as [|fuel IH]; intros src dest maxlen watcher result; simpl.
  - apply keeps_hang.
  - apply keeps_bind; [apply keeps_sys_splice|]. intros chunk_len.
    destruct (0 <=? chunk_len); [apply keeps_ret|].
    apply keeps_bind; [apply keeps_get|]. intros err.
    destruct (not_would_block err); [apply keeps_ret|].
    apply keeps_bind; [apply keeps_libev_wait_rw_fd_with_watcher, same_fds_os|].
    intros r. destruct (TEST_EXCEPTION r); [apply keeps_ret | apply IH].
Qed.

Lemma keeps_splice_chunks_splice E src dest maxlen watcher result :
  keeps same_fds E (splice_chunks_splice src dest maxlen watcher result).
Proof.
  unfold splice_chunks_splice.
  apply keeps_bind; [apply keeps_incr_op_count_fds|]. intros _.
  apply keeps_with_kernel_fuel. intros fuel. apply keeps_splice_chunks_splice_loop.
Qed.

Lemma keeps_check_err R E err outer_err result :
  keeps R E (check_err err outer_err result).
Proof.
  unfold check_err. destruct (err =? -1); [apply keeps_ret|].
  destruct (negb (err =? 0)); apply keeps_ret.
Qed.

Lemma keeps_framing_str R f v : keeps R (eq TypeError) (framing_str f v).
Proof.
  unfold framing_str.
  destruct f; try (apply keeps_raise; reflexivity); try apply keeps_ret.
  destruct v; try (apply keeps_raise; reflexivity). apply keeps_ret.
Qed.

Lemma keeps_drain_loop E fuel : forall pipe_r dest_fd watcher left err result,
  keeps same_fds E (drain_loop fuel pipe_r dest_fd watcher left err result).
Proof.
  induction fuel as [|fuel IH]; intros pipe_r dest_fd watcher left err result; simpl.
  - apply keeps_hang.
  - destruct (0 <? left); [|apply keeps_ret].
    apply keeps_bind; [apply keeps_splice_chunks_splice|].
    intros [[err' result'] len].
    apply keeps_bindc; [apply keeps_check_err|]. intros _. apply IH.
Qed.

Lemma keeps_framed_write f v dest_fd watcher err result :
  keeps same_fds (eq TypeError)
    (if negb (is_nil f) then
       str <- framing_str f v ;;
       '(err', result) <- splice_chunks_write dest_fd str watcher result ;;
       _ <-- check_err err' err result ;;
       ret (Next result)
     else ret (Next result)).
Proof.
  destruct (negb (is_nil f)); [|apply keeps_ret].
  apply keeps_bind; [apply keeps_framing_str|]. intros str.
  apply keeps_bind; [apply keeps_splice_chunks_write|]. intros [err' result'].
  apply keeps_bindc; [apply keeps_check_err|]. intros _. apply keeps_ret.
Qed.

Lemma keeps_chunks_loop fuel :
  forall src_fd dest_fd pipe_r pipe_w maxlen watcher chunk_prefix chunk_postfix
         total err result,
  keeps same_fds (eq TypeError)
    (chunks_loop fuel src_fd dest_fd pipe_r pipe_w maxlen watcher
                 chunk_prefix chunk_postfix total err result).
Proof.
  induction fuel as [|fuel IH];
    intros src_fd dest_fd pipe_r pipe_w maxlen watcher chunk_prefix chunk_postfix
           total err result; simpl.
  - apply keeps_hang.
  - apply keeps_bind; [apply keeps_splice_chunks_splice|].
    intros [[err' result'] chunk_len].
    apply keeps_bindc; [apply keeps_check_err|]. intros _.
    destruct (chunk_len =? 0); [apply keeps_ret|].
    apply keeps_bindc; [apply keeps_framed_write|]. intros result1.
    apply keeps_bindc.
    { apply keeps_with_kernel_fuel. intros fuel'. apply keeps_drain_loop. }
    intros [err2 result2].
    apply keeps_bindc; [apply keeps_framed_write|]. intros result3.
    apply IH.
Qed.

Lemma keeps_splice_chunks_body src_fd dest_fd maxlen watcher
      prefix postfix chunk_prefix chunk_postfix pipefd :
  keeps same_fds (eq TypeError)
    (splice_chunks_body src_fd dest_fd maxlen watcher
                        prefix postfix chunk_prefix chunk_postfix pipefd).
Proof.
  unfold splice_chunks_body.
  apply keeps_bindc.
  { destruct (negb (is_nil prefix)); [|apply keeps_ret].
    apply keeps_bind; [apply keeps_splice_chunks_write|]. intros [err result].
    apply keeps_bindc; [apply keeps_check_err|]. intros _. apply keeps_ret. }
  intros [err result].
  apply keeps_bindc.
  { apply keeps_with_kernel_fuel. intros fuel. apply keeps_chunks_loop. }
  intros [[total err'] result'].
  apply keeps_bindc.
  { destruct (negb (is_nil postfix)); [|apply keeps_ret].
    apply keeps_bind; [apply keeps_splice_chunks_write|]. intros [err2 result2].
    apply keeps_bindc; [apply keeps_check_err|]. intros _. apply keeps_ret. }
  intros result2.
  apply keeps_bind; [apply keeps_get|]. intros ctx.
  destruct (is_nil (ctx_fiber ctx)); [|apply keeps_ret].
  apply keeps_bind; [apply keeps_snooze, same_fds_os|]. intros r.
  destruct (TEST_EXCEPTION r); apply keeps_ret.
Qed.

(** What [Backend_splice_chunks] has done to the descriptors when it comes
    back. *)
Lemma Backend_splice_chunks_outcome
      src dest prefix postfix chunk_prefix chunk_postfix chunk_size w :
  0 <= next_fd w ->
  match Backend_splice_chunks src dest prefix postfix chunk_prefix chunk_postfix
                              chunk_size w with
  | Done _ w' =>
      next_fd w' = next_fd w + 2 /\
      closed w' = (next_fd w + 1) :: next_fd w :: closed w
  | Raised (SystemCallError _) w' | Raised (Reraised _) w' =>
      (next_fd w' = next_fd w /\ closed w' = closed w) \/
      (next_fd w' = next_fd w + 2 /\
       closed w' = (next_fd w + 1) :: next_fd w :: closed w)
  | Raised _ w' =>
      closed w' = closed w /\
      (next_fd w' = next_fd w \/ next_fd w' = next_fd w + 2)
  | Hang _ => True
  end.
Proof.
  intros Hfd. unfold Backend_splice_chunks.
  set (src' := if is_nil (rb_ivar_get_io src) then src else rb_ivar_get_io src).
  set (dest' := rb_io_get_write_io
                  (if is_nil (rb_ivar_get_io dest) then dest else rb_ivar_get_io dest)).
  clearbody src' dest'.
  destruct src'; try (cbn; split; [reflexivity | left; reflexivity]).
  cbn [GetOpenFile]. step_bind.
  destruct dest'; try (cbn; split; [reflexivity | left; reflexivity]).
  cbn [GetOpenFile]. step_bind.
  unfold new_libev_rw_io. step_bind.
  set (w0 := set_rw_ctxs _ _).
  assert (H0 : next_fd w0 = next_fd w /\ closed w0 = closed w) by (split; reflexivity).
  clearbody w0. destruct H0 as (Hn0 & Hc0).
  unfold bind at 1.
  destruct (NUM2INT chunk_size w0) as [maxlen w1|e w1|w1] eqn:Hnum.
  2:{ assert (w1 = w0 /\ (e = TypeError \/ e = RangeError)) as (-> & He).
      { clear -Hnum. destruct chunk_size; simpl in Hnum;
          try (inversion Hnum; subst; split; [reflexivity | left; reflexivity]).
        destruct (_ && _); inversion Hnum; subst.
        split; [reflexivity | right; reflexivity]. }
      destruct He as [-> | ->]; (split; [exact Hc0 | left; exact Hn0]). }
  2:{ exact I. }
  assert (w1 = w0) as ->.
  { clear -Hnum. destruct chunk_size; simpl in Hnum; try discriminate.
    destruct (_ && _); inversion Hnum; reflexivity. }
  unfold bind at 1. unfold sys_pipe at 1.
  destruct (kernel w0) as [|[a|e] k]; [exact I| |].
  - (* the pipe is made *)
    cbn [Z.eqb].
    set (pipefd := (next_fd w0, next_fd w0 + 1)).
    set (w1 := set_inbuf _ _).
    assert (H1 : next_fd w1 = next_fd w + 2 /\ closed w1 = closed w).
    { subst w1. cbn. split; [rewrite Hn0; reflexivity | exact Hc0]. }
    clearbody w1. destruct H1 as (Hn1 & Hc1).
    match goal with
    | |- context [splice_chunks_body ?x1 ?x2 ?x3 ?x4 ?x5 ?x6 ?x7 ?x8 ?x9] =>
        pose proof (keeps_splice_chunks_body x1 x2 x3 x4 x5 x6 x7 x8 x9 w1 w1
                      (conj eq_refl eq_refl)) as Hbody;
        unfold bind at 1;
        destruct (splice_chunks_body x1 x2 x3 x4 x5 x6 x7 x8 x9 w1) as [exit w2|e w2|w2]
    end.
    + destruct Hbody as (Hn2 & Hc2).
      assert (Hclose : close_pipe pipefd w2 =
                Done tt (set_closed (snd pipefd :: fst pipefd :: closed w2) w2)).
      { unfold close_pipe, pipefd. cbn [fst snd].
        destruct (Z.eqb_spec (next_fd w0) (-1)) as [E|_]; [lia|].
        destruct (Z.eqb_spec (next_fd w0 + 1) (-1)) as [E|_]; [lia|].
        reflexivity. }
      assert (Hfin : next_fd (set_closed (snd pipefd :: fst pipefd :: closed w2) w2)
                       = next_fd w + 2 /\
                     closed (set_closed (snd pipefd :: fst pipefd :: closed w2) w2)
                       = (next_fd w + 1) :: next_fd w :: closed w).
      { cbn. unfold pipefd. cbn. rewrite Hn2, Hn1, Hc2, Hc1, Hn0. split; reflexivity. }
      destruct exit as [total|result|err];
        erewrite bind_of_Done by exact Hclose; cbn.
      * exact Hfin.
      * right. exact Hfin.
      * right. exact Hfin.
    + destruct Hbody as (<- & Hn2 & Hc2).
      split; [congruence | right; congruence].
    + exact I.
  - (* pipe(2) failed *)
    cbn. left. split; assumption.
Qed.



(** X9.  A raise that does not go through the error labels of
    [splice_chunks] (a framing value that can not be called, an argument of
    the wrong type) leaves the function without any cleanup: nothing has been
    closed, so a pipe that the call had made stays open. *)
Theorem Backend_splice_chunks_raise_skips_cleanup
        src dest prefix postfix chunk_prefix chunk_postfix chunk_size w e w' :
  0 <= next_fd w ->
  Backend_splice_chunks src dest prefix postfix chunk_prefix chunk_postfix
                        chunk_size w = Raised e w' ->
  (forall n, e <> SystemCallError n) -> (forall x, e <> Reraised x) ->
  closed w' = closed w /\
  (next_fd w' = next_fd w \/ next_fd w' = next_fd w + 2).
Proof.
  intros Hfd Hr Hsys Hre.
  pose proof (Backend_splice_chunks_outcome src dest prefix postfix chunk_prefix
                chunk_postfix chunk_size w Hfd) as Hout.
  rewrite Hr in Hout.
  destruct e; try exact Hout.
  - exfalso. exact (Hsys _ eq_refl).
  - exfalso. exact (Hre _ eq_refl).
Qed.

Lemma Backend_splice_chunks_raise_skips_cleanup_witness :
  let w' := world_of (Backend_splice_chunks (RFile 5 None) (RFile 6 None) Qnil Qnil
                        (Fixnum 1) Qnil (Fixnum 3) chunks_run) in
  (closed w' = closed chunks_run /\
   (next_fd w' = next_fd chunks_run \/ next_fd w' = next_fd chunks_run + 2)) /\
  next_fd w' = 9 /\ closed w' = [].
Proof.
  split.
  - apply (Backend_splice_chunks_raise_skips_cleanup (RFile 5 None) (RFile 6 None)
             Qnil Qnil (Fixnum 1) Qnil (Fixnum 3) chunks_run TypeError).
    + vm_compute. discriminate.
    + vm_compute. reflexivity.
    + discriminate.
    + discriminate.
  - vm_compute. split; reflexivity.
Defined.

(** ** Backend_accept: the accepted descriptor *)

Lemma accept_rounds_outcome fuel : forall fd watcher socket_class w0 w,
  0 <= next_fd w0 ->
  same_fds w0 w ->
  match accept_rounds fuel fd watcher socket_class w with
  | Done v w' =>
      v = RFile (next_fd w0) None /\
      next_fd w' = next_fd w0 + 1 /\ closed w' = closed w0
  | Raised e w' =>
      (next_fd w' = next_fd w0 /\ closed w' = closed w0) \/
      (next_fd w' = next_fd w0 + 1 /\ closed w' = next_fd w0 :: closed w0 /\
       exists x, e = Reraised x)
  | Hang _ => True
  end.
Proof.
  induction fuel as [|fuel IH]; intros fd watcher socket_class w0 w Hfd Hw;
    [exact I|].
  cbn [accept_rounds]. step_bind.
  unfold bind at 1. unfold sys_accept at 1. cbn [kernel set_op_count].
  destruct Hw as (Hn & Hc).
  destruct (kernel w) as [|[a|e] k]; [exact I| |].
  - (* a connection *)
    cbn [next_fd set_op_count].
    destruct (Z.ltb_spec (next_fd w) 0) as [Hneg|_]; [lia|].
    match goal with
    | |- match bind backend_snooze _ ?W with _ => _ end =>
        pose proof (keeps_snooze same_fds (fun _ => False) same_fds_os W W
                      (conj eq_refl eq_refl)) as Hs;
        unfold bind at 1;
        destruct (backend_snooze W) as [v w2|e w2|w2]
    end; [|destruct Hs as ([] & _)|exact I].
    destruct Hs as (Hn2 & Hc2). cbn in Hn2, Hc2.
    destruct (TEST_EXCEPTION v).
    + cbn. right. rewrite Hn2, Hc2, Hc, Hn.
      split; [reflexivity|]. split; [reflexivity|]. eexists. reflexivity.
    + cbn. unfold new_socket. rewrite Hn2, Hc2, Hc, Hn. repeat split.
  - (* accept failed *)
    cbn [Z.ltb Z.compare]. step_bind. cbn [errno set_errno].
    destruct (not_would_block e).
    + cbn. left. split; assumption.
    + match goal with
      | |- match bind (libev_wait_fd_with_watcher ?f ?wt ?ev) _ ?W with _ => _ end =>
          pose proof (keeps_libev_wait_fd_with_watcher same_fds (fun _ => False)
                        f wt ev same_fds_os w0 W (conj Hn Hc)) as Hwait;
          unfold bind at 1;
          destruct (libev_wait_fd_with_watcher f wt ev W) as [[v wt'] w2|e' w2|w2]
      end; [|destruct Hwait as ([] & _)|exact I].
      destruct (TEST_EXCEPTION v).
      * cbn. left. exact Hwait.
      * apply IH; assumption.
Qed.

Lemma Backend_accept_outcome server_socket socket_class w :
  0 <= next_fd w ->
  match Backend_accept server_socket socket_class w with
  | Done v w' =>
      v = RFile (next_fd w) None /\
      next_fd w' = next_fd w + 1 /\ closed w' = closed w
  | Raised e w' =>
      (next_fd w' = next_fd w /\ closed w' = closed w) \/
      (next_fd w' = next_fd w + 1 /\ closed w' = next_fd w :: closed w /\
       exists x, e = Reraised x)
  | Hang _ => True
  end.
Proof.
  intros Hfd. unfold Backend_accept.
  set (s := if is_nil (rb_ivar_get_io server_socket) then server_socket
            else rb_ivar_get_io server_socket).
  clearbody s.
  destruct s; try (cbn; left; split; reflexivity).
  cbn [GetOpenFile]. step_bind. unfold new_libev_io. step_bind.
  unfold with_kernel_fuel.
  apply accept_rounds_outcome; [exact Hfd | split; reflexivity].
Qed.




(** ** Backend_read_loop, Backend_feed_loop: every byte read is handed on *)

Lemma sys_read_effect fd count w n data w' :
  sys_read fd count w = Done (n, data) w' ->
  outbuf w' = outbuf w /\ pipes w' = pipes w /\
  ((n = -1 /\ inbuf w' = inbuf w) \/
   (n = bytes_len data /\ inbuf w fd = data ++ inbuf w' fd)).
Proof.
  unfold sys_read. destruct (kernel w) as [|[a|e] k]; intros H;
    inversion H; subst; clear H.
  - split; [reflexivity|]. split; [reflexivity|]. right. split; [reflexivity|].
    cbn. unfold upd. rewrite Z.eqb_refl.
    destruct (moved_prefix a count (inbuf w fd)) as (Hp & _). exact Hp.
  - split; [reflexivity|]. split; [reflexivity|]. left. split; reflexivity.
Qed.

Lemma read_loop_rounds_returns log fuel : forall block fd watcher len w,
  no_loop_back fd log w ->
  feeds log fd block ->
  returns (read_loop_rounds fuel block fd watcher len) w
    (fun _ w' =>
       exists data, inbuf w fd = data ++ inbuf w' fd /\
                    outbuf w' log = outbuf w log ++ data).
Proof.
  induction fuel as [|fuel IH]; intros block fd watcher len w Hloop Hfeeds; simpl.
  - apply returns_hang.
  - apply returns_bind, returns_modify.
    apply returns_bind. intros [n data] w1 Hn.
    apply sys_read_effect in Hn as (Ho1 & Hp1 & Hn). cbn in Ho1, Hp1.
    destruct Hn as [(-> & Hi1)|(-> & Hi1)]; cbn in Hi1.
    + simpl. apply returns_bind, returns_get.
      destruct (not_would_block _); [apply returns_raise|].
      apply returns_bind, returns_libev_wait_fd_with_watcher.
      intros v wt w2 Hw2.
      destruct (TEST_EXCEPTION v); [apply returns_raise|].
      destruct Hw2 as (_ & _ & Hi2 & Ho2 & Hp2 & _).
      eapply returns_weaken.
      * apply IH; [|exact Hfeeds].
        apply (no_loop_back_same_pipes fd log w); [congruence | exact Hloop].
      * intros u w3 (data' & Hi3 & Ho3). exists data'.
        rewrite <- Hi3, Ho3, Hi2, Hi1, Ho2, Ho1. split; reflexivity.
    + pose proof (bytes_len_nonneg data) as Hd.
      destruct (bytes_len data <? 0) eqn:Hneg; [apply Z.ltb_lt in Hneg; lia|].
      apply returns_bind, returns_snooze. intros v w2 Hw2.
      destruct (TEST_EXCEPTION v); [apply returns_raise|].
      destruct Hw2 as (_ & _ & Hi2 & Ho2 & Hp2 & _).
      destruct (bytes_len data =? 0) eqn:Hz.
      * apply returns_ret. exists data. split.
        -- rewrite Hi2. exact Hi1.
        -- apply Z.eqb_eq in Hz.
           assert (data = []) as ->.
           { destruct data; [reflexivity|]. unfold bytes_len in Hz. simpl in Hz. lia. }
           rewrite app_nil_r, Ho2, Ho1. reflexivity.
      * assert (Hne : data <> []).
        { intros ->. apply Z.eqb_neq in Hz. apply Hz. reflexivity. }
        unfold READ_LOOP_YIELD_STR.
        apply returns_bind, returns_bind. intros r w3 Hblock.
        assert (Hloop2 : no_loop_back fd log w2).
        { apply (no_loop_back_same_pipes fd log w); [congruence | exact Hloop]. }
        destruct (Hfeeds data w2 r w3 Hne Hloop2 Hblock) as (Ho3 & Hi3 & Hloop3).
        apply returns_ret.
        eapply returns_weaken; [apply IH; [exact Hloop3 | exact Hfeeds]|].
        intros u w4 (data' & Hi4 & Ho4). exists (data ++ data').
        rewrite <- app_assoc, <- Hi4, Hi3, Hi2, <- Hi1.
        rewrite Ho4, Ho3, Ho2, Ho1, <- app_assoc. split; reflexivity.
Qed.

Lemma Backend_read_loop_returns log block io maxlen fd w :
  fd_for_reading io = Some fd ->
  no_loop_back fd log w ->
  feeds log fd block ->
  returns (Backend_read_loop block io maxlen) w
    (fun v w' =>
       v = underlying_of io /\
       exists data, inbuf w fd = data ++ inbuf w' fd /\
                    outbuf w' log = outbuf w log ++ data).
Proof.
  intros Hio Hloop Hfeeds. unfold Backend_read_loop.
  apply returns_bind, returns_NUM2INT_any. intros len _.
  apply returns_bind. unfold READ_LOOP_PREPARE_STR.
  destruct (len <? 0); [apply returns_raise|]. apply returns_ret.
  apply returns_bind, returns_GetOpenFile. intros fd' t Hfile.
  assert (fd' = fd) as ->.
  { unfold fd_for_reading, underlying_of in Hio. rewrite Hfile in Hio. congruence. }
  unfold new_libev_io.
  apply returns_bind, returns_bind, returns_alloca, returns_ret.
  apply returns_bind, returns_with_kernel_fuel. intros fuel.
  eapply returns_weaken.
  - apply (read_loop_rounds_returns log); [exact Hloop | exact Hfeeds].
  - intros u w1 Hdata. apply returns_ret. split; [reflexivity | exact Hdata].
Qed.

(** X12.  [read_loop(io, maxlen)] with a block that keeps what it is
    given: whenever the call returns, it returns the io, and the strings
    handed to the block, one after the other, are exactly the bytes that
    have left the input of the descriptor: nothing is lost, repeated or
    reordered between two reads, and no empty string is handed on. *)
Theorem Backend_read_loop_hands_on_every_byte log block io maxlen fd w v w' :
  fd_for_reading io = Some fd ->
  no_loop_back fd log w ->
  feeds log fd block ->
  Backend_read_loop block io maxlen w = Done v w' ->
  v = underlying_of io /\
  exists data, inbuf w fd = data ++ inbuf w' fd /\
               outbuf w' log = outbuf w log ++ data.
Proof.
  intros Hio Hloop Hfeeds H.
  exact (Backend_read_loop_returns log block io maxlen fd w Hio Hloop Hfeeds v w' H).
Qed.

Lemma feeds_record_block fd : feeds 9 fd record_block.
Proof.
  intros data w v w' _ Hloop H. unfold record_block in H. inversion H; subst.
  cbn. unfold upd. cbn. split; [reflexivity|]. split; [reflexivity|]. exact Hloop.
Qed.

Lemma Backend_read_loop_hands_on_every_byte_witness :
  let w' := world_of (Backend_read_loop record_block (RFile 5 None) (Fixnum 4)
                                        read_loop_run) in
  (RFile 5 None = underlying_of (RFile 5 None) /\
   exists data, inbuf read_loop_run 5 = data ++ inbuf w' 5 /\
                outbuf w' 9 = outbuf read_loop_run 9 ++ data) /\
  outbuf w' 9 = hello.
Proof.
  split.
  - apply (Backend_read_loop_hands_on_every_byte 9 record_block (RFile 5 None)
             (Fixnum 4) 5 read_loop_run (RFile 5 None)).
    + reflexivity.
    + discriminate.
    + apply feeds_record_block.
    + vm_compute. reflexivity.
  - vm_compute. reflexivity.
Defined.

Lemma feed_loop_rounds_as_read_loop fuel :
  forall rb_funcall receiver method_id fd watcher len w,
  feed_loop_rounds fuel rb_funcall receiver method_id fd watcher len w =
  read_loop_rounds fuel (rb_funcall receiver method_id) fd watcher len w.
Proof.
  induction fuel as [|fuel IH]; intros rb_funcall receiver method_id fd watcher len w.
  - reflexivity.
  - cbn [feed_loop_rounds read_loop_rounds].
    apply bind_ext. intros _ w1.
    apply bind_ext. intros [n data] w2.
    destruct (n <? 0).
    + apply bind_ext. intros e w3.
      destruct (not_would_block e); [reflexivity|].
      apply bind_ext. intros [v wt] w4.
      destruct (TEST_EXCEPTION v); [reflexivity|]. apply IH.
    + apply bind_ext. intros v w3.
      destruct (TEST_EXCEPTION v); [reflexivity|].
      destruct (n =? 0); [reflexivity|].
      unfold READ_LOOP_PASS_STR_TO_RECEIVER, READ_LOOP_YIELD_STR.
      apply bind_ext. intros u w4. apply IH.
Qed.

(** X13.  [feed_loop(io, receiver, method)] is [read_loop(io, 8192)] with
    the block that calls [method] of [receiver] on each string: same outcome
    and same world after the call; a [method] that is not a symbol is
    refused before the io is looked at. *)
Theorem Backend_feed_loop_is_read_loop rb_funcall io receiver w :
  (forall name,
      Backend_feed_loop rb_funcall io receiver (Symbol name) w =
      Backend_read_loop (rb_funcall receiver name) io (Fixnum 8192) w) /\
  (forall method,
      (forall name, method <> Symbol name) ->
      Backend_feed_loop rb_funcall io receiver method w = Raised TypeError w).
Proof.
  split.
  - intros name. unfold Backend_feed_loop, Backend_read_loop.
    cbn [SYM2ID NUM2INT]. change ((INT_MIN <=? 8192) && (8192 <=? INT_MAX)) with true.
    cbv iota. step_bind. step_bind. symmetry. step_bind. step_bind. symmetry.
    apply bind_ext. intros fd w1.
    apply bind_ext. intros watcher w2.
    unfold bind, with_kernel_fuel.
    rewrite feed_loop_rounds_as_read_loop. reflexivity.
  - intros method Hm. unfold Backend_feed_loop.
    destruct method; try reflexivity.
    exfalso. exact (Hm name eq_refl).
Qed.

Lemma Backend_feed_loop_is_read_loop_witness :
  Backend_feed_loop (fun _ _ => record_block) (RFile 5 None) Qnil (Fixnum 1)
                    read_loop_run
    = Raised TypeError read_loop_run.
Proof.
  apply (proj2 (Backend_feed_loop_is_read_loop (fun _ _ => record_block)
                  (RFile 5 None) Qnil read_loop_run) (Fixnum 1)).
  discriminate.
Defined.

(** ** An echo: read_loop feeding write *)

Lemma source_kept_os fd dfd : os_relation (source_kept fd dfd).
Proof.
  intros w0 w w' (Hp & Hi) (_ & _ & Hi' & _ & Hp' & _).
  split; [congruence|]. intros H. rewrite Hi'. apply Hi, H.
Qed.

Lemma keeps_sys_write_source E fd dfd buf count :
  keeps (source_kept fd dfd) E (sys_write dfd buf count).
Proof.
  intros w0 w (Hp & Hi). unfold sys_write.
  destruct (kernel w) as [|[a|e] k]; [exact I| |].
  - set (data := firstn _ buf).
    destruct (deliver_frame dfd data (set_kernel k w)) as (_ & _ & _ & _ & _ & Hp' & _).
    split; [rewrite Hp'; exact Hp|].
    intros Hloop. rewrite <- (Hi Hloop).
    unfold deliver. cbn [pipes set_outbuf set_kernel].
    unfold no_loop_back in Hloop. rewrite <- Hp in Hloop.
    destruct (pipe_read_end dfd (pipes w)) as [r|]; [|reflexivity].
    cbn. unfold upd. destruct (Z.eqb_spec r fd) as [->|_]; [congruence|reflexivity].
  - split; [exact Hp | exact Hi].
Qed.

Lemma keeps_write_loop_source fd dfd fuel : forall watcher buf left,
  keeps (source_kept fd dfd) (fun _ => True) (write_loop fuel dfd watcher buf left).
Proof.
  induction fuel as [|fuel IH]; intros watcher buf left; simpl.
  - apply keeps_hang.
  - destruct (0 <? left); [|apply keeps_ret].
    apply keeps_bind.
    { apply keeps_incr_op_count. intros w0 w Hw. exact Hw. }
    intros _. apply keeps_bind; [apply keeps_sys_write_source|]. intros n.
    destruct (n <? 0); [|apply IH].
    apply keeps_bind; [apply keeps_get|]. intros e.
    destruct (not_would_block e); [apply keeps_raise|].
    + apply I.
    + apply keeps_bind;
        [apply keeps_libev_wait_fd_with_watcher, source_kept_os|].
      intros [v wt]. destruct (TEST_EXCEPTION v); [apply keeps_raise, I | apply IH].
Qed.

Lemma keeps_snooze_unless_waited R fiber :
  os_relation R -> keeps R (fun _ => True) (snooze_unless_waited fiber).
Proof.
  intros HR. unfold snooze_unless_waited. destruct (is_nil fiber); [|apply keeps_ret].
  apply keeps_bind; [apply keeps_snooze, HR|]. intros v.
  destruct (TEST_EXCEPTION v); [apply keeps_raise, I | apply keeps_ret].
Qed.

Lemma keeps_bind_ret {A B : Type} R E (a : A) (k : A -> M B) :
  keeps R E (k a) -> keeps R E (bind (ret a) k).
Proof. intros H w0 w Hw. exact (H w0 w Hw). Qed.

Lemma keeps_new_libev_io R E :
  (forall w0 w n, R w0 w -> R w0 (set_next_addr n w)) -> keeps R E new_libev_io.
Proof.
  intros HR. unfold new_libev_io.
  apply keeps_bind; [|intros a; apply keeps_ret].
  intros w0 w Hw. apply HR, Hw.
Qed.

Lemma keeps_Backend_write_source fd dfd dest str :
  fd_for_writing dest = Some dfd ->
  keeps (source_kept fd dfd) (fun _ => True) (Backend_write dest str).
Proof.
  intros Hdest. unfold Backend_write.
  apply keeps_bind.
  { destruct str; try (apply keeps_raise, I). apply keeps_ret. }
  intros buf.
  unfold fd_for_writing, underlying_of in Hdest.
  destruct (rb_io_get_write_io _) as [| | | | | | | | | |fd' t| |];
    try discriminate Hdest.
  inversion Hdest; subst fd'.
  cbn [GetOpenFile]. apply keeps_bind_ret.
  apply keeps_bind.
  { apply keeps_new_libev_io. intros w0 w n Hw. exact Hw. }
  intros watcher. apply keeps_bind.
  - apply keeps_with_kernel_fuel. intros fuel. apply keeps_write_loop_source.
  - intros wt. apply keeps_bind; [apply keeps_snooze_unless_waited, source_kept_os|].
    intros _. apply keeps_ret.
Qed.

Lemma feeds_Backend_write fd dfd dest :
  fd_for_writing dest = Some dfd ->
  feeds dfd fd (Backend_write dest).
Proof.
  intros Hdest data w v w' _ Hloop H.
  destruct (Backend_write_returns dest data w v w' H) as (_ & dfd' & Hd & Hout).
  assert (dfd' = dfd) as -> by congruence.
  pose proof (keeps_Backend_write_source fd dfd dest (RString data) Hdest w w
                (conj eq_refl (fun _ => eq_refl))) as Hk.
  rewrite H in Hk. destruct Hk as (Hp & Hi).
  split; [exact Hout|]. split; [apply Hi, Hloop|].
  apply (no_loop_back_same_pipes fd dfd w); assumption.
Qed.

(** X14.  An echo, [read_loop(src, maxlen)] whose block is
    [write(dest, chunk)]: whenever the loop returns, the bytes that have left
    the input of the source are exactly the bytes that the destination has
    received, in order. *)
Theorem read_loop_feeding_write_echoes src dest maxlen fd dfd w v w' :
  fd_for_reading src = Some fd ->
  fd_for_writing dest = Some dfd ->
  no_loop_back fd dfd w ->
  Backend_read_loop (Backend_write dest) src maxlen w = Done v w' ->
  exists data, inbuf w fd = data ++ inbuf w' fd /\
               outbuf w' dfd = outbuf w dfd ++ data.
Proof.
  intros Hsrc Hdest Hloop H.
  exact (proj2 (Backend_read_loop_returns dfd (Backend_write dest) src maxlen fd w
                  Hsrc Hloop (feeds_Backend_write fd dfd dest Hdest) v w' H)).
Qed.

Lemma read_loop_feeding_write_echoes_witness :
  let w' := world_of (Backend_read_loop (Backend_write (RFile 6 None)) (RFile 5 None)
                                        (Fixnum 4) echo_run) in
  (exists data, inbuf echo_run 5 = data ++ inbuf w' 5 /\
                outbuf w' 6 = outbuf echo_run 6 ++ data) /\
  outbuf w' 6 = hello.
Proof.
  split.
  - apply (read_loop_feeding_write_echoes (RFile 5 None) (RFile 6 None) (Fixnum 4)
             5 6 echo_run (RFile 5 None)).
    + reflexivity.
    + reflexivity.
    + discriminate.
    + vm_compute. reflexivity.
  - vm_compute. reflexivity.
Defined.

(** ** Backend_chain: writes and sends compose *)

Lemma chain_loop_transmits io fd : forall items r w v w',
  fd_for_writing io = Some fd ->
  chain_loop (map (transmit_op io) items) r w = Done v w' ->
  outbuf w' fd = outbuf w fd ++ List.concat (map fst items) /\
  v = match items with
      | [] => r
      | _ => Fixnum (bytes_len (fst (last items ([], None))))
      end.
Proof.
  induction items as [|[s flags] items IH]; intros r w v w' Hio H.
  - cbn in H. inversion H; subst. rewrite app_nil_r. split; reflexivity.
  - cbn [map chain_loop] in H.
    apply bind_Done in H as (r1 & w1 & Hop & H).
    assert (Hone : r1 = Fixnum (bytes_len s) /\ outbuf w1 fd = outbuf w fd ++ s).
    { destruct flags as [flags|]; cbn in Hop.
      - destruct (Backend_send_returns io (RString s) flags w r1 w1 Hop)
          as (fd' & s' & Hfd & Hs & -> & Hout).
        inversion Hs; subst s'. assert (fd' = fd) as -> by congruence.
        split; [reflexivity | exact Hout].
      - destruct (Backend_write_returns io s w r1 w1 Hop) as (-> & fd' & Hfd & Hout).
        assert (fd' = fd) as -> by congruence.
        split; [reflexivity | exact Hout]. }
    destruct Hone as (-> & Hout1).
    destruct (IH _ _ _ _ Hio H) as (Hout & Hv).
    split.
    + rewrite Hout, Hout1. cbn [map fst List.concat]. rewrite app_assoc. reflexivity.
    + rewrite Hv. destruct items as [|item items']; reflexivity.
Qed.



(** ** The variants of splice without splice(2) *)

Lemma portable_write_loop_is_write_loop fuel : forall fd watcher buf left w,
  Portable.splice_write_loop fuel fd watcher buf left w
  = write_loop fuel fd watcher buf left w.
Proof.
  induction fuel as [|fuel IH]; intros fd watcher buf left w; [reflexivity|].
  cbn [Portable.splice_write_loop write_loop].
  destruct (0 <? left); [|reflexivity].
  apply bind_ext. intros _ w1. apply bind_ext. intros n w2.
  destruct (n <? 0); [|apply IH].
  apply bind_ext. intros e w3. destruct (not_would_block e); [reflexivity|].
  apply bind_ext. intros [v wt] w4.
  destruct (TEST_EXCEPTION v); [reflexivity | apply IH].
Qed.

Lemma returns_keeps {A : Type} R E (m : M A) w (Q : A -> World -> Prop) :
  keeps R E m ->
  (forall a w', m w = Done a w' -> R w w' -> Q a w') ->
  R w w ->
  returns m w Q.
Proof.
  intros Hk HQ Hrefl a w' H. apply HQ; [exact H|].
  specialize (Hk w w Hrefl). rewrite H in Hk. exact Hk.
Qed.

Lemma write_loop_transfers fuel fd dfd watcher buf w :
  no_loop_back fd dfd w ->
  returns (write_loop fuel dfd watcher buf (bytes_len buf)) w
    (fun _ w' => outbuf w' dfd = outbuf w dfd ++ buf /\
                 inbuf w' fd = inbuf w fd /\ pipes w' = pipes w).
Proof.
  intros Hloop wt w' H.
  pose proof (write_loop_returns fuel dfd watcher buf (bytes_len buf) w eq_refl wt w' H)
    as Hout.
  pose proof (keeps_write_loop_source fd dfd fuel watcher buf (bytes_len buf) w w
                (conj eq_refl (fun _ => eq_refl))) as Hk.
  rewrite H in Hk. destruct Hk as (Hp & Hi).
  split; [exact Hout|]. split; [apply Hi, Hloop | exact Hp].
Qed.

Lemma portable_read_loop_returns fuel : forall src_fd watcher len w,
  returns (Portable.splice_read_loop fuel src_fd watcher len) w
    (fun r w' =>
       let buf := snd (snd r) in
       fst (snd r) = bytes_len buf /\
       inbuf w src_fd = buf ++ inbuf w' src_fd /\
       outbuf w' = outbuf w /\ pipes w' = pipes w /\
       bytes_len buf <= to_size_t len).
Proof.
  induction fuel as [|fuel IH]; intros src_fd watcher len w; simpl.
  - apply returns_hang.
  - apply returns_bind, returns_modify.
    apply returns_bind. intros [n data] w1 Hn.
    pose proof Hn as Hn'.
    apply sys_read_effect in Hn as (Ho1 & Hp1 & Hn). cbn in Ho1, Hp1.
    destruct Hn as [(-> & Hi1)|(-> & Hi1)]; cbn in Hi1.
    + simpl. apply returns_bind, returns_get.
      destruct (not_would_block _); [apply returns_raise|].
      apply returns_bind, returns_libev_wait_fd_with_watcher.
      intros v wt w2 Hw2.
      destruct (TEST_EXCEPTION v); [apply returns_raise|].
      destruct Hw2 as (_ & _ & Hi2 & Ho2 & Hp2 & _).
      eapply returns_weaken; [apply IH|].
      intros r w3 (Hr & Hi3 & Ho3 & Hp3 & Hle).
      split; [exact Hr|]. split; [rewrite <- Hi3, Hi2, Hi1; reflexivity|].
      split; [congruence|]. split; [congruence | exact Hle].
    + pose proof (bytes_len_nonneg data) as Hd.
      destruct (bytes_len data <? 0) eqn:Hneg; [apply Z.ltb_lt in Hneg; lia|].
      apply returns_ret. cbn [fst snd].
      split; [reflexivity|]. split; [exact Hi1|]. split; [exact Ho1|].
      split; [exact Hp1|].
      apply sys_read_Done in Hn' as [(e & He & _)|(a & _ & _ & Hdata & _)].
      * lia.
      * rewrite Hdata. cbn [inbuf set_op_count].
        destruct (moved_prefix a len (inbuf w src_fd)) as (_ & Hle & _). exact Hle.
Qed.

Lemma portable_Backend_splice_returns src dest maxlen w :
  returns (Portable.Backend_splice src dest maxlen) w
    (fun v w' =>
       forall src_fd dest_fd,
         fd_for_reading src = Some src_fd -> fd_for_writing dest = Some dest_fd ->
         no_loop_back src_fd dest_fd w ->
         exists data n, v = Fixnum (bytes_len data) /\ maxlen = Fixnum n /\
                        bytes_len data <= to_size_t n /\
                        transferred src_fd dest_fd data w w').
Proof.
  unfold Portable.Backend_splice.
  apply returns_bind, returns_NUM2INT_any. intros len ->.
  apply returns_bind. unfold Portable.rb_str_new.
  destruct (len <? 0); [apply returns_raise|]. apply returns_ret.
  apply returns_bind, returns_GetOpenFile. intros src_fd ts Hsrc.
  apply returns_bind, returns_GetOpenFile. intros dest_fd td Hdest.
  unfold new_libev_io.
  apply returns_bind, returns_bind, returns_alloca, returns_ret.
  apply returns_bind, returns_with_kernel_fuel. intros fuel.
  eapply returns_weaken; [apply portable_read_loop_returns|].
  intros [wt [n buf]] w1 (Hn & Hi1 & Ho1 & Hp1 & Hle). cbn [fst snd] in *.
  cbn in Hi1, Ho1, Hp1. subst n.
  apply returns_bind, returns_with_kernel_fuel. intros fuel'.
  intros wt' w2 Hrun. rewrite portable_write_loop_is_write_loop in Hrun.
  apply returns_bind, returns_snooze_unless_waited. intros w3 Hw3.
  apply returns_ret. intros src_fd' dest_fd' Hs Hd Hloop.
  assert (src_fd' = src_fd) as ->.
  { unfold fd_for_reading, underlying_of in Hs. rewrite Hsrc in Hs. congruence. }
  assert (dest_fd' = dest_fd) as ->.
  { unfold fd_for_writing, underlying_of in Hd. rewrite Hdest in Hd. congruence. }
  assert (Hloop1 : no_loop_back src_fd dest_fd w1).
  { apply (no_loop_back_same_pipes src_fd dest_fd w); assumption. }
  destruct (write_loop_transfers fuel' src_fd dest_fd wt buf w1 Hloop1 wt' w2 Hrun)
    as (Ho2 & Hi2 & Hp2).
  destruct Hw3 as (_ & _ & Hi3 & Ho3 & Hp3 & _).
  exists buf, len. split; [reflexivity|]. split; [reflexivity|]. split; [exact Hle|].
  unfold transferred. rewrite Hi3, Hi2, Ho3, Ho2, Ho1. repeat split.
  - exact Hi1.
  - congruence.
Qed.

(** X16.  [splice(src, dest, maxlen)] where it is made of a read and
    writes: whenever the call returns [n], exactly [n] bytes have left the
    input of the source and arrived, in order, at the destination: all that
    was read has been written, and [n] is at most [maxlen]. *)
Theorem portable_Backend_splice_moves_bytes src dest maxlen src_fd dest_fd w v w' :
  fd_for_reading src = Some src_fd ->
  fd_for_writing dest = Some dest_fd ->
  no_loop_back src_fd dest_fd w ->
  Portable.Backend_splice src dest maxlen w = Done v w' ->
  exists data n, v = Fixnum (bytes_len data) /\ maxlen = Fixnum n /\
                 bytes_len data <= to_size_t n /\
                 transferred src_fd dest_fd data w w'.
Proof.
  intros Hs Hd Hloop H.
  exact (portable_Backend_splice_returns src dest maxlen w v w' H
           src_fd dest_fd Hs Hd Hloop).
Qed.

Lemma portable_Backend_splice_moves_bytes_witness :
  let w' := world_of (Portable.Backend_splice (RFile 5 None) (RFile 6 None) (Fixnum 4)
                                              portable_splice_run) in
  exists data n, Fixnum 4 = Fixnum (bytes_len data) /\ Fixnum 4 = Fixnum n /\
                 bytes_len data <= to_size_t n /\
                 transferred 5 6 data portable_splice_run w'.
Proof.
  apply (portable_Backend_splice_moves_bytes (RFile 5 None) (RFile 6 None) (Fixnum 4)
           5 6 portable_splice_run (Fixnum 4)).
  - reflexivity.
  - reflexivity.
  - discriminate.
  - vm_compute. reflexivity.
Defined.

Lemma ev_remove_started a ew l :
  ev_lookup a l = None -> ev_remove a (l ++ [(a, ew)]) = l.
Proof.
  unfold ev_lookup, ev_remove. induction l as [|[b x] l IH]; simpl.
  - intros _. rewrite Nat.eqb_refl. reflexivity.
  - destruct (Nat.eqb b a) eqn:Hb; [discriminate|]. simpl.
    intros H. rewrite (IH H). reflexivity.
Qed.

(** A wait that is ended by its own watcher: the watcher is set up, fires,
    and the fiber is the next to run. *)
Lemma libev_wait_fd_resumes fd a fd0 ev0 events w i srest :
  sched w = Fire a :: Run :: srest ->
  runqueue w = [] -> cur_fiber w = RFiber i ->
  ev_lookup a (ev_loop w) = None ->
  exists w',
    libev_wait_fd_with_watcher fd (mk_libev_io a fd0 ev0 Qnil) events w
      = Done (Qnil, mk_libev_io a fd events (RFiber i)) w' /\
    same_os w w' /\ sched w' = srest /\ runqueue w' = [] /\
    ev_loop w' = ev_loop w.
Proof.
  intros Hs Hq Hf Hfresh.
  eexists. split.
  - unfold libev_wait_fd_with_watcher. cbn [io_fiber is_nil].
    step_bind. cbn [io_addr io_fd io_events io_fiber].
    erewrite bind_of_Done by (apply ev_start_fresh; exact Hfresh).
    erewrite bind_of_Done.
    2:{ unfold backend_await, switch_fiber. cbn [sched set_ev_loop]. rewrite Hs.
        cbn [switch_fiber_loop]. unfold ev_invoke. cbn [ev_loop set_ev_loop].
        rewrite ev_lookup_started by exact Hfresh.
        unfold Backend_io_callback, Fiber_make_runnable.
        cbn [runqueue set_ev_loop set_runqueue]. rewrite Hq.
        cbn [runqueue_schedule cur_fiber set_runqueue set_ev_loop fst snd].
        rewrite Hf. cbn [same_object]. rewrite Nat.eqb_refl. reflexivity. }
    step_bind. rewrite Hf. reflexivity.
  - split; [unfold same_os; repeat split|].
    split; [reflexivity|]. split; [reflexivity|].
    cbn [ev_loop set_ev_loop set_sched set_runqueue].
    apply ev_remove_started, Hfresh.
Qed.

(** A wait with a watcher that a wait has set up before: the watcher is
    started as it is, whatever descriptor and events the wait is for. *)
Lemma libev_wait_fd_reuses_watcher {B : Type} fd events watcher w
      (k : VALUE * libev_io -> M B) :
  is_nil (io_fiber watcher) = false ->
  sched w = [] ->
  ev_lookup (io_addr watcher) (ev_loop w) = None ->
  bind (libev_wait_fd_with_watcher fd watcher events) k w
  = Hang (set_sched []
            (set_ev_loop (ev_loop w ++
                          [(io_addr watcher,
                            EvIo (io_fd watcher) (io_events watcher) (io_fiber watcher))])
                         w)).
Proof.
  intros Hnil Hs Hfresh. apply bind_of_Hang.
  unfold libev_wait_fd_with_watcher. rewrite Hnil. step_bind.
  erewrite bind_of_Done by (apply ev_start_fresh; exact Hfresh).
  apply bind_of_Hang. unfold backend_await, switch_fiber.
  cbn [sched set_ev_loop]. rewrite Hs. reflexivity.
Qed.

(** The read phase when the first read would block and the watcher wakes
    the fiber: the watcher comes out set up for the source. *)
Lemma portable_read_after_wait src_fd n a k i wa w :
  0 < n <= INT_MAX -> 0 < a ->
  inbuf w src_fd <> [] ->
  kernel w = KErr EAGAIN :: KOk a :: KErr EAGAIN :: k ->
  sched w = [Fire wa; Run] ->
  runqueue w = [] -> cur_fiber w = RFiber i ->
  ev_lookup wa (ev_loop w) = None ->
  exists data w1,
    with_kernel_fuel (fun fuel =>
      Portable.splice_read_loop fuel src_fd (mk_libev_io wa (-1) 0 Qnil) n) w
    = Done (mk_libev_io wa src_fd EV_READ (RFiber i), (bytes_len data, data)) w1 /\
    0 < bytes_len data /\
    kernel w1 = KErr EAGAIN :: k /\ sched w1 = [] /\ ev_loop w1 = ev_loop w.
Proof.
  intros Hn Ha Hin Hk Hs Hq Hf Hfresh.
  unfold with_kernel_fuel. rewrite Hk. cbn [List.length].
  remember (S (S (List.length k))) as fuel eqn:Hfuel.
  cbn [Portable.splice_read_loop].
  step_bind.
  erewrite bind_of_Done by (unfold sys_read; cbn; rewrite Hk; reflexivity).
  cbn [Z.ltb Z.compare]. step_bind. cbn [errno set_errno].
  change (not_would_block EAGAIN) with false. cbv iota.
  match goal with
  | |- context [bind (libev_wait_fd_with_watcher src_fd _ EV_READ) _ ?W] =>
      destruct (libev_wait_fd_resumes src_fd wa (-1) 0 EV_READ W i [])
        as (w1 & Hwait & Hos1 & Hs1 & Hq1 & He1);
        [exact Hs | exact Hq | exact Hf | exact Hfresh |]
  end.
  erewrite bind_of_Done by exact Hwait.
  cbn [TEST_EXCEPTION].
  destruct Hos1 as (Hk1 & _ & Hi1 & _ & _ & _ & _ & _ & Hf1 & _).
  cbn in Hk1, Hi1, Hf1, He1.
  step_bind.
  set (data := firstn (Z.to_nat (Z.max 0 (Z.min a (to_size_t n)))) (inbuf w src_fd)).
  assert (Hread : sys_read src_fd n (set_op_count (op_count w1 + 1) w1)
                  = Done (bytes_len data, data)
                         (consume src_fd (List.length data)
                            (set_kernel (KErr EAGAIN :: k)
                               (set_op_count (op_count w1 + 1) w1)))).
  { unfold sys_read. cbn [kernel set_op_count inbuf]. rewrite Hk1, Hi1. reflexivity. }
  erewrite bind_of_Done by exact Hread. cbv beta iota.
  assert (Hdata : 0 < bytes_len data).
  { destruct (moved_prefix a n (inbuf w src_fd)) as (_ & _ & Hne).
    assert (Hsz : 0 < to_size_t n).
    { rewrite to_size_t_small; [lia|]. unfold INT_MAX in Hn. lia. }
    specialize (Hne Ha Hsz Hin). fold data in Hne.
    destruct data; [congruence|]. unfold bytes_len. simpl. lia. }
  assert (Hnneg : (bytes_len data <? 0) = false) by (apply Z.ltb_ge; lia).
  rewrite Hnneg.
  exists data. eexists. split; [reflexivity|]. split; [exact Hdata|].
  cbn. split; [reflexivity|]. split; [exact Hs1 | exact He1].
Qed.

(** The write phase when the first write would block and nothing else is
    going to happen: the watcher is started as the read phase has left it. *)
Lemma portable_write_blocks dest_fd watcher buf k w :
  0 < bytes_len buf ->
  is_nil (io_fiber watcher) = false ->
  kernel w = KErr EAGAIN :: k -> sched w = [] ->
  ev_lookup (io_addr watcher) (ev_loop w) = None ->
  exists w',
    with_kernel_fuel (fun fuel =>
      Portable.splice_write_loop fuel dest_fd watcher buf (bytes_len buf)) w
    = Hang w' /\
    ev_loop w' = ev_loop w ++
                 [(io_addr watcher,
                   EvIo (io_fd watcher) (io_events watcher) (io_fiber watcher))].
Proof.
  intros Hlen Hnil Hk Hs Hfresh.
  unfold with_kernel_fuel. rewrite Hk.
  cbn [List.length Portable.splice_write_loop].
  assert (Hpos : (0 <? bytes_len buf) = true) by (apply Z.ltb_lt; exact Hlen).
  rewrite Hpos. step_bind.
  erewrite bind_of_Done by (unfold sys_write; cbn; rewrite Hk; reflexivity).
  cbn [Z.ltb Z.compare]. step_bind. cbn [errno set_errno].
  change (not_would_block EAGAIN) with false. cbv iota.
  rewrite libev_wait_fd_reuses_watcher; [|exact Hnil|exact Hs|exact Hfresh].
  eexists. split; reflexivity.
Qed.

(** X17.  [splice] where it is made of a read and writes keeps one
    watcher for both waits, and a watcher that has been set up is not set up
    again: once the call has waited for the source, a write that would block
    makes it wait for the source to become readable again, not for the
    destination to become writable.  No watcher is started on the
    destination. *)
Theorem portable_splice_waits_on_source_to_write
        src dest src_fd dest_fd n a k i w :
  fd_for_reading src = Some src_fd ->
  fd_for_writing dest = Some dest_fd ->
  0 < n <= INT_MAX -> 0 < a ->
  inbuf w src_fd <> [] ->
  kernel w = KErr EAGAIN :: KOk a :: KErr EAGAIN :: k ->
  sched w = [Fire (next_addr w); Run] ->
  runqueue w = [] -> cur_fiber w = RFiber i ->
  fresh_addrs w ->
  exists w',
    Portable.Backend_splice src dest (Fixnum n) w = Hang w' /\
    ev_loop w' = ev_loop w ++ [(next_addr w, EvIo src_fd EV_READ (RFiber i))].
Proof.
  intros Hsrc Hdest Hn Ha Hin Hk Hs Hq Hf Hfresh.
  unfold Portable.Backend_splice.
  assert (Hnum : NUM2INT (Fixnum n) w = Done n w).
  { unfold NUM2INT.
    destruct (Z.leb_spec INT_MIN n); [|unfold INT_MIN in *; lia].
    destruct (Z.leb_spec n INT_MAX); [reflexivity | lia]. }
  erewrite bind_of_Done by exact Hnum.
  assert (Hnn : (n <? 0) = false) by (apply Z.ltb_ge; lia).
  unfold Portable.rb_str_new. rewrite Hnn. step_bind.
  erewrite bind_of_Done by (apply GetOpenFile_reading; exact Hsrc).
  erewrite bind_of_Done by (apply GetOpenFile_writing; exact Hdest).
  unfold new_libev_io. step_bind.
  destruct (portable_read_after_wait src_fd n a k i (next_addr w)
              (set_next_addr (next_addr w + 1) w) Hn Ha Hin Hk Hs Hq Hf
              (Hfresh _ (Nat.le_refl _)))
    as (data & w1 & Hread & Hdata & Hk1 & Hs1 & He1).
  erewrite bind_of_Done by exact Hread.
  destruct (portable_write_blocks dest_fd
              (mk_libev_io (next_addr w) src_fd EV_READ (RFiber i)) data k w1
              Hdata eq_refl Hk1 Hs1) as (w' & Hwrite & He').
  { cbn [io_addr]. rewrite He1. apply Hfresh, Nat.le_refl. }
  exists w'. split.
  - apply bind_of_Hang. exact Hwrite.
  - rewrite He', He1. reflexivity.
Qed.

Lemma portable_splice_waits_on_source_to_write_witness :
  exists w',
    Portable.Backend_splice (RFile 5 None) (RFile 6 None) (Fixnum 4) portable_busy_run
      = Hang w' /\
    ev_loop w' = ev_loop portable_busy_run
                 ++ [(next_addr portable_busy_run, EvIo 5 EV_READ (RFiber 0))].
Proof.
  apply (portable_splice_waits_on_source_to_write (RFile 5 None) (RFile 6 None) 5 6
           4 7 [KOk 7] 0%nat portable_busy_run).
  - reflexivity.
  - reflexivity.
  - unfold INT_MAX. lia.
  - lia.
  - discriminate.
  - reflexivity.
  - reflexivity.
  - reflexivity.
  - reflexivity.
  - intros x _. reflexivity.
Defined.

Lemma portable_splice_to_eof_loop_returns fuel :
  forall src_fd dest_fd watcher len total w,
  no_loop_back src_fd dest_fd w ->
  returns (Portable.splice_to_eof_loop fuel src_fd dest_fd watcher len total) w
    (fun r w' =>
       exists data, snd r = total + bytes_len data /\
                    transferred src_fd dest_fd data w w').
Proof.
  induction fuel as [|fuel IH]; intros src_fd dest_fd watcher len total w Hloop; simpl.
  - apply returns_hang.
  - apply returns_bind, returns_with_kernel_fuel. intros fuel1.
    eapply returns_weaken; [apply portable_read_loop_returns|].
    intros [wt [n buf]] w1 (Hn & Hi1 & Ho1 & Hp1 & Hle). cbn [fst snd] in *.
    subst n.
    destruct (bytes_len buf =? 0) eqn:Hz.
    + apply returns_ret. exists buf. cbn [snd]. apply Z.eqb_eq in Hz.
      split; [lia|].
      assert (buf = []) as ->.
      { destruct buf; [reflexivity|]. unfold bytes_len in Hz. simpl in Hz. lia. }
      unfold transferred. rewrite Ho1, app_nil_r. repeat split; assumption.
    + apply returns_bind, returns_with_kernel_fuel. intros fuel2.
      intros wt' w2 Hrun. rewrite portable_write_loop_is_write_loop in Hrun.
      assert (Hloop1 : no_loop_back src_fd dest_fd w1).
      { apply (no_loop_back_same_pipes src_fd dest_fd w); assumption. }
      destruct (write_loop_transfers fuel2 src_fd dest_fd wt buf w1 Hloop1 wt' w2 Hrun)
        as (Ho2 & Hi2 & Hp2).
      eapply returns_weaken.
      * apply IH. apply (no_loop_back_same_pipes src_fd dest_fd w1); assumption.
      * intros r w3 (data & Hr & Ht). exists (buf ++ data). split.
        -- rewrite Hr, bytes_len_app. lia.
        -- apply (transferred_app _ _ buf data w w2 w3); [|exact Ht].
           unfold transferred. rewrite Hi2, Ho2, Ho1.
           split; [exact Hi1|]. split; [reflexivity | congruence].
Qed.

Lemma portable_Backend_splice_to_eof_returns src dest maxlen w :
  returns (Portable.Backend_splice_to_eof src dest maxlen) w
    (fun v w' =>
       forall src_fd dest_fd,
         fd_for_reading src = Some src_fd -> fd_for_writing dest = Some dest_fd ->
         no_loop_back src_fd dest_fd w ->
         exists data, v = Fixnum (bytes_len data) /\
                      transferred src_fd dest_fd data w w').
Proof.
  unfold Portable.Backend_splice_to_eof.
  apply returns_bind, returns_NUM2INT_any. intros len ->.
  apply returns_bind. unfold Portable.rb_str_new.
  destruct (len <? 0); [apply returns_raise|]. apply returns_ret.
  apply returns_bind, returns_GetOpenFile. intros src_fd ts Hsrc.
  apply returns_bind, returns_GetOpenFile. intros dest_fd td Hdest.
  unfold new_libev_io.
  apply returns_bind, returns_bind, returns_alloca, returns_ret.
  apply returns_bind, returns_with_kernel_fuel. intros fuel.
  intros [wt total] w1 Hrun.
  apply returns_bind, returns_snooze_unless_waited. intros w2 Hw2.
  apply returns_ret. intros src_fd' dest_fd' Hs Hd Hloop.
  assert (src_fd' = src_fd) as ->.
  { unfold fd_for_reading, underlying_of in Hs. rewrite Hsrc in Hs. congruence. }
  assert (dest_fd' = dest_fd) as ->.
  { unfold fd_for_writing, underlying_of in Hd. rewrite Hdest in Hd. congruence. }
  assert (Hloop0 : no_loop_back src_fd dest_fd (set_next_addr (next_addr w + 1) w))
    by exact Hloop.
  destruct (portable_splice_to_eof_loop_returns fuel src_fd dest_fd _ len 0 _
              Hloop0 (wt, total) w1 Hrun) as (data & Ht & Htr).
  cbn [snd] in Ht. subst total.
  exists data. split; [reflexivity|].
  rewrite <- (app_nil_r data).
  apply (transferred_app _ _ data [] w w1 w2); [exact Htr|].
  apply transferred_same_os, Hw2.
Qed.



(** ** No operation leaves a watcher behind *)

Lemma ev_lookup_remove a b l :
  ev_lookup b (ev_remove a l) = if Nat.eqb a b then None else ev_lookup b l.
Proof.
  unfold ev_lookup, ev_remove. induction l as [|[c x] l IH]; simpl.
  - destruct (Nat.eqb a b); reflexivity.
  - destruct (Nat.eqb_spec c a) as [->|Hca]; simpl.
    + rewrite IH. destruct (Nat.eqb_spec a b) as [->|Hab]; reflexivity.
    + destruct (Nat.eqb_spec c b) as [->|Hcb].
      * destruct (Nat.eqb_spec a b); [congruence | reflexivity].
      * exact IH.
Qed.

Lemma but_same own w0 w w' :
  no_new_watchers_but own w0 w -> ev_loop w' = ev_loop w ->
  no_new_watchers_but own w0 w'.
Proof. intros H He a x Ha Hx. apply (H a x Ha). rewrite <- He. exact Hx. Qed.

Lemma but_trans own w0 w w' :
  no_new_watchers_but own w0 w -> no_new_watchers_but [] w w' ->
  no_new_watchers_but own w0 w'.
Proof.
  intros H0 H1 a x Ha Hx. apply (H0 a x Ha). apply (H1 a x); [|exact Hx].
  intros [].
Qed.

Lemma but_refl w : no_new_watchers_but [] w w.
Proof. intros a x _ H. exact H. Qed.

Lemma but_remove w a :
  no_new_watchers_but [] w (set_ev_loop (ev_remove a (ev_loop w)) w).
Proof.
  intros b x _ Hx. cbn in Hx. rewrite ev_lookup_remove in Hx.
  destruct (Nat.eqb a b); [discriminate | exact Hx].
Qed.

Lemma ev_invoke_watchers a w : no_new_watchers_but [] w (ev_invoke a w).
Proof.
  unfold ev_invoke. destruct (ev_lookup a (ev_loop w)) as [[ | | | ]|].
  - eapply but_same; [apply but_refl | reflexivity].
  - unfold Backend_rw_io_callback.
    destruct (ref_count (rw_ctxs w ctx) =? 0);
      (eapply but_same; [apply but_refl | reflexivity]).
  - eapply but_same; [apply (but_remove w a) | reflexivity].
  - eapply but_same; [apply (but_remove w a) | reflexivity].
  - apply but_refl.
Qed.

Lemma switch_fiber_loop_watchers evs : forall w,
  no_new_watchers_but [] w (world_of (switch_fiber_loop evs w)).
Proof.
  induction evs as [|ev evs IH]; intros w; simpl.
  - eapply but_same; [apply but_refl | reflexivity].
  - destruct ev as [a|v|d|].
    + eapply but_trans; [apply ev_invoke_watchers | apply IH].
    + eapply but_trans; [|apply IH].
      eapply but_same; [apply but_refl | reflexivity].
    + eapply but_trans; [|apply IH].
      eapply but_same; [apply but_refl | reflexivity].
    + destruct (runqueue w) as [|[f v] q]; [apply IH|].
      destruct (same_object f (cur_fiber w)).
      * eapply but_same; [apply but_refl | reflexivity].
      * eapply but_trans; [|apply IH].
        eapply but_same; [apply but_refl | reflexivity].
Qed.

Lemma hands_on_bind {A B : Type} own own1 own2 (m : M A) (k : A -> M B) :
  hands_on own own1 m -> (forall a, hands_on own1 own2 (k a)) ->
  hands_on own own2 (bind m k).
Proof.
  intros Hm Hk w0 w Hw. unfold bind. specialize (Hm w0 w Hw).
  destruct (m w) as [a w1|e w1|w1]; [|exact Hm|exact I].
  exact (Hk a w0 w1 Hm).
Qed.

Lemma hands_on_bindc {A B : Type} own own1 (m : M (ctl A)) (k : A -> M (ctl B)) :
  hands_on own own1 m -> (forall a, hands_on own1 own1 (k a)) ->
  hands_on own own1 (bindc m k).
Proof.
  intros Hm Hk. unfold bindc. eapply hands_on_bind; [exact Hm|].
  intros [a|r|e]; [apply Hk | |]; intros w0 w Hw; exact Hw.
Qed.

Lemma hands_on_ret {A : Type} own (a : A) : hands_on own own (ret a).
Proof. intros w0 w Hw. exact Hw. Qed.

Lemma hands_on_hang {A : Type} own own' : hands_on own own' (@hang A).
Proof. intros w0 w Hw. exact I. Qed.

Lemma hands_on_raise {A : Type} own' e : hands_on [] own' (@raise A e).
Proof. intros w0 w Hw. exact Hw. Qed.

Lemma hands_on_get {A : Type} own (f : World -> A) : hands_on own own (get f).
Proof. intros w0 w Hw. exact Hw. Qed.

Lemma hands_on_with_kernel_fuel {A : Type} own own' (loop : nat -> M A) :
  (forall fuel, hands_on own own' (loop fuel)) ->
  hands_on own own' (with_kernel_fuel loop).
Proof. intros H w0 w Hw. exact (H _ w0 w Hw). Qed.

(** A call that does not touch the event loop and does not raise. *)
Lemma hands_on_untouched {A : Type} own (m : M A) :
  (forall w, match m w with
             | Done _ w' => ev_loop w' = ev_loop w
             | Raised _ _ => False
             | Hang _ => True
             end) ->
  hands_on own own m.
Proof.
  intros Hm w0 w Hw. specialize (Hm w).
  destruct (m w) as [a w1|e w1|w1]; [|destruct Hm|exact I].
  eapply but_same; eassumption.
Qed.

(** A conversion or a lookup of the C API: it returns in the same world or
    it raises there. *)
Lemma hands_on_pure {A : Type} (m : M A) :
  (forall w, match m w with
             | Done _ w' | Raised _ w' => w' = w
             | Hang _ => False
             end) ->
  hands_on [] [] m.
Proof.
  intros Hm w0 w Hw. specialize (Hm w).
  destruct (m w) as [a w1|e w1|w1]; [subst; exact Hw|subst; exact Hw|destruct Hm].
Qed.

Lemma hands_on_modify own (f : World -> World) :
  (forall w, ev_loop (f w) = ev_loop w) -> hands_on own own (modify f).
Proof. intros Hf. apply hands_on_untouched. intros w. apply Hf. Qed.

Lemma hands_on_switch_fiber own : hands_on own own switch_fiber.
Proof.
  intros w0 w Hw. unfold switch_fiber.
  pose proof (switch_fiber_loop_watchers (sched w) w) as Hs.
  pose proof (switch_fiber_loop_never_raises (sched w) w) as Hn.
  destruct (switch_fiber_loop (sched w) w) as [v w1|e w1|w1].
  - exact (but_trans _ _ _ _ Hw Hs).
  - exfalso. exact (Hn e w1 eq_refl).
  - exact I.
Qed.

Lemma hands_on_await own : hands_on own own backend_await.
Proof. apply hands_on_switch_fiber. Qed.

Lemma hands_on_snooze own : hands_on own own backend_snooze.
Proof.
  unfold backend_snooze, rb_fiber_current.
  eapply hands_on_bind; [apply hands_on_get|]. intros cur.
  eapply hands_on_bind; [|intros _; apply hands_on_switch_fiber].
  apply hands_on_modify. reflexivity.
Qed.

Lemma hands_on_ev_start own a ew : hands_on own (a :: own) (ev_start a ew).
Proof.
  intros w0 w Hw b y Hb Hy. apply (Hw b y).
  - intros Hin. apply Hb. right. exact Hin.
  - unfold ev_start, modify in *.
    destruct (ev_lookup a (ev_loop w)); [exact Hy|].
    cbn in Hy. rewrite ev_lookup_app_other in Hy; [exact Hy|].
    intros ->. apply Hb. left. reflexivity.
Qed.

Lemma hands_on_ev_stop own a : hands_on (a :: own) own (ev_stop a).
Proof.
  intros w0 w Hw b y Hb Hy. cbn in Hy. rewrite ev_lookup_remove in Hy.
  destruct (Nat.eqb_spec a b) as [->|Hab]; [discriminate|].
  apply (Hw b y); [|exact Hy].
  intros [Heq|Hin]; [congruence | exact (Hb Hin)].
Qed.

Lemma hands_on_ev_stop_second own a b : hands_on (b :: a :: own) (b :: own) (ev_stop a).
Proof.
  intros w0 w Hw c y Hc Hy. cbn in Hy. rewrite ev_lookup_remove in Hy.
  destruct (Nat.eqb_spec a c) as [->|Hac]; [discriminate|].
  apply (Hw c y); [|exact Hy].
  intros [Heq|[Heq|Hin]].
  - apply Hc. left. exact Heq.
  - congruence.
  - apply Hc. right. exact Hin.
Qed.

Lemma deliver_ev_loop fd data w : ev_loop (deliver fd data w) = ev_loop w.
Proof. unfold deliver. destruct (pipe_read_end fd _); reflexivity. Qed.

Lemma hands_on_incr_op_count own : hands_on own own incr_op_count.
Proof. apply hands_on_modify. reflexivity. Qed.

Lemma hands_on_sys_write own fd buf count : hands_on own own (sys_write fd buf count).
Proof.
  apply hands_on_untouched. intros w. unfold sys_write.
  destruct (kernel w) as [|[a|e] k]; [exact I| |reflexivity].
  rewrite deliver_ev_loop. reflexivity.
Qed.

Lemma hands_on_sys_send own fd buf count flags :
  hands_on own own (sys_send fd buf count flags).
Proof. apply hands_on_sys_write. Qed.

Lemma hands_on_sys_writev own fd iov : hands_on own own (sys_writev fd iov).
Proof.
  apply hands_on_untouched. intros w. unfold sys_writev.
  destruct (kernel w) as [|[a|e] k]; [exact I| |reflexivity].
  rewrite deliver_ev_loop. reflexivity.
Qed.

Lemma hands_on_sys_read own fd count : hands_on own own (sys_read fd count).
Proof.
  apply hands_on_untouched. intros w. unfold sys_read.
  destruct (kernel w) as [|[a|e] k]; [exact I| |]; reflexivity.
Qed.

Lemma hands_on_sys_splice own src dest maxlen :
  hands_on own own (sys_splice src dest maxlen).
Proof.
  apply hands_on_untouched. intros w. unfold sys_splice.
  destruct (kernel w) as [|[a|e] k]; [exact I| |reflexivity].
  rewrite deliver_ev_loop. reflexivity.
Qed.

Lemma hands_on_sys_accept own fd : hands_on own own (sys_accept fd).
Proof.
  apply hands_on_untouched. intros w. unfold sys_accept.
  destruct (kernel w) as [|[a|e] k]; [exact I| |]; reflexivity.
Qed.

Lemma hands_on_sys_connect own fd : hands_on own own (sys_connect fd).
Proof.
  apply hands_on_untouched. intros w. unfold sys_connect.
  destruct (kernel w) as [|[a|e] k]; [exact I| |]; reflexivity.
Qed.

Lemma hands_on_sys_pipe own : hands_on own own sys_pipe.
Proof.
  apply hands_on_untouched. intros w. unfold sys_pipe.
  destruct (kernel w) as [|[a|e] k]; [exact I| |]; reflexivity.
Qed.

Lemma hands_on_sys_close own fd : hands_on own own (sys_close fd).
Proof. apply hands_on_modify. reflexivity. Qed.

Lemma hands_on_alloca own n : hands_on own own (alloca n).
Proof. apply hands_on_untouched. intros w. reflexivity. Qed.

Lemma hands_on_set_rw_ctx own a c : hands_on own own (set_rw_ctx a c).
Proof. apply hands_on_modify. reflexivity. Qed.

Lemma hands_on_new_libev_io own : hands_on own own new_libev_io.
Proof.
  unfold new_libev_io. eapply hands_on_bind; [apply hands_on_alloca|].
  intros a. apply hands_on_ret.
Qed.

Lemma hands_on_new_libev_rw_io own : hands_on own own new_libev_rw_io.
Proof.
  unfold new_libev_rw_io, get_rw_ctx.
  eapply hands_on_bind; [apply hands_on_alloca|]. intros a.
  eapply hands_on_bind; [apply hands_on_get|]. intros c.
  eapply hands_on_bind; [apply hands_on_set_rw_ctx|]. intros _. apply hands_on_ret.
Qed.

Lemma hands_on_NUM2INT v : hands_on [] [] (NUM2INT v).
Proof.
  apply hands_on_pure. intros w. destruct v; try reflexivity.
  simpl. destruct (_ && _); reflexivity.
Qed.

Lemma hands_on_NUM2DBL v : hands_on [] [] (NUM2DBL v).
Proof. apply hands_on_pure. intros w. destruct v; reflexivity. Qed.

Lemma hands_on_GetOpenFile io : hands_on [] [] (GetOpenFile io).
Proof. apply hands_on_pure. intros w. destruct io; reflexivity. Qed.

Lemma hands_on_StringValuePtr str : hands_on [] [] (StringValuePtr str).
Proof. apply hands_on_pure. intros w. destruct str; reflexivity. Qed.

Lemma hands_on_framing_str f v : hands_on [] [] (framing_str f v).
Proof.
  apply hands_on_pure. intros w. destruct f; try reflexivity.
  destruct v; reflexivity.
Qed.

Lemma hands_on_check_err own err outer_err result :
  hands_on own own (check_err err outer_err result).
Proof.
  unfold check_err. destruct (err =? -1); [apply hands_on_ret|].
  destruct (negb (err =? 0)); apply hands_on_ret.
Qed.

Lemma hands_on_iov_of_argv argv : hands_on [] [] (iov_of_argv argv).
Proof.
  induction argv as [|str argv IH]; cbn [iov_of_argv].
  - apply hands_on_ret.
  - eapply hands_on_bind; [apply hands_on_StringValuePtr|]. intros base.
    eapply hands_on_bind; [exact IH|]. intros iov. apply hands_on_ret.
Qed.

(** The two waits: the watchers they start are stopped when they return,
    and they do not raise. *)
Lemma hands_on_libev_wait_fd_with_watcher fd watcher events :
  hands_on [] [] (libev_wait_fd_with_watcher fd watcher events).
Proof.
  unfold libev_wait_fd_with_watcher.
  eapply hands_on_bind.
  { destruct (is_nil (io_fiber watcher)); [|apply hands_on_ret].
    eapply hands_on_bind; [apply hands_on_get | intros cur; apply hands_on_ret]. }
  intros wt. eapply hands_on_bind; [apply hands_on_ev_start|]. intros _.
  eapply hands_on_bind; [apply hands_on_await|]. intros v.
  eapply hands_on_bind; [apply hands_on_ev_stop|]. intros _. apply hands_on_ret.
Qed.

Lemma hands_on_libev_wait_rw_fd_with_watcher r_fd w_fd a :
  hands_on [] [] (libev_wait_rw_fd_with_watcher r_fd w_fd a).
Proof.
  unfold libev_wait_rw_fd_with_watcher, get_rw_ctx, rb_fiber_current.
  eapply hands_on_bind; [apply hands_on_get|]. intros ctx.
  eapply hands_on_bind; [apply hands_on_get|]. intros cur.
  eapply hands_on_bind; [apply hands_on_set_rw_ctx|]. intros _.
  destruct (negb (r_fd =? -1)); destruct (negb (w_fd =? -1)).
  - eapply hands_on_bind.
    { eapply hands_on_bind; [apply hands_on_ev_start|]. intros _.
      eapply hands_on_bind; [apply hands_on_get|]. intros c.
      apply hands_on_set_rw_ctx. }
    intros _. eapply hands_on_bind.
    { eapply hands_on_bind; [apply hands_on_ev_start|]. intros _.
      eapply hands_on_bind; [apply hands_on_get|]. intros c.
      apply hands_on_set_rw_ctx. }
    intros _. eapply hands_on_bind; [apply hands_on_await|]. intros v.
    eapply hands_on_bind; [apply hands_on_ev_stop_second|]. intros _.
    eapply hands_on_bind; [apply hands_on_ev_stop|]. intros _. apply hands_on_ret.
  - eapply hands_on_bind.
    { eapply hands_on_bind; [apply hands_on_ev_start|]. intros _.
      eapply hands_on_bind; [apply hands_on_get|]. intros c.
      apply hands_on_set_rw_ctx. }
    intros _. eapply hands_on_bind; [apply hands_on_ret|].
    intros _. eapply hands_on_bind; [apply hands_on_await|]. intros v.
    eapply hands_on_bind; [apply hands_on_ev_stop|]. intros _.
    eapply hands_on_bind; [apply hands_on_ret|]. intros _. apply hands_on_ret.
  - eapply hands_on_bind; [apply hands_on_ret|].
    intros _. eapply hands_on_bind.
    { eapply hands_on_bind; [apply hands_on_ev_start|]. intros _.
      eapply hands_on_bind; [apply hands_on_get|]. intros c.
      apply hands_on_set_rw_ctx. }
    intros _. eapply hands_on_bind; [apply hands_on_await|]. intros v.
    eapply hands_on_bind; [apply hands_on_ret|]. intros _.
    eapply hands_on_bind; [apply hands_on_ev_stop|]. intros _. apply hands_on_ret.
  - eapply hands_on_bind; [apply hands_on_ret|].
    intros _. eapply hands_on_bind; [apply hands_on_ret|].
    intros _. eapply hands_on_bind; [apply hands_on_await|]. intros v.
    eapply hands_on_bind; [apply hands_on_ret|]. intros _.
    eapply hands_on_bind; [apply hands_on_ret|]. intros _. apply hands_on_ret.
Qed.

Lemma hands_on_RAISE_IF_EXCEPTION v : hands_on [] [] (RAISE_IF_EXCEPTION v).
Proof.
  unfold RAISE_IF_EXCEPTION.
  destruct (TEST_EXCEPTION v); [apply hands_on_raise | apply hands_on_ret].
Qed.

Lemma hands_on_snooze_unless_waited fiber : hands_on [] [] (snooze_unless_waited fiber).
Proof.
  unfold snooze_unless_waited. destruct (is_nil fiber); [|apply hands_on_ret].
  eapply hands_on_bind; [apply hands_on_snooze|]. intros v.
  destruct (TEST_EXCEPTION v); [apply hands_on_raise | apply hands_on_ret].
Qed.

Lemma hands_on_close_pipe pipefd : hands_on [] [] (close_pipe pipefd).
Proof.
  unfold close_pipe. eapply hands_on_bind.
  - destruct (negb (fst pipefd =? -1)); [apply hands_on_sys_close | apply hands_on_ret].
  - intros _.
    destruct (negb (snd pipefd =? -1)); [apply hands_on_sys_close | apply hands_on_ret].
Qed.

Lemma hands_on_rb_str_new len : hands_on [] [] (Portable.rb_str_new len).
Proof.
  unfold Portable.rb_str_new.
  destruct (len <? 0); [apply hands_on_raise | apply hands_on_ret].
Qed.

(** What the steps without a loop hand on. *)
Ltac hands_on_leaf :=
  first
    [ apply hands_on_ret | apply hands_on_hang | apply hands_on_raise
    | apply hands_on_get
    | apply hands_on_incr_op_count
    | apply hands_on_sys_write | apply hands_on_sys_send | apply hands_on_sys_writev
    | apply hands_on_sys_read | apply hands_on_sys_splice | apply hands_on_sys_accept
    | apply hands_on_sys_connect | apply hands_on_sys_pipe | apply hands_on_sys_close
    | apply hands_on_new_libev_io | apply hands_on_new_libev_rw_io
    | apply hands_on_NUM2INT | apply hands_on_NUM2DBL | apply hands_on_GetOpenFile
    | apply hands_on_StringValuePtr | apply hands_on_framing_str
    | apply hands_on_check_err | apply hands_on_iov_of_argv
    | apply hands_on_libev_wait_fd_with_watcher
    | apply hands_on_libev_wait_rw_fd_with_watcher
    | apply hands_on_snooze | apply hands_on_await
    | apply hands_on_RAISE_IF_EXCEPTION | apply hands_on_snooze_unless_waited
    | apply hands_on_close_pipe | apply hands_on_rb_str_new
    | apply hands_on_ev_start | apply hands_on_ev_stop
    | apply hands_on_set_rw_ctx | apply hands_on_alloca ].

(** Follow the code: sequences, branches, and [known] for what has a lemma
    of its own. *)
Ltac hands_on_walk known :=
  repeat first
    [ hands_on_leaf
    | known
    | apply hands_on_with_kernel_fuel; intros ?
    | eapply hands_on_bindc; [|intros ?]
    | eapply hands_on_bind; [|intros ?]
    | match goal with
      | |- hands_on _ _ (if ?c then _ else _) => destruct c
      | |- hands_on _ _ (match ?x with _ => _ end) => destruct x
      end ].

Lemma hands_on_write_loop fuel : forall fd watcher buf left,
  hands_on [] [] (write_loop fuel fd watcher buf left).
Proof.
  induction fuel as [|fuel IH]; intros fd watcher buf left; cbn [write_loop];
    hands_on_walk ltac:(apply IH).
Qed.

Lemma hands_on_send_loop fuel : forall fd watcher buf left flags_int,
  hands_on [] [] (send_loop fuel fd watcher buf left flags_int).
Proof.
  induction fuel as [|fuel IH]; intros fd watcher buf left flags_int; cbn [send_loop];
    hands_on_walk ltac:(apply IH).
Qed.

Lemma hands_on_writev_loop fuel : forall fd watcher iov total_length total_written,
  hands_on [] [] (writev_loop fuel fd watcher iov total_length total_written).
Proof.
  induction fuel as [|fuel IH]; intros fd watcher iov total_length total_written;
    cbn [writev_loop]; hands_on_walk ltac:(apply IH).
Qed.

Lemma hands_on_read_loop fuel :
  forall fd watcher dynamic_len read_to_eof stored len total,
  hands_on [] [] (read_loop fuel fd watcher dynamic_len read_to_eof stored len total).
Proof.
  induction fuel as [|fuel IH];
    intros fd watcher dynamic_len read_to_eof stored len total; cbn [read_loop];
    hands_on_walk ltac:(apply IH).
Qed.

Lemma hands_on_accept_rounds fuel : forall fd watcher socket_class,
  hands_on [] [] (accept_rounds fuel fd watcher socket_class).
Proof.
  induction fuel as [|fuel IH]; intros fd watcher socket_class; cbn [accept_rounds];
    hands_on_walk ltac:(apply IH).
Qed.

Lemma hands_on_splice_loop fuel : forall src_fd dest_fd maxlen watcher,
  hands_on [] [] (splice_loop fuel src_fd dest_fd maxlen watcher).
Proof.
  induction fuel as [|fuel IH]; intros src_fd dest_fd maxlen watcher; cbn [splice_loop];
    hands_on_walk ltac:(apply IH).
Qed.

Lemma hands_on_splice_to_eof_loop fuel : forall src_fd dest_fd maxlen watcher total,
  hands_on [] [] (splice_to_eof_loop fuel src_fd dest_fd maxlen watcher total).
Proof.
  induction fuel as [|fuel IH]; intros src_fd dest_fd maxlen watcher total;
    cbn [splice_to_eof_loop]; hands_on_walk ltac:(apply IH).
Qed.

Lemma hands_on_portable_read_loop fuel : forall src_fd watcher len,
  hands_on [] [] (Portable.splice_read_loop fuel src_fd watcher len).
Proof.
  induction fuel as [|fuel IH]; intros src_fd watcher len;
    cbn [Portable.splice_read_loop]; hands_on_walk ltac:(apply IH).
Qed.

Lemma hands_on_portable_write_loop fuel : forall dest_fd watcher buf left,
  hands_on [] [] (Portable.splice_write_loop fuel dest_fd watcher buf left).
Proof.
  induction fuel as [|fuel IH]; intros dest_fd watcher buf left;
    cbn [Portable.splice_write_loop]; hands_on_walk ltac:(apply IH).
Qed.

Lemma hands_on_portable_splice_to_eof_loop fuel :
  forall src_fd dest_fd watcher len total,
  hands_on [] [] (Portable.splice_to_eof_loop fuel src_fd dest_fd watcher len total).
Proof.
  induction fuel as [|fuel IH]; intros src_fd dest_fd watcher len total;
    cbn [Portable.splice_to_eof_loop];
    hands_on_walk ltac:(first [ apply IH | apply hands_on_portable_read_loop
                              | apply hands_on_portable_write_loop ]).
Qed.

Lemma hands_on_splice_chunks_write_loop fuel : forall fd buf left watcher result,
  hands_on [] [] (splice_chunks_write_loop fuel fd buf left watcher result).
Proof.
  induction fuel as [|fuel IH]; intros fd buf left watcher result;
    cbn [splice_chunks_write_loop]; hands_on_walk ltac:(apply IH).
Qed.

Lemma hands_on_splice_chunks_write fd str watcher result :
  hands_on [] [] (splice_chunks_write fd str watcher result).
Proof.
  unfold splice_chunks_write.
  hands_on_walk ltac:(apply hands_on_splice_chunks_write_loop).
Qed.

Lemma hands_on_splice_chunks_splice_loop fuel : forall src dest maxlen watcher result,
  hands_on [] [] (splice_chunks_splice_loop fuel src dest maxlen watcher result).
Proof.
  induction fuel as [|fuel IH]; intros src dest maxlen watcher result;
    cbn [splice_chunks_splice_loop]; hands_on_walk ltac:(apply IH).
Qed.

Lemma hands_on_splice_chunks_splice src dest maxlen watcher result :
  hands_on [] [] (splice_chunks_splice src dest maxlen watcher result).
Proof.
  unfold splice_chunks_splice.
  hands_on_walk ltac:(apply hands_on_splice_chunks_splice_loop).
Qed.

Lemma hands_on_drain_loop fuel : forall pipe_r dest_fd watcher left err result,
  hands_on [] [] (drain_loop fuel pipe_r dest_fd watcher left err result).
Proof.
  induction fuel as [|fuel IH]; intros pipe_r dest_fd watcher left err result;
    cbn [drain_loop];
    hands_on_walk ltac:(first [apply IH | apply hands_on_splice_chunks_splice]).
Qed.

Lemma hands_on_chunks_loop fuel :
  forall src_fd dest_fd pipe_r pipe_w maxlen watcher chunk_prefix chunk_postfix
         total err result,
  hands_on [] []
    (chunks_loop fuel src_fd dest_fd pipe_r pipe_w maxlen watcher
                 chunk_prefix chunk_postfix total err result).
Proof.
  induction fuel as [|fuel IH];
    intros src_fd dest_fd pipe_r pipe_w maxlen watcher chunk_prefix chunk_postfix
           total err result;
    cbn [chunks_loop];
    hands_on_walk ltac:(first [ apply IH | apply hands_on_splice_chunks_splice
                              | apply hands_on_splice_chunks_write
                              | apply hands_on_drain_loop ]).
Qed.

Lemma hands_on_Backend_write io str : hands_on [] [] (Backend_write io str).
Proof. unfold Backend_write. hands_on_walk ltac:(apply hands_on_write_loop). Qed.

Lemma hands_on_Backend_send io str flags : hands_on [] [] (Backend_send io str flags).
Proof. unfold Backend_send. hands_on_walk ltac:(apply hands_on_send_loop). Qed.

Lemma hands_on_Backend_writev io argv : hands_on [] [] (Backend_writev io argv).
Proof. unfold Backend_writev. hands_on_walk ltac:(apply hands_on_writev_loop). Qed.

Lemma hands_on_Backend_read io str length to_eof pos :
  hands_on [] [] (Backend_read io str length to_eof pos).
Proof. unfold Backend_read. hands_on_walk ltac:(apply hands_on_read_loop). Qed.

Lemma hands_on_Backend_accept server_socket socket_class :
  hands_on [] [] (Backend_accept server_socket socket_class).
Proof. unfold Backend_accept. hands_on_walk ltac:(apply hands_on_accept_rounds). Qed.

Lemma hands_on_Backend_connect sock host port :
  hands_on [] [] (Backend_connect sock host port).
Proof.
  unfold Backend_connect. hands_on_walk fail.
Qed.

Lemma hands_on_Backend_splice src dest maxlen :
  hands_on [] [] (Backend_splice src dest maxlen).
Proof.
  unfold Backend_splice, get_rw_ctx. hands_on_walk ltac:(apply hands_on_splice_loop).
Qed.

Lemma hands_on_Backend_splice_to_eof src dest maxlen :
  hands_on [] [] (Backend_splice_to_eof src dest maxlen).
Proof.
  unfold Backend_splice_to_eof, get_rw_ctx.
  hands_on_walk ltac:(apply hands_on_splice_to_eof_loop).
Qed.

Lemma hands_on_portable_Backend_splice src dest maxlen :
  hands_on [] [] (Portable.Backend_splice src dest maxlen).
Proof.
  unfold Portable.Backend_splice.
  hands_on_walk ltac:(first [ apply hands_on_portable_read_loop
                            | apply hands_on_portable_write_loop ]).
Qed.

Lemma hands_on_portable_Backend_splice_to_eof src dest maxlen :
  hands_on [] [] (Portable.Backend_splice_to_eof src dest maxlen).
Proof.
  unfold Portable.Backend_splice_to_eof.
  hands_on_walk ltac:(apply hands_on_portable_splice_to_eof_loop).
Qed.

Lemma hands_on_Backend_splice_chunks
      src dest prefix postfix chunk_prefix chunk_postfix chunk_size :
  hands_on [] []
    (Backend_splice_chunks src dest prefix postfix chunk_prefix chunk_postfix
                           chunk_size).
Proof.
  unfold Backend_splice_chunks, splice_chunks_body, get_rw_ctx.
  hands_on_walk ltac:(first [ apply hands_on_splice_chunks_write
                            | apply hands_on_chunks_loop ]).
Qed.

Lemma hands_on_Backend_wait_io io write : hands_on [] [] (Backend_wait_io io write).
Proof. unfold Backend_wait_io, libev_wait_fd. hands_on_walk fail. Qed.

Lemma hands_on_Backend_sleep duration : hands_on [] [] (Backend_sleep duration).
Proof. unfold Backend_sleep, rb_fiber_current. hands_on_walk fail. Qed.

Lemma hands_on_chain_loop argv : forall result,
  hands_on [] [] (chain_loop argv result).
Proof.
  induction argv as [|op rest IH]; intros result; cbn [chain_loop].
  - apply hands_on_ret.
  - eapply hands_on_bind; [|intros r; apply IH].
    unfold chain_op.
    hands_on_walk ltac:(first [ apply hands_on_Backend_write
                              | apply hands_on_Backend_send
                              | apply hands_on_Backend_splice ]).
Qed.

Lemma hands_on_blocking_operation m : blocking_operation m -> hands_on [] [] m.
Proof.
  intros [ | | | | argv | | | | | | | | | | | argv].
  - apply hands_on_Backend_read.
  - apply hands_on_Backend_read.
  - apply hands_on_Backend_write.
  - apply hands_on_Backend_writev.
  - destruct argv as [|io [|str [|str' strs]]]; cbn [Backend_write_m].
    + apply hands_on_raise.
    + apply hands_on_raise.
    + apply hands_on_Backend_write.
    + apply hands_on_Backend_writev.
  - apply hands_on_Backend_send.
  - apply hands_on_Backend_accept.
  - apply hands_on_Backend_connect.
  - apply hands_on_Backend_splice.
  - apply hands_on_Backend_splice_to_eof.
  - apply hands_on_portable_Backend_splice.
  - apply hands_on_portable_Backend_splice_to_eof.
  - apply hands_on_Backend_splice_chunks.
  - apply hands_on_Backend_wait_io.
  - apply hands_on_Backend_sleep.
  - unfold Backend_chain.
    destruct (Z.of_nat (List.length argv) =? 0);
      [apply hands_on_ret | apply hands_on_chain_loop].
Qed.

(** X19.  No operation leaves a watcher behind.  Whenever read, recv,
    write, writev, send, accept, connect, splice, splice_to_eof (in both
    variants), splice_chunks, wait_io, sleep or a chain comes back, by
    returning or by raising, every watcher that is active in the event loop
    was active there before the call, with the same settings: the watchers
    that the call started have been stopped, whatever happened while the
    fiber was waiting. *)
Theorem operations_leave_no_watcher m w w' :
  blocking_operation m ->
  came_back (m w) w' ->
  no_new_watchers w w'.
Proof.
  intros Hop Hback.
  pose proof (hands_on_blocking_operation m Hop w w (but_refl w)) as H.
  intros a x Hx.
  destruct Hback as [(v & Hv)|(e & He)].
  - rewrite Hv in H. apply (H a x); [intros []|exact Hx].
  - rewrite He in H. apply (H a x); [intros []|exact Hx].
Qed.

Lemma operations_leave_no_watcher_witness :
  let w' := world_of (Backend_write (RFile 6 None) (RString hello) crowded_run) in
  no_new_watchers crowded_run w' /\
  ev_loop w' = [(8%nat, EvIo 4 EV_READ (RFiber 2)); (9%nat, EvIo 6 EV_WRITE (RFiber 3))].
Proof.
  split.
  - apply (operations_leave_no_watcher (Backend_write (RFile 6 None) (RString hello))
             crowded_run).
    + constructor.
    + left. eexists. vm_compute. reflexivity.
  - vm_compute. reflexivity.
Defined.

(** ** The calls that only wait *)

Lemma waited_os : os_relation waited.
Proof.
  intros w0 w w' ((H1 & H2 & H3 & H4 & H5 & H6 & H7) & H8)
         (E1 & E2 & E3 & E4 & E5 & E6 & E7 & E8 & _).
  unfold waited, no_system_call. repeat split; congruence.
Qed.

Lemma waited_refl w : waited w w.
Proof. unfold waited, no_system_call. repeat split. Qed.

Lemma RAISE_IF_EXCEPTION_outcome v w :
  (TEST_EXCEPTION v = false /\ RAISE_IF_EXCEPTION v w = Done tt w) \/
  (TEST_EXCEPTION v = true /\ RAISE_IF_EXCEPTION v w = Raised (Reraised v) w).
Proof.
  unfold RAISE_IF_EXCEPTION. destruct (TEST_EXCEPTION v); [right|left]; split; reflexivity.
Qed.

Lemma libev_wait_fd_outcome fd events w :
  match libev_wait_fd fd events true w with
  | Done v w' => waited w w' /\ TEST_EXCEPTION v = false
  | Raised e w' => waited w w' /\ exists x, e = Reraised x /\ TEST_EXCEPTION x = true
  | Hang _ => True
  end.
Proof.
  unfold libev_wait_fd, new_libev_io, alloca, bind, ret. cbv beta iota.
  set (w1 := set_next_addr _ w). set (watcher := mk_libev_io _ _ _ _).
  assert (H1 : waited w w1) by (unfold waited, no_system_call; repeat split).
  pose proof (keeps_libev_wait_fd_with_watcher waited (fun _ => False)
                fd watcher events waited_os w w1 H1) as H.
  destruct (libev_wait_fd_with_watcher fd watcher events w1) as [[v wt] w2|e w2|w2].
  - cbv beta iota.
    destruct (RAISE_IF_EXCEPTION_outcome v w2) as [(Ht & Hr)|(Ht & Hr)]; rewrite Hr.
    + split; [exact H | exact Ht].
    + split; [exact H|]. exists v. split; [reflexivity | exact Ht].
  - destruct H as ([] & _).
  - exact I.
Qed.

Lemma Backend_wait_io_outcome io write w :
  match Backend_wait_io io write w with
  | Done v w' =>
      no_system_call w w' /\ op_count w' = op_count w + 1 /\ TEST_EXCEPTION v = false
  | Raised e w' =>
      no_system_call w w' /\
      ((e = TypeError /\ op_count w' = op_count w) \/
       (op_count w' = op_count w + 1 /\
        exists x, e = Reraised x /\ TEST_EXCEPTION x = true))
  | Hang _ => True
  end.
Proof.
  unfold Backend_wait_io.
  set (events := if RTEST write then EV_WRITE else EV_READ).
  destruct (if is_nil (rb_ivar_get_io io) then io else rb_ivar_get_io io);
    try (cbn; split; [unfold no_system_call; repeat split | left; split; reflexivity]).
  unfold GetOpenFile, incr_op_count, modify, bind, ret. cbv beta iota.
  set (w1 := set_op_count _ w).
  pose proof (libev_wait_fd_outcome fd events w1) as H.
  destruct (libev_wait_fd fd events true w1) as [v w2|e w2|w2]; [| |exact I].
  - destruct H as (((H1 & H2 & H3 & H4 & H5 & H6 & H7) & H8) & Ht).
    split; [unfold no_system_call; repeat split; assumption|].
    split; [rewrite H8; reflexivity | exact Ht].
  - destruct H as (((H1 & H2 & H3 & H4 & H5 & H6 & H7) & H8) & Hx).
    split; [unfold no_system_call; repeat split; assumption|].
    right. split; [rewrite H8; reflexivity | exact Hx].
Qed.

Lemma Backend_sleep_outcome duration w :
  match Backend_sleep duration w with
  | Done v w' =>
      no_system_call w w' /\ op_count w' = op_count w + 1 /\ TEST_EXCEPTION v = false
  | Raised e w' =>
      no_system_call w w' /\
      ((e = TypeError /\ op_count w' = op_count w) \/
       (op_count w' = op_count w + 1 /\
        exists x, e = Reraised x /\ TEST_EXCEPTION x = true))
  | Hang _ => True
  end.
Proof.
  unfold Backend_sleep.
  destruct duration;
    try (cbn; split; [unfold no_system_call; repeat split | left; split; reflexivity]).
  unfold alloca, rb_fiber_current, NUM2DBL, ev_start, incr_op_count, ev_stop,
    modify, get, bind, ret.
  cbv beta iota.
  match goal with
  | |- context [backend_await ?x] => set (w2 := x)
  end.
  assert (H2 : no_system_call w w2 /\ op_count w2 = op_count w + 1).
  { subst w2. destruct (ev_lookup _ _); unfold no_system_call; repeat split. }
  pose proof (keeps_await waited (fun _ => False) waited_os w2 w2 (waited_refl w2)) as H.
  destruct (backend_await w2) as [v w3|e w3|w3]; [| destruct H as ([] & _) | exact I].
  cbv beta iota.
  match goal with
  | |- context [RAISE_IF_EXCEPTION v ?x] => set (w4 := x)
  end.
  assert (H4 : no_system_call w w4 /\ op_count w4 = op_count w + 1).
  { destruct H2 as ((A1 & A2 & A3 & A4 & A5 & A6 & A7) & A8).
    destruct H as ((B1 & B2 & B3 & B4 & B5 & B6 & B7) & B8).
    subst w4. unfold no_system_call. cbn. repeat split; congruence. }
  destruct (RAISE_IF_EXCEPTION_outcome v w4) as [(Ht & Hr)|(Ht & Hr)]; rewrite Hr.
  - destruct H4 as (Hn & Hc). split; [exact Hn|]. split; [exact Hc | exact Ht].
  - destruct H4 as (Hn & Hc). split; [exact Hn|]. right. split; [exact Hc|].
    exists v. split; [reflexivity | exact Ht].
Qed.

(** X20.  [wait_io] and [sleep] only wait.  Whenever one of them comes
    back, it has made no system call: what the kernel has in store, errno,
    the descriptors and the bytes that went through them are as before the
    call.  It returns a value that is not an exception, having counted one
    operation; it raises either TypeError for an argument it refuses, before
    anything is counted, or the very exception the fiber was resumed with. *)
Theorem plain_wait_makes_no_system_call m w :
  plain_wait m ->
  (forall v w',
      m w = Done v w' ->
      no_system_call w w' /\ op_count w' = op_count w + 1 /\ TEST_EXCEPTION v = false) /\
  (forall e w',
      m w = Raised e w' ->
      no_system_call w w' /\
      ((e = TypeError /\ op_count w' = op_count w) \/
       (op_count w' = op_count w + 1 /\
        exists x, e = Reraised x /\ TEST_EXCEPTION x = true))).
Proof.
  intros [io write|duration].
  - pose proof (Backend_wait_io_outcome io write w) as H.
    split; intros x w' Hx; rewrite Hx in H; exact H.
  - pose proof (Backend_sleep_outcome duration w) as H.
    split; intros x w' Hx; rewrite Hx in H; exact H.
Qed.

Lemma plain_wait_makes_no_system_call_witness :
  let r := Backend_sleep (Fixnum 2) sleep_run in
  r = Done Qnil (world_of r) /\
  kernel (world_of r) = [KOk 5] /\ op_count (world_of r) = 4 /\
  ev_loop (world_of r) = [(8%nat, EvIo 4 EV_READ (RFiber 2))].
Proof.
  assert (Hr : Backend_sleep (Fixnum 2) sleep_run =
               Done Qnil (world_of (Backend_sleep (Fixnum 2) sleep_run)))
    by (vm_compute; reflexivity).
  destruct (plain_wait_makes_no_system_call (Backend_sleep (Fixnum 2)) sleep_run
              (pw_sleep (Fixnum 2))) as (Hd & _).
  destruct (Hd _ _ Hr) as ((Hk & _) & Hc & _).
  split; [exact Hr|]. split; [exact Hk|]. split; [exact Hc|].
  vm_compute. reflexivity.
Defined.
